(** * Peloton: offer pool, task tracker, status updates and job service

    A shallow embedding of the host manager's offer pool
    ([hostmgr/offer/offerpool/pool.go]) together with the collaborators the
    pool calls into, followed by the properties of the specification that
    concern them.  The stateless job service
    ([jobmgr/jobsvc/stateless/handler.go]), the offers service of the
    placement engine and the task manager ([jobmgr/task/handler.go]) are
    embedded after the pool, with the packages they call as parameters;
    their properties, and further properties of the pool, close the file.

    Conventions of the embedding.
    - Go maps are [gmap]s; a Go [map] of pointers to mutable objects (the
      host index) is a map of values, and a mutation through the pointer is
      an insert at the same key.
    - The pool's locks make every exported operation atomic with respect to
      the others, so an operation is a function from pool state to pool
      state; interleavings inside [AddOffers] are not modelled.
    - [time.Now()] is an argument [now : Z].
    - A runtime panic (a method call through a nil interface value) is the
      result [None].
    - Logging and metric gauges are dropped; the [availableHosts] counter is
      kept, with its 32-bit wrap-around. *)

From stdpp Require Import gmap strings list fin_maps sorting.
From Stdlib Require Import ZArith NArith Lia.

Local Open Scope Z_scope.

(** ** Machine integers *)

(** A Go [uint32] value held in [Z]. *)
Definition uint32 (z : Z) : Z := z mod 2 ^ 32.

(** ** Scalar resources *)

Module scalar.

(** Modelled from the spec: the scalar package ([Resources] with [Add],
    [Subtract], [Contains], [FromOffer], [FromOfferMap]) is not among the
    sources.  Section 3 describes a record [{cpu, mem, disk, gpu,
    ports_count}] of non-negative quantities with componentwise operations,
    where a [Subtract] of more than is held proceeds and saturates at zero.
    Quantities are counted in a fixed unit, so they are exact; the rounding
    of Go's [float64] is outside the model. *)
Record Resources : Type := mkResources {
  CPU : N;
  Mem : N;
  Disk : N;
  GPU : N;
  Ports : N
}.

#[global] Instance Resources_eq_dec : EqDecision Resources.
Proof. solve_decision. Defined.

Definition zero : Resources := mkResources 0 0 0 0 0.

Definition Add (r other : Resources) : Resources :=
  mkResources (CPU r + CPU other) (Mem r + Mem other) (Disk r + Disk other)
              (GPU r + GPU other) (Ports r + Ports other).

(** [N.sub] is truncated subtraction: each component saturates at zero. *)
Definition Subtract (r other : Resources) : Resources :=
  mkResources (CPU r - CPU other) (Mem r - Mem other) (Disk r - Disk other)
              (GPU r - GPU other) (Ports r - Ports other).

Definition Contains (r other : Resources) : bool :=
  (CPU other <=? CPU r)%N && (Mem other <=? Mem r)%N &&
  (Disk other <=? Disk r)%N && (GPU other <=? GPU r)%N &&
  (Ports other <=? Ports r)%N.

End scalar.

(** ** Offers *)

Module mesos.

(** Modelled from the spec: the generated [mesos.Offer] message is not among
    the sources.  An offer is reduced to what the pool reads from it: its
    id, hostname and agent id, the scalar total of its resources (what
    [scalar.FromOffer] returns) and whether its resources carry a labelled
    reservation. *)
Record Offer : Type := mkOffer {
  Id : string;
  Hostname : string;
  AgentId : string;
  Resources : scalar.Resources;
  Reserved : bool
}.

#[global] Instance Offer_eq_dec : EqDecision Offer.
Proof. solve_decision. Defined.

End mesos.

Module scalar_offer.

(** Modelled from the spec: [scalar.FromOffer], the scalar total of one
    offer. *)
Definition FromOffer (offer : mesos.Offer) : scalar.Resources :=
  mesos.Resources offer.

(** The total of a list of offers, accumulated in list order as the
    loops [delta = delta.Add(FromOffer(offer))] do. *)
Definition FromOffers (offers : list mesos.Offer) : scalar.Resources :=
  foldl (fun delta offer => scalar.Add delta (FromOffer offer)) scalar.zero offers.

(** Modelled from the spec: [scalar.FromOfferMap], the total of a map of
    offers; the ranging order of a Go map is that of [map_to_list]. *)
Definition FromOfferMap (offerMap : gmap string mesos.Offer) : scalar.Resources :=
  FromOffers (map_to_list offerMap).*2.

End scalar_offer.

(** ** Host filter *)

Module hostsvc.

Record QuantityControl : Type := mkQuantityControl {
  MaxHosts : Z  (* uint32 *)
}.

(** Modelled from the spec: the generated [hostsvc] messages are not among
    the sources.  Section 4.3 gives a filter a resource constraint, a
    scheduling constraint and a quantity.  The resource minimum and the
    label constraint are read only by the host predicate, which the pool
    takes as a parameter; the pool's matcher itself reads the quantity. *)
Record HostFilter : Type := mkHostFilter {
  ResourceConstraint : option scalar.Resources;
  SchedulingConstraint : option string;
  Quantity : option QuantityControl
}.

(** [filter.GetQuantity().GetMaxHosts()]: a nil [Quantity] reads as zero. *)
Definition GetMaxHosts (f : HostFilter) : Z :=
  match Quantity f with
  | Some q => MaxHosts q
  | None => 0
  end.

(** Modelled from the spec: the classifications of a considered host
    (section 4.1). *)
Inductive HostFilterResult : Type :=
  | MATCH
  | INSUFFICIENT_RESOURCES
  | MISMATCH_CONSTRAINTS
  | MISMATCH_GPU
  | MISMATCH_SCARCE_RESOURCES
  | MISMATCH_STATUS
  | MISMATCH_MAX_HOST_LIMIT
  | NO_OFFER.

#[global] Instance HostFilterResult_eq_dec : EqDecision HostFilterResult.
Proof. solve_decision. Defined.

(** The lower-cased name under which a result is counted. *)
Definition HostFilterResult_name (r : HostFilterResult) : string :=
  match r with
  | MATCH => "match"
  | INSUFFICIENT_RESOURCES => "insufficient_resources"
  | MISMATCH_CONSTRAINTS => "mismatch_constraints"
  | MISMATCH_GPU => "mismatch_gpu"
  | MISMATCH_SCARCE_RESOURCES => "mismatch_scarce_resources"
  | MISMATCH_STATUS => "mismatch_status"
  | MISMATCH_MAX_HOST_LIMIT => "mismatch_max_host_limit"
  | NO_OFFER => "no_offer"
  end.

End hostsvc.

(** ** Host summary *)

Module summary.

Inductive CacheStatus : Type :=
  | ReadyOffer
  | PlacingOffer
  | ReservedOffer.

#[global] Instance CacheStatus_eq_dec : EqDecision CacheStatus.
Proof. solve_decision. Defined.

(** Modelled from the spec: the host summary package is not among the
    sources; the pool reaches it through the [summary.HostSummary]
    interface.  Section 3 gives a summary a status among READY, PLACING and
    RESERVED, a status expiration and a bag of offers keyed by offer id;
    section 4.2 gives its transitions. *)
Record hostSummary : Type := mkHostSummary {
  status : CacheStatus;
  statusPlacingOfferExpiration : Z;
  offers : gmap string mesos.Offer
}.

(** Modelled from the spec: [summary.New], a READY summary with no offer. *)
Definition New : hostSummary := mkHostSummary ReadyOffer 0 ∅.

Definition unreservedOffers (s : hostSummary) : gmap string mesos.Offer :=
  filter (fun kv => mesos.Reserved kv.2 = false) (offers s).

Definition reservedOffers (s : hostSummary) : gmap string mesos.Offer :=
  filter (fun kv => mesos.Reserved kv.2 = true) (offers s).

(** Modelled from the spec: [HasAnyOffer], whether the bag holds an offer,
    reserved or not. *)
Definition HasAnyOffer (s : hostSummary) : bool :=
  bool_decide (offers s ≠ ∅).

(** Modelled from the spec: [HasOffer], whether the host is READY with an
    unreserved offer to give. *)
Definition HasOffer (s : hostSummary) : bool :=
  bool_decide (status s = ReadyOffer) && bool_decide (unreservedOffers s ≠ ∅).

(** Modelled from the spec: [AddMesosOffer] puts the offer in the bag under
    its id and returns the status of the host for the pool's accounting. *)
Definition AddMesosOffer (offer : mesos.Offer) (s : hostSummary)
  : CacheStatus * hostSummary :=
  (status s,
   mkHostSummary (status s) (statusPlacingOfferExpiration s)
                 (<[mesos.Id offer := offer]> (offers s))).

(** Modelled from the spec: [RemoveMesosOffer] takes the offer of that id
    out of the bag and returns the status of the host together with the
    removed offer, or nil when the bag has no such offer. *)
Definition RemoveMesosOffer (offerID : string) (s : hostSummary)
  : CacheStatus * option mesos.Offer * hostSummary :=
  (status s, offers s !! offerID,
   mkHostSummary (status s) (statusPlacingOfferExpiration s)
                 (delete offerID (offers s))).

(** Modelled from the spec: [CasStatus], the compare-and-set mutator of the
    status: it fails, changing nothing, when the status is not [old]. *)
Definition CasStatus (old new : CacheStatus) (s : hostSummary)
  : option string * hostSummary :=
  if decide (status s = old)
  then (None, mkHostSummary new (statusPlacingOfferExpiration s) (offers s))
  else (Some "Invalid old status", s).

(** Modelled from the spec: [UnreservedAmount], the scalar total of the
    unreserved offers of the host. *)
Definition UnreservedAmount (s : hostSummary) : scalar.Resources :=
  scalar_offer.FromOfferMap (unreservedOffers s).

(** Modelled from the spec: [ClaimForLaunch] needs a PLACING host; it hands
    out the unreserved offers, which leave the bag, and the host is READY
    again. *)
Definition ClaimForLaunch (s : hostSummary)
  : (gmap string mesos.Offer * hostSummary) + string :=
  if decide (status s = PlacingOffer)
  then inl (unreservedOffers s,
            mkHostSummary ReadyOffer (statusPlacingOfferExpiration s)
                          (reservedOffers s))
  else inr "Host status is not Placing".

(** Modelled from the spec: [ClaimReservedOffersForLaunch] hands out the
    reserved offers, which leave the bag; the status stays. *)
Definition ClaimReservedOffersForLaunch (s : hostSummary)
  : (gmap string mesos.Offer * hostSummary) + string :=
  inl (reservedOffers s,
       mkHostSummary (status s) (statusPlacingOfferExpiration s)
                     (unreservedOffers s)).

(** Modelled from the spec: [ResetExpiredPlacingOfferStatus] forces a host
    that is PLACING beyond its status expiration back to READY and reports
    the unreserved amount that moves with it. *)
Definition ResetExpiredPlacingOfferStatus (now : Z) (s : hostSummary)
  : bool * scalar.Resources * hostSummary :=
  if bool_decide (status s = PlacingOffer) &&
     (statusPlacingOfferExpiration s <? now)
  then (true, UnreservedAmount s,
        mkHostSummary ReadyOffer (statusPlacingOfferExpiration s) (offers s))
  else (false, scalar.zero, s).

Section TryMatch.

(** The host predicate of the summary package (resource containment, the
    label constraint under the evaluator, GPU affinity), applied to the
    unreserved offers of a READY host.  It is a parameter: the properties
    below hold for each choice. *)
Variable matchHostFilter :
  gmap string mesos.Offer -> hostsvc.HostFilter -> hostsvc.HostFilterResult.

(** Modelled from the spec: [TryMatch].  Only a READY host with an offer is
    considered; on a match the host is claimed, READY to PLACING with the
    status expiration set, and its unreserved offers are returned.
    [placingUntil] is that expiration: the time of the call plus the hold
    time of a PLACING status, a configuration value outside the sources. *)
Definition TryMatch (placingUntil : Z) (filter : hostsvc.HostFilter) (s : hostSummary)
  : hostsvc.HostFilterResult * list mesos.Offer * hostSummary :=
  if negb (HasOffer s) then (hostsvc.MISMATCH_STATUS, [], s)
  else
    match matchHostFilter (unreservedOffers s) filter with
    | hostsvc.MATCH =>
        (hostsvc.MATCH, (map_to_list (unreservedOffers s)).*2,
         mkHostSummary PlacingOffer placingUntil (offers s))
    | r => (r, [], s)
    end.

End TryMatch.

End summary.

(** ** Offer pool *)

Module offerpool.

Import summary.

(** [TimedOffer] contains hostname and possible expiration time of an
    offer. *)
Record TimedOffer : Type := mkTimedOffer {
  Hostname : string;
  Expiration : Z
}.

#[global] Instance TimedOffer_eq_dec : EqDecision TimedOffer.
Proof. solve_decision. Defined.

Record offerPool : Type := mkOfferPool {
  (* key: hostname, value: HostSummary *)
  hostOfferIndex : gmap string hostSummary;
  (* number of hosts that has any offers (atomic.Uint32) *)
  availableHosts : Z;
  (* map from offer id to hostname and expiration *)
  timedOffers : gmap string TimedOffer;
  (* time to hold offer for *)
  offerHoldTime : Z;
  readyResources : scalar.Resources;
  placingResources : scalar.Resources
}.

(** [NewOfferPool]: empty indices, zero counters. *)
Definition NewOfferPool (offerHoldTime : Z) : offerPool :=
  mkOfferPool ∅ 0 ∅ offerHoldTime scalar.zero scalar.zero.

Definition set_hostOfferIndex (i : gmap string hostSummary) (p : offerPool) :=
  mkOfferPool i (availableHosts p) (timedOffers p) (offerHoldTime p)
              (readyResources p) (placingResources p).

Definition set_availableHosts (a : Z) (p : offerPool) :=
  mkOfferPool (hostOfferIndex p) a (timedOffers p) (offerHoldTime p)
              (readyResources p) (placingResources p).

Definition set_timedOffers (t : gmap string TimedOffer) (p : offerPool) :=
  mkOfferPool (hostOfferIndex p) (availableHosts p) t (offerHoldTime p)
              (readyResources p) (placingResources p).

Definition set_readyResources (r : scalar.Resources) (p : offerPool) :=
  mkOfferPool (hostOfferIndex p) (availableHosts p) (timedOffers p)
              (offerHoldTime p) r (placingResources p).

Definition set_placingResources (r : scalar.Resources) (p : offerPool) :=
  mkOfferPool (hostOfferIndex p) (availableHosts p) (timedOffers p)
              (offerHoldTime p) (readyResources p) r.

(** [incQuantity]: [resources.Set(resources.Get().Add(delta))]. *)
Definition incQuantity (resources delta : scalar.Resources) : scalar.Resources :=
  scalar.Add resources delta.

(** [decQuantity]: when [resources] does not contain [delta] an error is
    logged and the subtraction proceeds all the same. *)
Definition decQuantity (resources delta : scalar.Resources) : scalar.Resources :=
  scalar.Subtract resources delta.

(** The [switch status] that follows [AddMesosOffer] in [tryAddOffer] and
    [addOffer]: READY feeds [readyResources], PLACING feeds
    [placingResources], any other status is logged and feeds neither. *)
Definition incByStatus (st : CacheStatus) (delta : scalar.Resources)
    (p : offerPool) : offerPool :=
  match st with
  | ReadyOffer => set_readyResources (incQuantity (readyResources p) delta) p
  | PlacingOffer => set_placingResources (incQuantity (placingResources p) delta) p
  | _ => p
  end.

(** The [switch status] that follows [RemoveMesosOffer] in [RescindOffer]
    and [RemoveExpiredOffers]. *)
Definition decByStatus (st : CacheStatus) (delta : scalar.Resources)
    (p : offerPool) : offerPool :=
  match st with
  | ReadyOffer => set_readyResources (decQuantity (readyResources p) delta) p
  | PlacingOffer => set_placingResources (decQuantity (placingResources p) delta) p
  | _ => p
  end.

(** [availableHosts.Inc()] when the host has no offer yet. *)
Definition incAvailable (s : hostSummary) (p : offerPool) : offerPool :=
  if HasAnyOffer s then p else set_availableHosts (uint32 (availableHosts p + 1)) p.

(** [availableHosts.Dec()] when the host is left without any offer. *)
Definition decAvailable (s : hostSummary) (p : offerPool) : offerPool :=
  if HasAnyOffer s then p else set_availableHosts (uint32 (availableHosts p - 1)) p.

(** [tryAddOffer]: if the pool does not have the host name, returns false;
    otherwise adds the offer to the host and returns true. *)
Definition tryAddOffer (offer : mesos.Offer) (expiration : Z) (p : offerPool)
  : bool * offerPool :=
  let hostName := mesos.Hostname offer in
  match hostOfferIndex p !! hostName with
  | None => (false, p)
  | Some s =>
      let p1 := incAvailable s p in
      let '(st, s') := AddMesosOffer offer s in
      let p2 := set_hostOfferIndex (<[hostName := s']> (hostOfferIndex p1)) p1 in
      (true, incByStatus st (scalar_offer.FromOffer offer) p2)
  end.

(** [addOffer]: makes sure the host has a summary, then adds the offer to
    it. *)
Definition addOffer (offer : mesos.Offer) (expiration : Z) (p : offerPool)
  : offerPool :=
  let hostName := mesos.Hostname offer in
  let s := default New (hostOfferIndex p !! hostName) in
  let p1 := incAvailable s p in
  let '(st, s') := AddMesosOffer offer s in
  let p2 := set_hostOfferIndex (<[hostName := s']> (hostOfferIndex p1)) p1 in
  incByStatus st (scalar_offer.FromOffer offer) p2.

(** One round of the first loop of [AddOffers]. *)
Definition addOne (expiration : Z) (p : offerPool) (offer : mesos.Offer)
  : offerPool :=
  let '(result, p') := tryAddOffer offer expiration p in
  if result then p' else addOffer offer expiration p.

(** One round of the second loop of [AddOffers]. *)
Definition timeOne (expiration : Z) (p : offerPool) (offer : mesos.Offer)
  : offerPool :=
  set_timedOffers
    (<[mesos.Id offer := mkTimedOffer (mesos.Hostname offer) expiration]>
       (timedOffers p)) p.

Definition AddOffers (now : Z) (offers : list mesos.Offer) (p : offerPool)
  : offerPool :=
  let expiration := now + offerHoldTime p in
  let p1 := foldl (addOne expiration) p offers in
  foldl (timeOne expiration) p1 offers.

(** [RescindOffer] returns whether the offer is found in the pool. *)
Definition RescindOffer (offerID : string) (p : offerPool) : bool * offerPool :=
  match timedOffers p !! offerID with
  | None => (false, p)
  | Some offer =>
      let p1 := set_timedOffers (delete offerID (timedOffers p)) p in
      let hostName := Hostname offer in
      match hostOfferIndex p1 !! hostName with
      | None => (false, p1)
      | Some hostOffers =>
          let '(st, removed, s') := RemoveMesosOffer offerID hostOffers in
          let p2 := set_hostOfferIndex (<[hostName := s']> (hostOfferIndex p1)) p1 in
          let p3 := match removed with
                    | Some o => decByStatus st (scalar_offer.FromOffer o) p2
                    | None => p2
                    end in
          (true, decAvailable s' p3)
      end
  end.

(** Whether [time.Now().After(timedOffer.Expiration)]. *)
Definition expired (now : Z) (t : TimedOffer) : bool := Expiration t <? now.

(** One round of the second loop of [RemoveExpiredOffers].  The summary is
    reached as [p.hostOfferIndex[hostName]] without a presence check, so a
    missing host is a call through a nil interface. *)
Definition removeOne (acc : option offerPool) (entry : string * TimedOffer)
  : option offerPool :=
  p ← acc;
  let hostName := Hostname entry.2 in
  s ← hostOfferIndex p !! hostName;
  let '(st, removed, s') := RemoveMesosOffer entry.1 s in
  let p2 := set_hostOfferIndex (<[hostName := s']> (hostOfferIndex p)) p in
  let p3 := match removed with
            | Some o => decByStatus st (scalar_offer.FromOffer o) p2
            | None => p2
            end in
  Some (decAvailable s' p3).

(** [RemoveExpiredOffers] removes offers which are expired from the pool and
    returns the removed entries as well as how many offers are still
    left. *)
Definition RemoveExpiredOffers (now : Z) (p : offerPool)
  : option (gmap string TimedOffer * Z * offerPool) :=
  let offersToDecline := filter (fun kv => expired now kv.2 = true) (timedOffers p) in
  let p1 := set_timedOffers
              (filter (fun kv => expired now kv.2 = false) (timedOffers p)) p in
  p2 ← foldl removeOne (Some p1) (map_to_list offersToDecline);
  Some (offersToDecline, Z.of_nat (size (timedOffers p2)), p2).

(** [ReturnUnusedOffers] returns resources previously sent to the placement
    engine back to ready state. *)
Definition ReturnUnusedOffers (hostname : string) (p : offerPool)
  : option string * offerPool :=
  match hostOfferIndex p !! hostname with
  | None => (None, p)
  | Some hostOffers =>
      match CasStatus PlacingOffer ReadyOffer hostOffers with
      | (Some err, _) => (Some err, p)
      | (None, s') =>
          let delta := UnreservedAmount s' in
          let p1 := set_hostOfferIndex (<[hostname := s']> (hostOfferIndex p)) p in
          let p2 := set_placingResources (decQuantity (placingResources p1) delta) p1 in
          (None, set_readyResources (incQuantity (readyResources p2) delta) p2)
      end
  end.

(** [ClaimForLaunch] takes offers from the pool for launch.  The summary is
    reached as [p.hostOfferIndex[hostname]] without a presence check. *)
Definition ClaimForLaunch (hostname : string) (useReservedOffers : bool)
    (p : offerPool)
  : option ((gmap string mesos.Offer + string) * offerPool) :=
  s ← hostOfferIndex p !! hostname;
  match (if useReservedOffers then ClaimReservedOffersForLaunch s
         else summary.ClaimForLaunch s) with
  | inr err => Some (inr err, p)
  | inl (offerMap, s') =>
      let p1 := set_hostOfferIndex (<[hostname := s']> (hostOfferIndex p)) p in
      let p2 := set_timedOffers
                  (filter (fun kv => offerMap !! kv.1 = None) (timedOffers p1)) p1 in
      let p3 := if useReservedOffers then p2
                else set_placingResources
                       (decQuantity (placingResources p2)
                                    (scalar_offer.FromOfferMap offerMap)) p2 in
      Some (inl offerMap, decAvailable s' p3)
  end.

(** One round of the loop of [ResetExpiredHostSummaries]. *)
Definition resetOne (now : Z) (acc : list string * offerPool)
    (entry : string * hostSummary) : list string * offerPool :=
  let '(resetHostnames, p) := acc in
  let '(reset, res, s') := ResetExpiredPlacingOfferStatus now entry.2 in
  if reset then
    let p1 := set_hostOfferIndex (<[entry.1 := s']> (hostOfferIndex p)) p in
    let p2 := set_readyResources (incQuantity (readyResources p1) res) p1 in
    (resetHostnames ++ [entry.1],
     set_placingResources (decQuantity (placingResources p2) res) p2)
  else (resetHostnames, p).

(** [ResetExpiredHostSummaries] resets the status of each summary from
    PLACING to READY if the PLACING status has expired and returns the
    hostnames which got reset. *)
Definition ResetExpiredHostSummaries (now : Z) (p : offerPool)
  : list string * offerPool :=
  foldl (resetOne now) ([], p) (map_to_list (hostOfferIndex p)).

(** [Clear] removes all offers from the pool. *)
Definition Clear (p : offerPool) : offerPool :=
  mkOfferPool ∅ (availableHosts p) ∅ (offerHoldTime p) scalar.zero scalar.zero.

(** *** Matcher *)

(** Modelled from the spec: the matcher ([NewMatcher], [tryMatch],
    [HasEnoughHosts], [getHostOffers]) is not among the sources.  Section
    4.3: it keeps the offers of the hosts matched so far, grouped by host,
    and the count of each classification, and it stops matching once the
    number of matched hosts reaches [quantity.max_hosts]. *)
Record Matcher : Type := mkMatcher {
  hostFilter : hostsvc.HostFilter;
  hostOffers : gmap string (list mesos.Offer);
  filterCounts : gmap string Z
}.

Definition NewMatcher (f : hostsvc.HostFilter) : Matcher := mkMatcher f ∅ ∅.

Definition HasEnoughHosts (m : Matcher) : bool :=
  hostsvc.GetMaxHosts (hostFilter m) <=? uint32 (Z.of_nat (size (hostOffers m))).

Definition getHostOffers (m : Matcher)
  : gmap string (list mesos.Offer) * gmap string Z :=
  (hostOffers m, filterCounts m).

Section Matching.

Variable matchHostFilter :
  gmap string mesos.Offer -> hostsvc.HostFilter -> hostsvc.HostFilterResult.

(** Modelled from the spec: [tryMatch] classifies one host, counts the
    classification, and keeps the offers of a matched host. *)
Definition tryMatch (placingUntil : Z) (hostname : string) (s : hostSummary)
    (m : Matcher)
  : hostSummary * Matcher :=
  let '(result, offers, s') :=
    if HasEnoughHosts m then (hostsvc.MISMATCH_MAX_HOST_LIMIT, [], s)
    else TryMatch matchHostFilter placingUntil (hostFilter m) s in
  let name := hostsvc.HostFilterResult_name result in
  let counts := <[name := uint32 (default 0 (filterCounts m !! name) + 1)]>
                  (filterCounts m) in
  (s', mkMatcher (hostFilter m)
         (if decide (result = hostsvc.MATCH)
          then <[hostname := offers]> (hostOffers m) else hostOffers m)
         counts).

(** The loop [for hostname, summary := range p.hostOfferIndex] of
    [ClaimForPlace].  [order] is the sequence of hostnames in which the
    range statement visits the index, which Go leaves unspecified; a name
    that is not a key of the index is passed over. *)
Fixpoint claimLoop (placingUntil : Z) (order : list string) (m : Matcher)
    (index : gmap string hostSummary) : Matcher * gmap string hostSummary :=
  match order with
  | [] => (m, index)
  | hostname :: rest =>
      match index !! hostname with
      | None => claimLoop placingUntil rest m index
      | Some s =>
          let '(s', m') := tryMatch placingUntil hostname s m in
          let index' := <[hostname := s']> index in
          if HasEnoughHosts m' then (m', index')
          else claimLoop placingUntil rest m' index'
      end
  end.

(** The total of the offers of a result of [ClaimForPlace]: the two nested
    range loops over [hostOffers]. *)
Definition hostOffersDelta (ho : gmap string (list mesos.Offer)) : scalar.Resources :=
  scalar_offer.FromOffers (concat (map_to_list ho).*2).

(** [ClaimForPlace] obtains offers from the pool conforming to the given
    filter, grouped by hostname.  The result is the offers, the count of
    each classification and the error. *)
Definition ClaimForPlace (placingUntil : Z) (order : list string)
    (filter : option hostsvc.HostFilter) (p : offerPool)
  : (gmap string (list mesos.Offer) * gmap string Z * option string) * offerPool :=
  match filter with
  | None => ((∅, ∅, Some "empty HostFilter passed in"), p)
  | Some f =>
      let '(matcher, index) :=
        claimLoop placingUntil order (NewMatcher f) (hostOfferIndex p) in
      let p1 := set_hostOfferIndex index p in
      let '(ho, resultCount) := getHostOffers matcher in
      let delta := hostOffersDelta ho in
      let p2 :=
        if bool_decide (0 < size ho)%nat then
          let p' := set_placingResources (incQuantity (placingResources p1) delta) p1 in
          set_readyResources (decQuantity (readyResources p') delta) p'
        else p1 in
      ((ho, resultCount, None), p2)
  end.

End Matching.

End offerpool.

(** ** Sequences of pool operations *)

Module poolops.

Import summary offerpool.

(** The calls a client of the pool interface can make. *)
Inductive op : Type :=
  | OpAddOffers (now : Z) (offers : list mesos.Offer)
  | OpRescindOffer (offerID : string)
  | OpRemoveExpiredOffers (now : Z)
  | OpClaimForPlace (placingUntil : Z) (order : list string)
      (filter : option hostsvc.HostFilter)
  | OpClaimForLaunch (hostname : string) (useReservedOffers : bool)
  | OpReturnUnusedOffers (hostname : string)
  | OpResetExpiredHostSummaries (now : Z).




(** Modelled from the spec: [ReleaseHostOffers] of the host manager, which
    is not among the sources, returns every host of the request to the pool;
    an error of [ReturnUnusedOffers] does not stop it. *)
Definition releaseAll (hostnames : list string) (p : offerPool) : offerPool :=
  foldl (fun q hostname => (ReturnUnusedOffers hostname q).2) p hostnames.

(** A summary after the matcher has seen it: the same bag, and either
    nothing changed or the host went from READY to PLACING. *)
Definition claimedFrom (s s' : hostSummary) : Prop :=
  offers s' = offers s /\
  (s' = s \/ (status s = ReadyOffer /\ status s' = PlacingOffer)).

(** The offer bag of a host; empty when the host has no summary. *)
Definition bag (p : offerPool) (h : string) : gmap string mesos.Offer :=
  default ∅ (summary.offers <$> hostOfferIndex p !! h).

(** Offer ids are unique to the broker: an [AddOffers] call is well formed
    in a pool when none of its offer ids is held in the bag of a host other
    than the offer's own, and no id comes twice with different hostnames. *)
Definition freshOffers (p : offerPool) (offers : list mesos.Offer) : Prop :=
  (forall o h, o ∈ offers -> is_Some (bag p h !! mesos.Id o) ->
     h = mesos.Hostname o) /\
  (forall o o', o ∈ offers -> o' ∈ offers -> mesos.Id o = mesos.Id o' ->
     mesos.Hostname o = mesos.Hostname o').

(** Every offer id of [timedOffers] is in the bag of exactly one host
    summary, that of the hostname its entry records. *)
Definition indexed (p : offerPool) : Prop :=
  forall id t, timedOffers p !! id = Some t ->
    is_Some (bag p (Hostname t) !! id) /\
    (forall h, is_Some (bag p h !! id) -> h = Hostname t).

(** The offer that an entry of [timedOffers] names, when the bag of its
    host holds it and the host has status [st]: what the second loop of
    [RemoveExpiredOffers] takes out of the bucket of [st]. *)
Definition removedOffer (st : CacheStatus) (p : offerPool)
    (entry : string * TimedOffer) : option mesos.Offer :=
  s ← hostOfferIndex p !! Hostname entry.2;
  if decide (status s = st) then summary.offers s !! entry.1 else None.

Definition removedOffers (st : CacheStatus) (p : offerPool)
    (entries : list (string * TimedOffer)) : list mesos.Offer :=
  omap (removedOffer st p) entries.

(** A host whose summary is PLACING. *)
Definition placingAt (p : offerPool) (h : string) : Prop :=
  exists s, hostOfferIndex p !! h = Some s /\ status s = PlacingOffer.

Section Run.

Variable matchHostFilter :
  gmap string mesos.Offer -> hostsvc.HostFilter -> hostsvc.HostFilterResult.

(** The pool after one call; [None] when the call panics. *)
Definition step (o : op) (p : offerPool) : option offerPool :=
  match o with
  | OpAddOffers now offers => Some (AddOffers now offers p)
  | OpRescindOffer offerID => Some (RescindOffer offerID p).2
  | OpRemoveExpiredOffers now => snd <$> RemoveExpiredOffers now p
  | OpClaimForPlace placingUntil order filter =>
      Some (ClaimForPlace matchHostFilter placingUntil order filter p).2
  | OpClaimForLaunch hostname useReservedOffers =>
      snd <$> ClaimForLaunch hostname useReservedOffers p
  | OpReturnUnusedOffers hostname => Some (ReturnUnusedOffers hostname p).2
  | OpResetExpiredHostSummaries now => Some (ResetExpiredHostSummaries now p).2
  end.

(** The pool after a sequence of calls, oldest first. *)
Fixpoint run (ops : list op) (p : offerPool) : option offerPool :=
  match ops with
  | [] => Some p
  | o :: rest => p' ← step o p; run rest p'
  end.

(** A sequence of calls in which every [AddOffers] is well formed in the
    pool it runs in. *)
Fixpoint freshRun (ops : list op) (p : offerPool) : Prop :=
  match ops with
  | [] => True
  | o :: rest =>
      match o with
      | OpAddOffers _ offers => freshOffers p offers
      | _ => True
      end /\
      match step o p with
      | Some p' => freshRun rest p'
      | None => True
      end
  end.

End Run.

End poolops.

(** ** Task tracker of the resource manager *)

Module tracker.

Inductive TaskState : Type :=
  | INITIALIZED | PENDING | READY | PLACING | PLACED | LAUNCHING | LAUNCHED
  | RUNNING | SUCCEEDED | FAILED | KILLED | LOST | PREEMPTING | RESERVED.

#[global] Instance TaskState_eq_dec : EqDecision TaskState.
Proof. solve_decision. Defined.

(** Modelled from the spec: the tracker and its [RMTask] are not among the
    sources, only their test is.  A tracked task has a state, a resource
    and the pool it was added with. *)
Record RMTask : Type := mkRMTask {
  state : TaskState;
  resource : scalar.Resources;
  respool : string
}.

(** Modelled from the spec: the tracker's index by task id, and the
    allocation of each resource pool. *)
Record Tracker : Type := mkTracker {
  tasks : gmap string RMTask;
  allocation : gmap string scalar.Resources
}.

(** The states from which [MarkItDone] gives the task's resource back
    (section 4.5). *)
Definition holdsAllocation (st : TaskState) : bool :=
  match st with
  | READY | PLACING | PLACED | LAUNCHING | LAUNCHED | RUNNING | RESERVED => true
  | _ => false
  end.

(** Modelled from the spec: [AddTask] tracks a task as INITIALIZED, with no
    allocation. *)
Definition AddTask (id : string) (res : scalar.Resources) (pool : string)
    (tr : Tracker) : Tracker :=
  mkTracker (<[id := mkRMTask INITIALIZED res pool]> (tasks tr)) (allocation tr).

(** Modelled from the spec: [SubtractFromAllocation] of a pool. *)
Definition SubtractFromAllocation (pool : string) (res : scalar.Resources)
    (alloc : gmap string scalar.Resources) : gmap string scalar.Resources :=
  <[pool := scalar.Subtract (default scalar.zero (alloc !! pool)) res]> alloc.

(** Modelled from the spec: [AddToAllocation] of a pool. *)
Definition AddToAllocation (pool : string) (res : scalar.Resources)
    (alloc : gmap string scalar.Resources) : gmap string scalar.Resources :=
  <[pool := scalar.Add (default scalar.zero (alloc !! pool)) res]> alloc.

Definition GetAllocation (pool : string) (tr : Tracker) : scalar.Resources :=
  default scalar.zero (allocation tr !! pool).

(** Modelled from the spec: [MarkItDone] is where a tracked task dies.  Only
    from READY, PLACING, PLACED, LAUNCHING, LAUNCHED, RUNNING or RESERVED
    does it subtract the task's resource from the allocation of its pool;
    the task leaves the tracker.  An unknown task is an error. *)
Definition MarkItDone (id : string) (tr : Tracker) : option string * Tracker :=
  match tasks tr !! id with
  | None => (Some "task is not in tracker", tr)
  | Some t =>
      let alloc :=
        if holdsAllocation (state t)
        then SubtractFromAllocation (respool t) (resource t) (allocation tr)
        else allocation tr in
      (None, mkTracker (delete id (tasks tr)) alloc)
  end.

End tracker.

(** ** Task status updates of the job manager *)

Module event.

Inductive TaskState : Type :=
  | TaskState_INITIALIZED | TaskState_PENDING | TaskState_LAUNCHING
  | TaskState_RUNNING | TaskState_SUCCEEDED | TaskState_FAILED
  | TaskState_LOST | TaskState_KILLED.

#[global] Instance TaskState_eq_dec : EqDecision TaskState.
Proof. solve_decision. Defined.

(** A mesos task id [jobID-instanceID-uuid], kept in its three parts. *)
Record MesosTaskID : Type := mkMesosTaskID {
  mesosJobID : string;
  mesosInstanceID : Z;
  mesosRunID : string
}.

#[global] Instance MesosTaskID_eq_dec : EqDecision MesosTaskID.
Proof. solve_decision. Defined.

Record RuntimeInfo : Type := mkRuntimeInfo {
  TaskId : MesosTaskID;
  State : TaskState;
  GoalState : TaskState;
  Reason : string;
  Message : string;
  FailuresCount : Z  (* uint32 *)
}.

#[global] Instance RuntimeInfo_eq_dec : EqDecision RuntimeInfo.
Proof. solve_decision. Defined.

Record TaskInfo : Type := mkTaskInfo {
  JobId : string;
  InstanceId : Z;
  Runtime : RuntimeInfo;
  (* Config.RestartPolicy.MaxFailures; zero when the policy is nil *)
  MaxFailures : Z
}.

#[global] Instance TaskInfo_eq_dec : EqDecision TaskInfo.
Proof. solve_decision. Defined.

(** [job.JobConfig] as the tests of the updater build it; [RespoolID] is
    [GetRespoolID().GetValue()] of the pool the job runs in, nil when
    unset. *)
Record JobConfig : Type := mkJobConfig {
  Name : string;
  RespoolID : option string;
  Preemptible : bool;  (* Sla.Preemptible *)
  InstanceCount : Z
}.

#[global] Instance JobConfig_eq_dec : EqDecision JobConfig.
Proof. solve_decision. Defined.

(** A task status event of the broker. *)
Record TaskStatus : Type := mkTaskStatus {
  statusTaskId : MesosTaskID;
  statusState : TaskState;
  statusReason : string;
  statusMessage : string
}.

(** Modelled from the spec: [jm_task.ConvertToResMgrGangs] is not among
    the sources.  Section 3: a task in the view of the resource manager
    has an id and a job id; a gang is kept as the peloton task ids
    [(jobID, instanceID)] of its tasks and the job config they were
    converted with. *)
Record Gang : Type := mkGang {
  GangTasks : list (string * Z);
  GangConfig : JobConfig
}.

(** [resmgrsvc.EnqueueGangsRequest]: the gangs and the pool they go to. *)
Record EnqueueGangsRequest : Type := mkEnqueueGangsRequest {
  ResPool : option string;
  Gangs : list Gang
}.

(** The collaborators of the updater that it changes: the task store,
    keyed by peloton task id [(jobID, instanceID)], and the requests handed
    to the resource manager through [EnqueueGangs], oldest first. *)
Record World : Type := mkWorld {
  taskStore : gmap (string * Z) TaskInfo;
  enqueued : list EnqueueGangsRequest
}.

(** [isUnexpected], as [TestIsErrorState] has it: FAILED and LOST are
    unexpected states. *)
Definition isUnexpected (state : TaskState) : bool :=
  match state with
  | TaskState_FAILED | TaskState_LOST => true
  | _ => false
  end.

Section Update.

(** Which failure reasons are worth a retry. *)
Variable retryable : string -> bool.

(** [jobStore.GetJobConfig], by job id: the config, or the error of the
    store as text. *)
Variable GetJobConfig : string -> JobConfig + string.

(** Modelled from the spec: [ProcessStatusUpdate] is not among the sources,
    only its tests are.  Section 4.5: on FAILED with a retryable reason and
    [failures_count < max_failures] the task is re-enqueued as INITIALIZED
    in the same pool with a new mesos task id; otherwise the reported state
    is written.  The tests of the updater add what the calls are: the task
    is read by its peloton task id; on a retry the config of the job is
    read from the job store and the task goes to [EnqueueGangs] with it,
    and when that read fails nothing is enqueued while the runtime is
    written all the same ([TestProcessTaskFailedRetryDBFailure]); the
    reason and the message are written for a FAILED event, the message of
    a retry with its prefix; the call returns no error.  [newRunID] is the
    uuid drawn for a new mesos task id. *)
Definition ProcessStatusUpdate (newRunID : string) (ev : TaskStatus) (w : World)
  : option string * World :=
  let key := (mesosJobID (statusTaskId ev), mesosInstanceID (statusTaskId ev)) in
  match taskStore w !! key with
  | None => (Some "task not found", w)
  | Some info =>
      let rt := Runtime info in
      let state := statusState ev in
      let retry :=
        bool_decide (state = TaskState_FAILED) && retryable (statusReason ev) &&
        (FailuresCount rt <? MaxFailures info) in
      let statusMsg :=
        if retry
        then "Rescheduled due to task failure status: " +:+ statusMessage ev
        else statusMessage ev in
      let requests :=
        if retry then
          match GetJobConfig (JobId info) with
          | inl jobConfig =>
              enqueued w ++
                [mkEnqueueGangsRequest (RespoolID jobConfig)
                   [mkGang [(JobId info, InstanceId info)] jobConfig]]
          | inr _ => enqueued w
          end
        else enqueued w in
      let rt' :=
        mkRuntimeInfo
          (if retry then mkMesosTaskID (JobId info) (InstanceId info) newRunID
           else TaskId rt)
          (if retry then TaskState_INITIALIZED else state)
          (GoalState rt)
          (if isUnexpected state then statusReason ev else Reason rt)
          (if isUnexpected state then statusMsg else Message rt)
          (if retry then uint32 (FailuresCount rt + 1) else FailuresCount rt) in
      let info' := mkTaskInfo (JobId info) (InstanceId info) rt' (MaxFailures info) in
      (None, mkWorld (<[key := info']> (taskStore w)) requests)
  end.

End Update.

End event.

(** ** Stateless job service handler *)

Module stateless.

(** The status codes of [yarpcerrors]. *)
Inductive Code : Type :=
  | CodeInvalidArgument | CodeNotFound | CodeAlreadyExists
  | CodeFailedPrecondition | CodeAborted | CodeUnavailable
  | CodeResourceExhausted | CodeInternal.

#[global] Instance Code_eq_dec : EqDecision Code.
Proof. solve_decision. Defined.

(** A Go [error]: a yarpc status, or any other error. *)
Inductive error : Type :=
  | Status (code : Code) (message : string)
  | Other (message : string).

(** Modelled from the spec: [handlerutil.ConvertToYARPCError] is not among
    the sources.  Section 7: the RPC boundary translates an internal error
    to a status code and message; an error that already is a status keeps
    its code. *)
Definition ConvertToYARPCError (err : error) : error :=
  match err with
  | Status c m => Status c m
  | Other m => Status CodeInternal m
  end.

(** The code an RPC surfaces, if it fails. *)
Definition surfaced {R : Type} (r : R + error) : option Code :=
  match r with
  | inr (Status c _) => Some c
  | _ => None
  end.

Section Handler.

(** The state behind the handler (stores, job cache, goal state engine) and
    what the collaborators do with it are parameters. *)
Variables (State Request Response : Type).

Record serviceHandler : Type := mkServiceHandler {
  (* candidate.IsLeader() *)
  isLeader : bool;
  world : State
}.

(** What [CreateJob] does past its leadership check. *)
Variable createJobAsLeader : Request -> State -> (Response + error) * State.

(** What [RefreshJob] does past its leadership check. *)
Variable refreshJobAsLeader : Request -> State -> (Response + error) * State.

(** What [cachedJob.PauseWorkflow] and the goal state driver do. *)
Variable pauseWorkflow : Request -> State -> (Response + error) * State.

(** The deferred function of the handlers: a failure is converted on the
    way out. *)
Definition deferred (r : (Response + error) * State) : (Response + error) * State :=
  match r.1 with
  | inr err => (inr (ConvertToYARPCError err), r.2)
  | inl resp => (inl resp, r.2)
  end.

Definition CreateJob (req : Request) (h : serviceHandler)
  : (Response + error) * State :=
  deferred
    (if negb (isLeader h)
     then (inr (Status CodeUnavailable "JobSVC.CreateJob is not supported on non-leader"),
           world h)
     else createJobAsLeader req (world h)).

Definition RefreshJob (req : Request) (h : serviceHandler)
  : (Response + error) * State :=
  deferred
    (if negb (isLeader h)
     then (inr (Status CodeUnavailable "JobSVC.RefreshJob is not supported on non-leader"),
           world h)
     else refreshJobAsLeader req (world h)).

(** [PauseJobWorkflow] goes to the job cache without a leadership check. *)
Definition PauseJobWorkflow (req : Request) (h : serviceHandler)
  : (Response + error) * State :=
  deferred (pauseWorkflow req (world h)).

End Handler.

End stateless.
(** ** Fixtures *)

Module fixtures.

Import summary offerpool poolops.

(** Modelled from the spec: the resource part of the host predicate
    (section 4.3, step 1): the unreserved offers of the host contain the
    minimum the filter asks for. *)
Definition matchResources (offerMap : gmap string mesos.Offer)
    (f : hostsvc.HostFilter) : hostsvc.HostFilterResult :=
  match hostsvc.ResourceConstraint f with
  | Some min =>
      if scalar.Contains (scalar_offer.FromOfferMap offerMap) min
      then hostsvc.MATCH else hostsvc.INSUFFICIENT_RESOURCES
  | None => hostsvc.MATCH
  end.

(** [getMesosOffer] of the pool's tests, with a cpu and memory amount. *)
Definition getMesosOffer (hostName offerID : string) (cpu mem : N) : mesos.Offer :=
  mesos.mkOffer offerID hostName (hostName +:+ "-1")
                (scalar.mkResources cpu mem 0 0 0) false.

Definition offer1 : mesos.Offer := getMesosOffer "agent1" "offer1" 10 20.
Definition offer2 : mesos.Offer := getMesosOffer "agent2" "offer2" 10 20.
Definition offer3 : mesos.Offer := getMesosOffer "agent1" "offer3" 4 8.
Definition offer4 : mesos.Offer := getMesosOffer "agent4" "offer4" 10 20.

(** The pool of [TestRemoveExpiredOffers]: hold time of one minute, four
    offers on three agents, added at time 0. *)
Definition pool4 : offerPool :=
  AddOffers 0 [offer1; offer2; offer3; offer4] (NewOfferPool 60).

(** [pool4] after [TestRemoveExpiredOffers] has adjusted the time stamps of
    offer1 and offer4 to two minutes in the past. *)
Definition pool4aged : offerPool :=
  set_timedOffers
    (<["offer1" := mkTimedOffer "agent1" (-120)]>
       (<["offer4" := mkTimedOffer "agent4" (-120)]> (timedOffers pool4))) pool4.

(** A filter asking for at most [n] hosts. *)
Definition atMost (n : Z) : hostsvc.HostFilter :=
  hostsvc.mkHostFilter None None (Some (hostsvc.mkQuantityControl n)).

(** [pool4] after a placement attempt claimed one host, agent1. *)
Definition pool4claimed : offerPool :=
  (ClaimForPlace matchResources 1 ["agent1"; "agent2"; "agent4"]
                 (Some (atMost 1)) pool4).2.

(** A day of [pool4]: the four offers arrive, a placement attempt claims
    agent1, offer3 is rescinded, agent1 is launched on, agent2 is returned
    though it was never claimed, and at time 100 the remaining offers have
    expired. *)
Definition day : list op :=
  [OpAddOffers 0 [offer1; offer2; offer3; offer4];
   OpClaimForPlace 1 ["agent1"; "agent2"; "agent4"] (Some (atMost 1));
   OpRescindOffer "offer3";
   OpClaimForLaunch "agent1" false;
   OpReturnUnusedOffers "agent2";
   OpRemoveExpiredOffers 100].

(** The same offer id delivered for two different hosts. *)
Definition twice : list op :=
  [OpAddOffers 0 [getMesosOffer "agent1" "offer1" 10 20];
   OpAddOffers 0 [getMesosOffer "agent2" "offer1" 10 20]].

(** The resources of the tasks of [TestMarkItDone], in fixed units. *)
Definition taskResources : scalar.Resources := scalar.mkResources 1 100 10 0 0.

(** The tracker of [TestMarkItDone] before the calls of [MarkItDone]: task 1
    is INITIALIZED, task 2 PENDING, task 3 READY, each in a pool of its own
    whose allocation holds the resources of the task. *)
Definition trackerOfTest : tracker.Tracker :=
  tracker.mkTracker
    {["job1-1" := tracker.mkRMTask tracker.INITIALIZED taskResources "respool-1";
      "job1-2" := tracker.mkRMTask tracker.PENDING taskResources "respool-2";
      "job1-3" := tracker.mkRMTask tracker.READY taskResources "respool-3"]}
    {["respool-1" := taskResources; "respool-2" := taskResources;
      "respool-3" := taskResources]}.

(** The one failure reason the tests of the updater retry on. *)
Definition retryLaunchFailed (reason : string) : bool :=
  bool_decide (reason = "REASON_CONTAINER_LAUNCH_FAILED").

(** The task of [TestProcessTaskFailedStatusUpdateWithRetry]: running, no
    failure so far, at most three. *)
Definition runningTask : event.TaskInfo :=
  event.mkTaskInfo "job" 0
    (event.mkRuntimeInfo (event.mkMesosTaskID "job" 0 "run-1")
       event.TaskState_RUNNING event.TaskState_SUCCEEDED "" "" 0)
    3.

Definition worldOfTest : event.World :=
  event.mkWorld {[("job", 0) := runningTask]} [].

(** The event of that test: the task failed to launch its container. *)
Definition failedEvent : event.TaskStatus :=
  event.mkTaskStatus (event.mkMesosTaskID "job" 0 "run-1") event.TaskState_FAILED
    "REASON_CONTAINER_LAUNCH_FAILED" "testFailure".

(** The job config of that test, in the pool respool-1. *)
Definition jobConfigOfTest : event.JobConfig :=
  event.mkJobConfig "job" (Some "respool-1") false 1.

(** The job store of [TestProcessTaskFailedStatusUpdateWithRetry]. *)
Definition jobStoreOfTest (jobID : string) : event.JobConfig + string :=
  inl jobConfigOfTest.

(** The job store of [TestProcessTaskFailedRetryDBFailure]. *)
Definition jobStoreDown (jobID : string) : event.JobConfig + string :=
  inr "testError".

End fixtures.

(** ** Instance ranges of the stateless job service *)

Module jobdiff.

(** [pod.InstanceIDRange]: the instances [From] to [To], both included. *)
Record InstanceIDRange : Type := mkInstanceIDRange {
  From : Z;  (* uint32 *)
  To : Z     (* uint32 *)
}.

#[global] Instance InstanceIDRange_eq_dec : EqDecision InstanceIDRange.
Proof. solve_decision. Defined.

(** The variables of the loop of [convertInstanceIDListToInstanceRange]:
    the ranges finished so far, the range under construction (nil before
    the first instance) and the previous instance id. *)
Definition rangeState : Type :=
  (list InstanceIDRange * option InstanceIDRange * Z)%type.

(** One round of the loop. *)
Definition rangeStep (st : rangeState) (instID : Z) : rangeState :=
  let '(instanceIDRange, instanceRange, prevInstID) := st in
  match instanceRange with
  | None => (instanceIDRange, Some (mkInstanceIDRange instID 0), instID)
  | Some r =>
      if bool_decide (instID <> uint32 (prevInstID + 1))
      then (instanceIDRange ++ [mkInstanceIDRange (From r) prevInstID],
            Some (mkInstanceIDRange instID 0), instID)
      else (instanceIDRange, Some r, instID)
  end.

(** [convertInstanceIDListToInstanceRange]: the ids are sorted
    ([sort.Slice] with [<] on [uint32]; any sort yields the same list) and
    cut into ranges of consecutive ids. *)
Definition convertInstanceIDListToInstanceRange (instIDs : list Z)
  : list InstanceIDRange :=
  let '(instanceIDRange, instanceRange, prevInstID) :=
    foldl rangeStep ([], None, 0) (merge_sort Z.le instIDs) in
  match instanceRange with
  | Some r => instanceIDRange ++ [mkInstanceIDRange (From r) prevInstID]
  | None => instanceIDRange
  end.

(** The ranges that the loop of [convertInstanceIDListToInstanceRange]
    finishes with, when it stands at a range begun at [from] with previous
    id [prev] and has the ids [l] to go. *)
Fixpoint runsOf (from prev : Z) (l : list Z) : list InstanceIDRange :=
  match l with
  | [] => [mkInstanceIDRange from prev]
  | a :: rest =>
      if bool_decide (a <> uint32 (prev + 1))
      then mkInstanceIDRange from prev :: runsOf a a rest
      else runsOf from a rest
  end.

(** An instance id lies in one of the ranges. *)
Definition inRanges (x : Z) (ranges : list InstanceIDRange) : Prop :=
  exists r, r ∈ ranges /\ From r <= x <= To r.

(** The ranges are in ascending order, none is empty, and between two
    successive ranges at least one id is left out; the first range starts
    above [lo]. *)
Fixpoint apart (lo : Z) (ranges : list InstanceIDRange) : Prop :=
  match ranges with
  | [] => True
  | r :: rest => lo < From r /\ From r <= To r /\ apart (To r + 1) rest
  end.

(** The number of instance ids in the ranges. *)
Definition rangesSize (ranges : list InstanceIDRange) : Z :=
  foldr (fun r n => To r - From r + 1 + n) 0 ranges.

End jobdiff.

(** ** Hosts and panics of the offer pool *)

Module poolsafety.

Import summary offerpool poolops.

(** Every entry of [timedOffers] names a host that has a summary: what the
    second loop of [RemoveExpiredOffers] relies on when it reaches
    [p.hostOfferIndex[hostName]] without a presence check. *)
Definition hostsKnown (p : offerPool) : Prop :=
  forall id t, timedOffers p !! id = Some t ->
    is_Some (hostOfferIndex p !! Hostname t).

(** A host that is PLACING beyond the expiration of that status. *)
Definition expiredPlacing (now : Z) (s : hostSummary) : Prop :=
  status s = PlacingOffer /\ statusPlacingOfferExpiration s < now.

#[global] Instance expiredPlacing_dec now s : Decision (expiredPlacing now s).
Proof. unfold expiredPlacing. apply _. Defined.

(** The unreserved amount of the hosts of a list that are PLACING beyond
    their expiration. *)
Definition resetAmount (now : Z) (l : list (string * hostSummary)) : scalar.Resources :=
  foldr (fun e acc => if decide (expiredPlacing now e.2)
                      then scalar.Add (UnreservedAmount e.2) acc else acc)
        scalar.zero l.

(** The status under which [AddOffers] counts an offer: that of its host,
    READY for a host that has no summary yet. *)
Definition statusOf (p : offerPool) (hostname : string) : CacheStatus :=
  status (default New (hostOfferIndex p !! hostname)).

End poolsafety.

(** ** Job creation in the stateless job service *)

Module jobcreate.

Import stateless.

(** [mesos.ContainerInfo_Type]. *)
Inductive ContainerInfo_Type : Type :=
  | ContainerInfo_DOCKER
  | ContainerInfo_MESOS.

#[global] Instance ContainerInfo_Type_eq_dec : EqDecision ContainerInfo_Type.
Proof. solve_decision. Defined.

(** [String()] of a container type. *)
Definition ContainerInfo_Type_name (t : ContainerInfo_Type) : string :=
  match t with
  | ContainerInfo_DOCKER => "DOCKER"
  | ContainerInfo_MESOS => "MESOS"
  end.

(** [v1alphapeloton.Secret], with [GetSecretId().GetValue()] for its id. *)
Record V1Secret : Type := mkV1Secret {
  V1SecretId : string;
  V1Path : string;
  V1Data : string
}.

(** [peloton.Secret], with [GetId().GetValue()] for its id. *)
Record Secret : Type := mkSecret {
  SecretId : string;
  SecretPath : string;
  SecretData : string
}.

#[global] Instance Secret_eq_dec : EqDecision Secret.
Proof. solve_decision. Defined.

(** [respool.ResourcePoolInfo] as this handler reads it. *)
Record ResourcePoolInfo : Type := mkResourcePoolInfo {
  PoolId : option string;
  PoolChildren : list string;
  PoolPath : option string
}.

(** [respool.GetResponse]. *)
Record GetResponse : Type := mkGetResponse {
  Poolinfo : option ResourcePoolInfo
}.

(** The packages that the handler calls and that are not among the
    sources: message types it passes on, [uuid], [base64], [pkg/errors],
    [handlerutil], [jobconfig], [jobutil] and [util].  Each is a
    parameter. *)
Class Library : Type := mkLibrary {
  Volume : Type;           (* mesos.Volume *)
  ContainerRest : Type;    (* the fields of a container spec not read here *)
  SpecRest : Type;         (* the fields of a job spec not read here *)
  JobConfig : Type;        (* pbjob.JobConfig *)
  Label : Type;            (* peloton.Label *)
  (* GetType() and GetRespoolID() of a job config; the type is a proto enum *)
  JobConfig_Type : JobConfig -> Z;
  JobConfig_RespoolID : JobConfig -> option string;
  RuntimeInfo : Type;      (* pbjob.RuntimeInfo *)
  EntityVersion : Type;    (* v1alphapeloton.EntityVersion *)
  (* the uuid that the n-th call of uuid.New() draws *)
  uuid_New : nat -> string;
  (* uuid.Parse(s) != nil *)
  uuid_Parse : string -> bool;
  (* the error of base64.StdEncoding.DecodeString, as text *)
  base64_DecodeString : string -> option string;
  (* errors.Wrap *)
  Wrap : error -> string -> error;
  (* common.RootResPoolID *)
  RootResPoolID : string;
  ConvertV1SecretsToV0Secrets : list V1Secret -> list Secret;
  CreateSecretVolume : string -> string -> Volume;
  (* util.ConfigHasSecretVolumes(config.GetDefaultConfig()) *)
  ConfigHasSecretVolumes : JobConfig -> bool;
  ValidateConfig : JobConfig -> Z -> option error;
  ConstructSystemLabels : JobConfig -> string -> list Label;
  GetConfigurationVersion : RuntimeInfo -> Z;
  GetWorkflowVersion : RuntimeInfo -> Z;
  GetJobEntityVersion : Z -> Z -> EntityVersion
}.

Section Messages.

Context `{Library}.

(** [mesos.ContainerInfo] as this handler reads and writes it. *)
Record ContainerInfo : Type := mkContainerInfo {
  Type_ : ContainerInfo_Type;
  Volumes : list Volume
}.

(** A container of the default pod spec; [Container] is a pointer and may
    be nil. *)
Record ContainerSpec : Type := mkContainerSpec {
  Container : option ContainerInfo;
  containerRest : ContainerRest
}.

(** [stateless.JobSpec]: the pool id (a pointer), the containers of
    [GetDefaultSpec()], and the rest. *)
Record JobSpec : Type := mkJobSpec {
  RespoolId : option string;
  Containers : list ContainerSpec;
  specRest : SpecRest
}.

(** [svc.CreateJobRequest]; [JobId] is [GetJobId().GetValue()], and
    [Spec] is a pointer. *)
Record CreateJobRequest : Type := mkCreateJobRequest {
  JobId : string;
  Spec : option JobSpec;
  Secrets : list V1Secret
}.

Record CreateJobResponse : Type := mkCreateJobResponse {
  RespJobId : string;
  RespVersion : EntityVersion
}.

(** [models.ConfigAddOn]. *)
Record ConfigAddOn : Type := mkConfigAddOn {
  SystemLabels : list Label
}.

(** [GetType()] of a container: the getter of a nil [ContainerInfo] gives
    the first value of the enum. *)
Definition GetType (c : ContainerSpec) : ContainerInfo_Type :=
  match Container c with
  | Some info => Type_ info
  | None => ContainerInfo_DOCKER
  end.

End Messages.

(** The collaborators of the handler, each an interface in the source.
    A call returns its result and the state of the collaborator after
    it. *)

(** [storage.SecretStore] over a store state [S]. *)
Class SecretStore (S : Type) : Type := mkSecretStore {
  CreateSecret : Secret -> string -> S -> option error * S;
  UpdateSecret : Secret -> S -> option error * S
}.

(** [cached.JobFactory] with the cached jobs it hands out, over a cache
    state [C]; a cached job is named by its job id. *)
Class JobFactory `{Library} (C : Type) : Type := mkJobFactory {
  AddJob : string -> C -> C;
  Create : string -> JobConfig -> ConfigAddOn -> string -> C -> option error * C;
  GetRuntime : string -> C -> (RuntimeInfo + error) * C
}.

Section Handler.

Context `{Library} {S C : Type} `{!SecretStore S} `{!JobFactory C}.

(** [respoolClient.GetResourcePool], by the value of the requested id. *)
Variable GetResourcePool : string -> GetResponse + error.

(** [handlerutil.ConvertJobSpecToJobConfig]. *)
Variable ConvertJobSpecToJobConfig : JobSpec -> JobConfig + error.

(** The job config as it stands after the containers of the spec it was
    converted from were given their secret volumes: whether the config
    shares the container messages of the spec is decided by the
    conversion. *)
Variable afterSecrets : JobSpec -> JobConfig -> JobConfig.

(** [h.jobSvcCfg]. *)
Variables (EnableSecrets : bool) (MaxTasksPerJob : Z).

Definition errNullResourcePoolID : error :=
  Status CodeInvalidArgument "resource pool ID is null".
Definition errResourcePoolNotFound : error :=
  Status CodeNotFound "resource pool not found".
Definition errRootResourcePoolID : error :=
  Status CodeInvalidArgument "cannot submit jobs to the `root` resource pool".
Definition errNonLeafResourcePool : error :=
  Status CodeInvalidArgument "cannot submit jobs to a non leaf resource pool".

(** The state behind the handler that [CreateJob] reaches. *)
Record World : Type := mkWorld {
  secretStore : S;
  (* the job factory, its cached jobs and the store behind them *)
  jobCache : C;
  (* the calls of goalStateDriver.EnqueueJob, oldest first *)
  enqueuedJobs : list (string * Z);
  (* the number of calls of uuid.New() so far *)
  drawn : nat
}.

(** [validateResourcePoolForJobCreation] validates the resource pool
    before submitting job; it returns the path of the pool. *)
Definition validateResourcePoolForJobCreation (respoolID : option string)
  : option string + error :=
  match respoolID with
  | None => inr errNullResourcePoolID
  | Some value =>
      if decide (value = RootResPoolID) then inr errRootResourcePoolID
      else
        match GetResourcePool value with
        | inr err => inr err
        | inl response =>
            let id := Poolinfo response ≫= PoolId in
            if bool_decide (id = None) || bool_decide (default "" id <> value)
            then inr errResourcePoolNotFound
            else if bool_decide (0 < length (default [] (PoolChildren <$> Poolinfo response)))%nat
            then inr errNonLeafResourcePool
            else inl (Poolinfo response ≫= PoolPath)
        end
  end.

(** [validateJobConfigUpdate]: the job type is immutable, and so is the
    resource pool identifier; [GetValue()] of a nil identifier is the empty
    string. *)
Definition validateJobConfigUpdate (prevJobConfig newJobConfig : JobConfig)
  : option error :=
  if bool_decide (JobConfig_Type newJobConfig <> JobConfig_Type prevJobConfig)
  then Some (Status CodeInvalidArgument "job type is immutable")
  else if bool_decide (default "" (JobConfig_RespoolID newJobConfig) <>
                       default "" (JobConfig_RespoolID prevJobConfig))
  then Some (Status CodeInvalidArgument "resource pool identifier is immutable")
  else None.

(** The loop over the secrets of [validateSecretsAndConfig]. *)
Fixpoint checkSecrets (secrets : list V1Secret) : option error :=
  match secrets with
  | [] => None
  | secret :: rest =>
      if decide (V1Path secret = "")
      then Some (Status CodeInvalidArgument "secret does not have a path")
      else
        match base64_DecodeString (V1Data secret) with
        | Some err =>
            Some (Status CodeInvalidArgument
                    ("failed to decode secret with error: " +:+ err))
        | None => checkSecrets rest
        end
  end.

(** [validateSecretsAndConfig] checks the secrets for input sanity and
    makes sure that config does not contain any existing secret volumes. *)
Definition validateSecretsAndConfig (spec : JobSpec) (secrets : list V1Secret)
  : option error :=
  if bool_decide (length secrets = 0%nat) then None
  else
    match ConvertJobSpecToJobConfig spec with
    | inr err => Some err
    | inl config =>
        if ConfigHasSecretVolumes config
        then Some (Status CodeInvalidArgument
                     "adding secret volumes directly in config is not allowed")
        else if negb EnableSecrets && bool_decide (0 < length secrets)%nat
        then Some (Status CodeInvalidArgument "secrets not enabled in cluster")
        else checkSecrets secrets
    end.

(** [validateMesosContainerizerForSecrets] returns error if default
    config doesn't use mesos containerizer.  The message names the type
    of the first container. *)
Definition validateMesosContainerizerForSecrets (jobSpec : JobSpec)
  : option error :=
  if forallb (fun container => bool_decide (GetType container = ContainerInfo_MESOS))
             (Containers jobSpec)
  then None
  else Some (Status CodeInvalidArgument
               ("container type " +:+
                ContainerInfo_Type_name
                  (default ContainerInfo_DOCKER (GetType <$> head (Containers jobSpec))) +:+
                " does not match " +:+ ContainerInfo_Type_name ContainerInfo_MESOS)).

(** The inner loop of [addSecretsToDBAndConfig]: the volume is appended to
    the volumes of every container of the default spec.  The assignment
    goes through [container.GetContainer()], so a container whose
    [ContainerInfo] is nil is a nil dereference ([None]). *)
Fixpoint addVolume (volume : Volume) (containers : list ContainerSpec)
  : option (list ContainerSpec) :=
  match containers with
  | [] => Some []
  | container :: rest =>
      info ← Container container;
      rest' ← addVolume volume rest;
      Some (mkContainerSpec
              (Some (mkContainerInfo (Type_ info) (Volumes info ++ [volume])))
              (containerRest container) :: rest')
  end.

(** The loop of [addSecretsToDBAndConfig] over the converted secrets. *)
Fixpoint addSecrets (jobID : string) (update : bool) (secrets : list Secret)
    (jobSpec : JobSpec) (store : S) (n : nat)
  : option (option error * JobSpec * S * nat) :=
  match secrets with
  | [] => Some (None, jobSpec, store, n)
  | secret :: rest =>
      let '(secret, n) :=
        if decide (SecretId secret = "")
        then (mkSecret (uuid_New n) (SecretPath secret) (SecretData secret), Datatypes.S n)
        else (secret, n) in
      let '(err, store) :=
        if update then UpdateSecret secret store
        else CreateSecret secret jobID store in
      match err with
      | Some e => Some (Some e, jobSpec, store, n)
      | None =>
          containers ←
            addVolume (CreateSecretVolume (SecretPath secret) (SecretId secret))
                      (Containers jobSpec);
          addSecrets jobID update rest
            (mkJobSpec (RespoolId jobSpec) containers (specRest jobSpec)) store n
      end
  end.

(** [addSecretsToDBAndConfig]: for each secret, store it in DB and add a
    secret volume to defaultconfig.  The result is the error, the spec as
    the loop left it, the store and the number of uuids drawn; [None] when
    it panics. *)
Definition addSecretsToDBAndConfig (jobID : string) (jobSpec : JobSpec)
    (secrets : list V1Secret) (update : bool) (store : S) (n : nat)
  : option (option error * JobSpec * S * nat) :=
  addSecrets jobID update (ConvertV1SecretsToV0Secrets secrets) jobSpec store n.

(** [handleCreateSecrets] handles secrets to be added at the time of
    creating a job. *)
Definition handleCreateSecrets (jobID : string) (spec : JobSpec)
    (secrets : list V1Secret) (store : S) (n : nat)
  : option (option error * JobSpec * S * nat) :=
  if bool_decide (length secrets = 0%nat) then Some (None, spec, store, n)
  else
    match validateMesosContainerizerForSecrets spec with
    | Some err => Some (Some err, spec, store, n)
    | None => addSecretsToDBAndConfig jobID spec secrets false store n
    end.

(** The secrets of a request as [addSecretsToDBAndConfig] stores them:
    one without an id gets the next uuid. *)
Fixpoint assignIds (n : nat) (secrets : list Secret) : list Secret :=
  match secrets with
  | [] => []
  | secret :: rest =>
      if decide (SecretId secret = "")
      then mkSecret (uuid_New n) (SecretPath secret) (SecretData secret)
             :: assignIds (Datatypes.S n) rest
      else secret :: assignIds n rest
  end.

(** The secret volume of each secret, made of its path and its id. *)
Definition secretVolumes (secrets : list Secret) : list Volume :=
  (fun secret => CreateSecretVolume (SecretPath secret) (SecretId secret)) <$> secrets.

(** One call of the secret store, as [addSecretsToDBAndConfig] makes it. *)
Definition storeSecret (jobID : string) (update : bool) (secret : Secret)
    (store : S) : option error * S :=
  if update then UpdateSecret secret store else CreateSecret secret jobID store.

(** The secret store after it has taken the secrets of a list, in order. *)
Definition storedAll (jobID : string) (update : bool) (store : S)
    (secrets : list Secret) : S :=
  foldl (fun store secret => (storeSecret jobID update secret store).2) store secrets.

(** A container with more volumes at the end of its own. *)
Definition withVolumes (volumes : list Volume) (container : ContainerSpec)
  : ContainerSpec :=
  match Container container with
  | Some info =>
      mkContainerSpec (Some (mkContainerInfo (Type_ info) (Volumes info ++ volumes)))
                      (containerRest container)
  | None => container
  end.

(** What [CreateJob] does past its leadership check, at time [now]; the
    result is [None] when it panics.  A request without a spec has no pool
    id, which [validateResourcePoolForJobCreation] refuses first. *)
Definition createJobAsLeader (now : Z) (req : CreateJobRequest) (w : World)
  : option ((CreateJobResponse + error) * World) :=
  let '(pelotonJobID, n) :=
    if bool_decide (String.length (JobId req) = 0%nat)
    then (uuid_New (drawn w), Datatypes.S (drawn w))
    else (JobId req, drawn w) in
  let w := mkWorld (secretStore w) (jobCache w) (enqueuedJobs w) n in
  if negb (uuid_Parse pelotonJobID)
  then Some (inr (Status CodeInvalidArgument "jobID is not valid UUID"), w)
  else
    match validateResourcePoolForJobCreation (Spec req ≫= RespoolId), Spec req with
    | inr err, _ => Some (inr (Wrap err "failed to validate resource pool"), w)
    | inl _, None =>
        Some (inr (Wrap errNullResourcePoolID "failed to validate resource pool"), w)
    | inl respoolPath, Some jobSpec =>
        match ConvertJobSpecToJobConfig jobSpec with
        | inr err => Some (inr err, w)
        | inl jobConfig =>
            match ValidateConfig jobConfig MaxTasksPerJob with
            | Some err => Some (inr (Wrap err "invalid JobSpec"), w)
            | None =>
                match validateSecretsAndConfig jobSpec (Secrets req) with
                | Some err =>
                    Some (inr (Wrap err "input cannot contain secret volume"), w)
                | None =>
                    '(err, jobSpec, store, n) ←
                      handleCreateSecrets pelotonJobID jobSpec (Secrets req)
                                          (secretStore w) (drawn w);
                    let w := mkWorld store (jobCache w) (enqueuedJobs w) n in
                    match err with
                    | Some err =>
                        Some (inr (Wrap err "failed to handle create-secrets"), w)
                    | None =>
                        let jobConfig := afterSecrets jobSpec jobConfig in
                        let cache := AddJob pelotonJobID (jobCache w) in
                        let systemLabels :=
                          ConstructSystemLabels jobConfig (default "" respoolPath) in
                        let configAddOn := mkConfigAddOn systemLabels in
                        let '(err, cache) :=
                          Create pelotonJobID jobConfig configAddOn "peloton" cache in
                        let queue := enqueuedJobs w ++ [(pelotonJobID, now)] in
                        match err with
                        | Some err => Some (inr err, mkWorld store cache queue n)
                        | None =>
                            let '(runtimeInfo, cache) := GetRuntime pelotonJobID cache in
                            let w := mkWorld store cache queue n in
                            match runtimeInfo with
                            | inr err =>
                                Some (inr (Wrap err "failed to get job runtime from cache"), w)
                            | inl runtimeInfo =>
                                Some (inl (mkCreateJobResponse pelotonJobID
                                             (GetJobEntityVersion
                                                (GetConfigurationVersion runtimeInfo)
                                                (GetWorkflowVersion runtimeInfo))), w)
                            end
                        end
                    end
                end
            end
        end
    end.

End Handler.

End jobcreate.

(** ** Fixtures of the job service *)

Module jobfixtures.

Import stateless jobcreate.

(** A library for the examples: a volume is its path and secret id, a job
    config is its type and pool id, every string but one parses as a
    uuid, and every string decodes as base64. *)
Definition testLibrary : Library :=
  {| Volume := string * string;
     ContainerRest := unit;
     SpecRest := unit;
     JobConfig := Z * option string;
     Label := string * string;
     JobConfig_Type := fst;
     JobConfig_RespoolID := snd;
     RuntimeInfo := Z * Z;
     EntityVersion := Z * Z;
     uuid_New := fun n => match n with
                          | O => "uuid-0"
                          | 1%nat => "uuid-1"
                          | _ => "uuid-2"
                          end;
     uuid_Parse := fun s => bool_decide (s <> "not-a-uuid");
     base64_DecodeString := fun _ => None;
     Wrap := fun err message =>
               match err with
               | Status _ m | Other m => Other (message +:+ ": " +:+ m)
               end;
     RootResPoolID := "root";
     ConvertV1SecretsToV0Secrets :=
       fmap (fun s => mkSecret (V1SecretId s) (V1Path s) (V1Data s));
     CreateSecretVolume := pair;
     ConfigHasSecretVolumes := fun _ => false;
     ValidateConfig := fun _ _ => None;
     ConstructSystemLabels := fun _ path => [("peloton.resource_pool", path)];
     GetConfigurationVersion := fst;
     GetWorkflowVersion := snd;
     GetJobEntityVersion := pair |}.

(** A secret store that keeps the secrets in a list and refuses the one
    whose path is the string denied. *)
Definition testSecretStore : SecretStore (list Secret) :=
  {| CreateSecret := fun secret _ store =>
       if decide (SecretPath secret = "denied")
       then (Some (Other "secret store is down"), store)
       else (None, store ++ [secret]);
     UpdateSecret := fun secret store => (None, store ++ [secret]) |}.

(** A job cache that keeps the ids of the jobs added and of the jobs
    created; the creation of a job fails when it exists already. *)
Definition testJobFactory : @JobFactory testLibrary (list string * list string) :=
  {| AddJob := fun id cache => (cache.1 ++ [id], cache.2);
     Create := fun id _ _ _ cache =>
       if decide (id ∈ cache.2)
       then (Some (Status CodeAlreadyExists "job already exists"), cache)
       else (None, (cache.1, cache.2 ++ [id]));
     GetRuntime := fun id cache =>
       (inl (1, 1) : @RuntimeInfo testLibrary + error, cache) |}.

(** A resource manager with one leaf pool under the root. *)
Definition testGetResourcePool (value : string) : GetResponse + error :=
  if decide (value = "respool-1")
  then inl (mkGetResponse
              (Some (mkResourcePoolInfo (Some "respool-1") [] (Some "/respool-1"))))
  else inl (mkGetResponse None).

(** A spec for that pool with one Mesos container that has a volume. *)
Definition testSpec : @JobSpec testLibrary :=
  @mkJobSpec testLibrary (Some "respool-1")
    [@mkContainerSpec testLibrary
       (Some (@mkContainerInfo testLibrary ContainerInfo_MESOS [("/data", "")])) tt]
    tt.

Definition testSecrets : list V1Secret :=
  [mkV1Secret "" "/tmp/secret1" "c2VjcmV0"; mkV1Secret "secret-2" "/tmp/secret2" "c2VjcmV0"].

(** [testSpec] with the secret volumes of [testSecrets], the first under
    the first uuid. *)
Definition testSpecWithSecrets : @JobSpec testLibrary :=
  @mkJobSpec testLibrary (Some "respool-1")
    [@mkContainerSpec testLibrary
       (Some (@mkContainerInfo testLibrary ContainerInfo_MESOS
                [("/data", ""); ("/tmp/secret1", "uuid-0"); ("/tmp/secret2", "secret-2")]))
       tt]
    tt.

(** [testSecrets] as they are stored. *)
Definition testStored : list Secret :=
  [mkSecret "uuid-0" "/tmp/secret1" "c2VjcmV0"; mkSecret "secret-2" "/tmp/secret2" "c2VjcmV0"].

Definition testRequest : @CreateJobRequest testLibrary :=
  @mkCreateJobRequest testLibrary "" (Some testSpec) testSecrets.

Definition testWorld : @World (list Secret) (list string * list string) :=
  mkWorld [] ([], ["uuid-0"]) [] 0.

End jobfixtures.

(** ** Offers service of the placement engine *)

Module offersvc.

Definition _failedToAcquireHostOffers : string := "Failed to acquire host offers".
Definition _failedToFetchTasksOnHosts : string := "Failed to fetch tasks on hosts".

Section Service.

(** The messages that the service passes on, the state of the host
    manager ([HM]) and of the resource manager ([RM]) behind their
    clients. *)
Context {HostOffer Task HostFilter TaskType RespError HM RM : Type}.

(** [hostOffer.Hostname]. *)
Variable Hostname : HostOffer -> string.

(** [hostsvc.AcquireHostOffersResponse]. *)
Record AcquireHostOffersResponse : Type := mkAcquireHostOffersResponse {
  AcquireError : option RespError;
  HostOffers : list HostOffer;
  FilterResultCounts : gmap string Z
}.

(** [hostsvc.ReleaseHostOffersResponse]. *)
Record ReleaseHostOffersResponse : Type := mkReleaseHostOffersResponse {
  ReleaseError : option RespError
}.

(** [resmgrsvc.TaskList]. *)
Record TaskList : Type := mkTaskList {
  Tasks : list Task
}.

(** [models.Host] is not among the sources: a host of the placement
    engine is taken as the three values [models.NewHost] is given, and
    [GetOffer] returns the first. *)
Record Host : Type := NewHost {
  GetOffer : HostOffer;
  GetTasks : list Task;
  Claimed : Z
}.

(** The clients: a call returns the response or the error, as text, and
    the state of the service called after it. *)
Variable AcquireHostOffers :
  option HostFilter -> HM -> (AcquireHostOffersResponse + string) * HM.
Variable ReleaseHostOffers :
  list HostOffer -> HM -> (ReleaseHostOffersResponse + string) * HM.
(** The response of [GetTasksByHosts] is its [HostTasksMap], which may be
    nil and may hold nil task lists. *)
Variable GetTasksByHosts :
  TaskType -> list string -> RM ->
  (option (gmap string (option TaskList)) + string) * RM.

(** [respErr.String()] and [json.Marshal] of the filter result counts. *)
Variable RespError_String : RespError -> string.
Variable json_Marshal : gmap string Z -> string.

Record service : Type := mkService {
  hostManager : HM;
  resourceManager : RM;
  (* metrics.OfferGetFail *)
  OfferGetFail : Z
}.

(** [fetchOffers]: the host offers, the filter result counts and the
    error. *)
Definition fetchOffers (filter : option HostFilter) (s : service)
  : (list HostOffer * gmap string Z * option string) * service :=
  let '(offersResponse, hm) := AcquireHostOffers filter (hostManager s) in
  let s := mkService hm (resourceManager s) (OfferGetFail s) in
  match offersResponse with
  | inr err => (([], ∅, Some err), s)
  | inl offersResponse =>
      match AcquireError offersResponse with
      | Some respErr => (([], ∅, Some (RespError_String respErr)), s)
      | None =>
          ((HostOffers offersResponse, FilterResultCounts offersResponse, None), s)
      end
  end.

(** [fetchTasks]: the tasks running on the hosts of the offers, by
    hostname. *)
Definition fetchTasks (hostOffers : list HostOffer) (taskType : TaskType)
    (s : service)
  : (option (gmap string (option TaskList)) * option string) * service :=
  let hostnames := Hostname <$> hostOffers in
  let '(tasksResponse, rm) := GetTasksByHosts taskType hostnames (resourceManager s) in
  let s := mkService (hostManager s) rm (OfferGetFail s) in
  match tasksResponse with
  | inr err => ((None, Some err), s)
  | inl hostTasksMap => ((hostTasksMap, None), s)
  end.

(** [convertOffers]: one host of the placement engine for each host
    offer, with the tasks of its hostname. *)
Definition convertOffers (hostOffers : list HostOffer)
    (tasks : option (gmap string (option TaskList))) (now : Z) : list Host :=
  (fun hostOffer =>
     let taskList :=
       match tasks with
       | Some tasks =>
           match tasks !! Hostname hostOffer with
           | Some (Some taskList) => Tasks taskList
           | _ => []
           end
       | None => []
       end in
     NewHost hostOffer taskList now) <$> hostOffers.

(** [Acquire] fetches a batch of offers from the host service; the result
    is the offers and the reason. *)
Definition Acquire (fetchTasks_ : bool) (taskType : TaskType)
    (filter : option HostFilter) (now : Z) (s : service)
  : (list Host * string) * service :=
  let '((hostOffers, filterResults, err), s) := fetchOffers filter s in
  match err with
  | Some _ =>
      (([], _failedToAcquireHostOffers),
       mkService (hostManager s) (resourceManager s) (OfferGetFail s + 1))
  | None =>
      let '((hostTasksMap, err), s) :=
        if fetchTasks_ && bool_decide (0 < length hostOffers)%nat
        then fetchTasks hostOffers taskType s
        else ((None, None), s) in
      match err with
      | Some _ =>
          (([], _failedToFetchTasksOnHosts),
           mkService (hostManager s) (resourceManager s) (OfferGetFail s + 1))
      | None =>
          ((convertOffers hostOffers hostTasksMap now, json_Marshal filterResults), s)
      end
  end.

(** [Release] will return the given offers to the host service; what the
    host service answers is logged only. *)
Definition Release (hosts : list Host) (s : service) : service :=
  if bool_decide (length hosts = 0%nat) then s
  else
    let hostOffers := GetOffer <$> hosts in
    let '(_, hm) := ReleaseHostOffers hostOffers (hostManager s) in
    mkService hm (resourceManager s) (OfferGetFail s).

End Service.

End offersvc.

(** ** Fixtures of the offers service *)

Module offersfixtures.

Import offersvc.

(** A host offer is its hostname, a task its name; the host manager keeps
    the batches of host offers released to it, the resource manager the
    number of calls it got. *)
Definition testAcquireHostOffers (filter : option unit) (hm : list (list string))
  : (@AcquireHostOffersResponse string string + string) * list (list string) :=
  (inl (mkAcquireHostOffersResponse (RespError := string) None ["agent1"; "agent2"]
          {["MATCH" := 2]}), hm).

Definition testReleaseHostOffers (hostOffers : list string) (hm : list (list string))
  : (@ReleaseHostOffersResponse string + string) * list (list string) :=
  (inl (mkReleaseHostOffersResponse None), hm ++ [hostOffers]).

(** A resource manager that knows one task on agent1. *)
Definition testGetTasksByHosts (taskType : unit) (hostnames : list string) (rm : nat)
  : (option (gmap string (option (@TaskList string))) + string) * nat :=
  (inl (Some {["agent1" := Some (mkTaskList ["task-1"])]}), Datatypes.S rm).

(** A resource manager that is down. *)
Definition downGetTasksByHosts (taskType : unit) (hostnames : list string) (rm : nat)
  : (option (gmap string (option (@TaskList string))) + string) * nat :=
  (inr "resource manager is down", Datatypes.S rm).

Definition testMarshal (counts : gmap string Z) : string := "{MATCH:2}".

Definition testService : @service (list (list string)) nat := mkService [] 0%nat 0.

End offersfixtures.

(** ** Task manager of the job manager *)

Module taskmgr.

Section Handler.

(** The messages that the handler passes on: job ids, job configs, task
    infos and instance ranges. *)
Context {JobID JobConfig TaskInfo InstanceRange : Type}.

(** [jobConfig.InstanceCount]. *)
Variable InstanceCount : JobConfig -> Z.

(** The stores; a call returns its value and its error, as text, and
    either may be nil. *)
Variable GetJob : JobID -> option JobConfig * option string.
Variable GetTaskForJob : JobID -> Z -> gmap Z TaskInfo * option string.
Variable GetTasksForJob : JobID -> gmap Z TaskInfo * option string.
Variable GetTasksForJobByRange : JobID -> InstanceRange -> gmap Z TaskInfo * option string.

(** The three messages that [fmt.Sprintf] builds. *)
Variable jobNotFound : JobID -> option string -> string.
Variable failedToFindJob : JobID -> option string -> string.
Variable errIs : option string -> string.

Record GetRequest : Type := mkGetRequest {
  GetJobId : JobID;
  GetInstanceId : Z  (* uint32 *)
}.

Record ListRequest : Type := mkListRequest {
  ListJobId : JobID;
  ListRange : option InstanceRange
}.

(** [job.JobNotFound]. *)
Record JobNotFound : Type := mkJobNotFound {
  NotFoundId : JobID;
  NotFoundMessage : string
}.

(** [task.InstanceIdOutOfRange]. *)
Record InstanceIdOutOfRange : Type := mkInstanceIdOutOfRange {
  OutOfRangeJobId : JobID;
  OutOfRangeInstanceCount : Z
}.

(** [task.GetResponse]: three pointers. *)
Record GetResponse : Type := mkGetResponse {
  GetResult : option TaskInfo;
  GetNotFound : option JobNotFound;
  GetOutOfRange : option InstanceIdOutOfRange
}.

(** [task.ListResponse]: two pointers. *)
Record ListResponse : Type := mkListResponse {
  ListResult : option (gmap Z TaskInfo);
  ListNotFound : option JobNotFound
}.

(** The counters of [jobmgr.Metrics] that [Get] and [List] raise. *)
Record Metrics : Type := mkMetrics {
  TaskAPIGet : Z;
  TaskGet : Z;
  TaskGetFail : Z;
  TaskAPIList : Z;
  TaskList : Z;
  TaskListFail : Z
}.

(** [Get]: the response, the error and the metrics.  The loop over the
    result returns in its first round; the round that a range statement
    starts with is the first entry of [map_to_list]. *)
Definition Get (body : GetRequest) (m : Metrics)
  : (GetResponse * option string) * Metrics :=
  let m := mkMetrics (TaskAPIGet m + 1) (TaskGet m) (TaskGetFail m)
                     (TaskAPIList m) (TaskList m) (TaskListFail m) in
  let '(jobConfig, err) := GetJob (GetJobId body) in
  match err, jobConfig with
  | None, Some jobConfig =>
      let '(result, err) := GetTaskForJob (GetJobId body) (GetInstanceId body) in
      match map_to_list result with
      | (_, taskInfo) :: _ =>
          ((mkGetResponse (Some taskInfo) None None, None),
           mkMetrics (TaskAPIGet m) (TaskGet m + 1) (TaskGetFail m)
                     (TaskAPIList m) (TaskList m) (TaskListFail m))
      | [] =>
          ((mkGetResponse None None
              (Some (mkInstanceIdOutOfRange (GetJobId body) (InstanceCount jobConfig))),
            None),
           mkMetrics (TaskAPIGet m) (TaskGet m) (TaskGetFail m + 1)
                     (TaskAPIList m) (TaskList m) (TaskListFail m))
      end
  | _, _ =>
      ((mkGetResponse None
          (Some (mkJobNotFound (GetJobId body) (jobNotFound (GetJobId body) err)))
          None, None), m)
  end.

(** [List]: the response, the error and the metrics. *)
Definition List (body : ListRequest) (m : Metrics)
  : (ListResponse * option string) * Metrics :=
  let m := mkMetrics (TaskAPIGet m) (TaskGet m) (TaskGetFail m)
                     (TaskAPIList m + 1) (TaskList m) (TaskListFail m) in
  let '(_, err) := GetJob (ListJobId body) in
  match err with
  | Some _ =>
      ((mkListResponse None
          (Some (mkJobNotFound (ListJobId body) (failedToFindJob (ListJobId body) err))),
        None),
       mkMetrics (TaskAPIGet m) (TaskGet m) (TaskGetFail m)
                 (TaskAPIList m) (TaskList m) (TaskListFail m + 1))
  | None =>
      let '(result, err) :=
        match ListRange body with
        | None => GetTasksForJob (ListJobId body)
        | Some range => GetTasksForJobByRange (ListJobId body) range
        end in
      if bool_decide (err <> None) || bool_decide (size result = 0%nat)
      then
        ((mkListResponse None (Some (mkJobNotFound (ListJobId body) (errIs err))), None),
         mkMetrics (TaskAPIGet m) (TaskGet m) (TaskGetFail m)
                   (TaskAPIList m) (TaskList m) (TaskListFail m + 1))
      else
        ((mkListResponse (Some result) None, None),
         mkMetrics (TaskAPIGet m) (TaskGet m) (TaskGetFail m)
                   (TaskAPIList m) (TaskList m + 1) (TaskListFail m))
  end.

End Handler.

End taskmgr.

(** * Properties *)

Import summary offerpool poolops.

(** ** Scalar arithmetic *)

Lemma Resources_eq (a b : scalar.Resources) :
  scalar.CPU a = scalar.CPU b -> scalar.Mem a = scalar.Mem b ->
  scalar.Disk a = scalar.Disk b -> scalar.GPU a = scalar.GPU b ->
  scalar.Ports a = scalar.Ports b -> a = b.
Proof. destruct a, b; simpl; congruence. Qed.

Ltac scalar_arith :=
  intros; apply Resources_eq; simpl; lia.

Lemma Add_zero_r r : scalar.Add r scalar.zero = r.
Proof. scalar_arith. Qed.

Lemma Add_zero_l r : scalar.Add scalar.zero r = r.
Proof. scalar_arith. Qed.

Lemma Add_comm a b : scalar.Add a b = scalar.Add b a.
Proof. scalar_arith. Qed.

Lemma Add_assoc a b c : scalar.Add a (scalar.Add b c) = scalar.Add (scalar.Add a b) c.
Proof. scalar_arith. Qed.

Lemma Subtract_zero_r r : scalar.Subtract r scalar.zero = r.
Proof. scalar_arith. Qed.

Lemma Subtract_Add_cancel r d : scalar.Subtract (scalar.Add r d) d = r.
Proof. scalar_arith. Qed.

Lemma Subtract_Subtract r a b :
  scalar.Subtract (scalar.Subtract r a) b = scalar.Subtract r (scalar.Add a b).
Proof. scalar_arith. Qed.

Lemma Contains_spec r d :
  scalar.Contains r d = true <->
  (scalar.CPU d <= scalar.CPU r /\ scalar.Mem d <= scalar.Mem r /\
   scalar.Disk d <= scalar.Disk r /\ scalar.GPU d <= scalar.GPU r /\
   scalar.Ports d <= scalar.Ports r)%N.
Proof.
  unfold scalar.Contains. rewrite !andb_true_iff, !N.leb_le. tauto.
Qed.

Lemma Add_Subtract_cancel r d :
  scalar.Contains r d = true -> scalar.Add (scalar.Subtract r d) d = r.
Proof.
  rewrite Contains_spec. intros (?&?&?&?&?). apply Resources_eq; simpl; lia.
Qed.

(** ** Totals of offers *)

Lemma FromOffers_foldl acc l :
  foldl (fun delta offer => scalar.Add delta (scalar_offer.FromOffer offer)) acc l =
  scalar.Add acc (scalar_offer.FromOffers l).
Proof.
  unfold scalar_offer.FromOffers. revert acc.
  induction l as [|o l IH]; intros acc; simpl.
  - by rewrite Add_zero_r.
  - rewrite IH, (IH (scalar.Add scalar.zero _)), Add_zero_l, Add_assoc. done.
Qed.

Lemma FromOffers_cons o l :
  scalar_offer.FromOffers (o :: l) =
  scalar.Add (scalar_offer.FromOffer o) (scalar_offer.FromOffers l).
Proof.
  unfold scalar_offer.FromOffers at 1. simpl.
  by rewrite FromOffers_foldl, Add_zero_l.
Qed.

Lemma FromOffers_app l1 l2 :
  scalar_offer.FromOffers (l1 ++ l2) =
  scalar.Add (scalar_offer.FromOffers l1) (scalar_offer.FromOffers l2).
Proof.
  induction l1 as [|o l1 IH]; simpl.
  - by rewrite Add_zero_l.
  - by rewrite !FromOffers_cons, IH, Add_assoc.
Qed.

Lemma FromOffers_Permutation l1 l2 :
  l1 ≡ₚ l2 -> scalar_offer.FromOffers l1 = scalar_offer.FromOffers l2.
Proof.
  induction 1 as [|x l1 l2 _ IH|x y l|l1 l2 l3 _ IH1 _ IH2].
  - done.
  - by rewrite !FromOffers_cons, IH.
  - rewrite !FromOffers_cons, !Add_assoc. f_equal. apply Add_comm.
  - congruence.
Qed.

Lemma hostOffersDelta_empty : hostOffersDelta ∅ = scalar.zero.
Proof. unfold hostOffersDelta. by rewrite map_to_list_empty. Qed.

Lemma hostOffersDelta_insert (ho : gmap string (list mesos.Offer)) h l :
  ho !! h = None ->
  hostOffersDelta (<[h := l]> ho) =
  scalar.Add (scalar_offer.FromOffers l) (hostOffersDelta ho).
Proof.
  intros Hnone. unfold hostOffersDelta.
  rewrite <- FromOffers_app. apply FromOffers_Permutation.
  rewrite (map_to_list_insert ho h l Hnone). done.
Qed.

(** ** The matcher's loop *)

Section PoolProperties.

Variable matchHostFilter :
  gmap string mesos.Offer -> hostsvc.HostFilter -> hostsvc.HostFilterResult.

Lemma claimedFrom_refl s : claimedFrom s s.
Proof. split; auto. Qed.

Lemma claimedFrom_trans s1 s2 s3 :
  claimedFrom s1 s2 -> claimedFrom s2 s3 -> claimedFrom s1 s3.
Proof.
  intros [Ho1 H1] [Ho2 H2]. split; [congruence|].
  destruct H1 as [->|[Hr Hp]]; [done|].
  destruct H2 as [->|[Hr' _]]; [by right|congruence].
Qed.

Lemma claimedFrom_placing s s' :
  claimedFrom s s' -> status s = PlacingOffer -> status s' = PlacingOffer.
Proof. intros [_ [->|[Hr _]]]; [done|congruence]. Qed.

Lemma TryMatch_spec now f s r l s' :
  TryMatch matchHostFilter now f s = (r, l, s') ->
  claimedFrom s s' /\
  (r = hostsvc.MATCH ->
     status s = ReadyOffer /\ status s' = PlacingOffer /\
     l = (map_to_list (unreservedOffers s)).*2) /\
  (r <> hostsvc.MATCH -> s' = s).
Proof.
  unfold TryMatch, HasOffer. intros H.
  destruct (bool_decide (status s = ReadyOffer)) eqn:Hst; simpl in H.
  - apply bool_decide_eq_true in Hst.
    destruct (bool_decide (unreservedOffers s ≠ ∅)); simpl in H.
    + destruct (matchHostFilter (unreservedOffers s) f) eqn:Hm;
        inversion H; subst; clear H;
        try (split; [apply claimedFrom_refl|split; [done|done]]).
      split; [split; [done|right; done]|]. split; [done|done].
    + inversion H; subst. split; [apply claimedFrom_refl|done].
  - inversion H; subst. split; [apply claimedFrom_refl|done].
Qed.

Lemma tryMatch_spec now h s m s' m' :
  tryMatch matchHostFilter now h s m = (s', m') ->
  claimedFrom s s' /\ hostFilter m' = hostFilter m /\
  ((hostOffers m' = hostOffers m /\ s' = s) \/
   (HasEnoughHosts m = false /\ status s = ReadyOffer /\
    status s' = PlacingOffer /\
    hostOffers m' =
      <[h := (map_to_list (unreservedOffers s)).*2]> (hostOffers m))).
Proof.
  unfold tryMatch. intros H.
  destruct (HasEnoughHosts m) eqn:Hen.
  - inversion H; subst; simpl. split; [apply claimedFrom_refl|]. split; [done|].
    left. done.
  - destruct (TryMatch matchHostFilter now (hostFilter m) s) as [[r l] s0] eqn:Htm.
    inversion H; subst; clear H; simpl.
    apply TryMatch_spec in Htm as (Hc & Hmatch & Hno).
    split; [done|]. split; [done|].
    destruct (decide (r = hostsvc.MATCH)) as [->|Hne].
    + right. destruct Hmatch as (?&?&->); done.
    + left. split; [done|auto].
Qed.

(** What the loop of [ClaimForPlace] guarantees, for any visiting order. *)
Lemma claimLoop_spec now order : forall m index m' index',
  claimLoop matchHostFilter now order m index = (m', index') ->
  hostFilter m' = hostFilter m /\
  (forall h, match index !! h, index' !! h with
             | Some s, Some s' => claimedFrom s s'
             | None, None => True
             | _, _ => False
             end) /\
  (forall h l, hostOffers m' !! h = Some l ->
     hostOffers m !! h = Some l \/
     exists s s', index !! h = Some s /\ index' !! h = Some s' /\
       status s = ReadyOffer /\ status s' = PlacingOffer /\
       l = (map_to_list (unreservedOffers s)).*2) /\
  (forall h, is_Some (hostOffers m !! h) -> is_Some (hostOffers m' !! h)).
Proof.
  induction order as [|h0 rest IH]; intros m index m' index' H; simpl in H.
  { inversion H; subst. split; [done|]. split.
    - intros h. destruct (index' !! h); [apply claimedFrom_refl|done].
    - split; [by left|done]. }
  destruct (index !! h0) as [s0|] eqn:Hs0; [|by apply IH].
  destruct (tryMatch matchHostFilter now h0 s0 m) as [s0' m0] eqn:Htm.
  apply tryMatch_spec in Htm as (Hc0 & Hf0 & Hcase).
  assert (Hstep_index : forall h,
    match index !! h, <[h0 := s0']> index !! h with
    | Some s, Some s' => claimedFrom s s'
    | None, None => True
    | _, _ => False
    end).
  { intros h. destruct (decide (h = h0)) as [->|Hne].
    - rewrite Hs0, lookup_insert_eq. done.
    - rewrite lookup_insert_ne by done.
      destruct (index !! h); [apply claimedFrom_refl|done]. }
  assert (Hstep_offers : forall h l, hostOffers m0 !! h = Some l ->
     hostOffers m !! h = Some l \/
     exists s s', index !! h = Some s /\ <[h0 := s0']> index !! h = Some s' /\
       status s = ReadyOffer /\ status s' = PlacingOffer /\
       l = (map_to_list (unreservedOffers s)).*2).
  { intros h l Hl. destruct Hcase as [[Heq _]|(_ & Hr & Hp & Heq)].
    - left. congruence.
    - rewrite Heq in Hl. destruct (decide (h = h0)) as [->|Hne].
      + rewrite lookup_insert_eq in Hl. inversion Hl; subst.
        right. exists s0, s0'. rewrite lookup_insert_eq. done.
      + rewrite lookup_insert_ne in Hl by done. by left. }
  assert (Hstep_mono : forall h, is_Some (hostOffers m !! h) ->
                                 is_Some (hostOffers m0 !! h)).
  { intros h Hh. destruct Hcase as [[Heq _]|(_ & _ & _ & Heq)]; rewrite Heq; [done|].
    destruct (decide (h = h0)) as [->|Hne].
    - rewrite lookup_insert_eq. eauto.
    - by rewrite lookup_insert_ne. }
  destruct (HasEnoughHosts m0).
  { inversion H; subst. split; [done|]. split; [done|]. split; done. }
  apply IH in H as (Hf & Hidx & Hoff & Hmono).
  split; [congruence|]. split; [|split].
  - intros h. specialize (Hstep_index h). specialize (Hidx h).
    destruct (index !! h) as [s|], (<[h0:=s0']> index !! h) as [s1|],
      (index' !! h) as [s2|]; try done.
    eapply claimedFrom_trans; eauto.
  - intros h l Hl. destruct (Hoff h l Hl) as [Hold|(s1 & s2 & H1 & H2 & Hr & Hp & ->)].
    + destruct (Hstep_offers h l Hold) as [?|(s & s1 & Hs & Hs1 & Hr & Hp & ->)];
        [by left|].
      right. specialize (Hidx h). rewrite Hs1 in Hidx.
      destruct (index' !! h) as [s2|] eqn:Hs2; [|done].
      exists s, s2. split; [done|]. split; [done|]. split; [done|].
      split; [|done]. eapply claimedFrom_placing; eauto.
    + right. specialize (Hstep_index h). rewrite H1 in Hstep_index.
      destruct (index !! h) as [s|] eqn:Hs; [|done].
      destruct Hstep_index as [Hbag [->|[Hr' Hp']]].
      * exists s, s2. done.
      * congruence.
  - intros h Hh. apply Hmono, Hstep_mono, Hh.
Qed.

(** [ClaimForPlace] in one piece: the loop, then the move of the total of
    the claimed offers from the ready bucket to the placing bucket. *)
Lemma ClaimForPlace_unfold now order f p :
  ClaimForPlace matchHostFilter now order (Some f) p =
  let r := claimLoop matchHostFilter now order (NewMatcher f) (hostOfferIndex p) in
  let delta := hostOffersDelta (hostOffers r.1) in
  ((hostOffers r.1, filterCounts r.1, None),
   mkOfferPool r.2 (availableHosts p) (timedOffers p) (offerHoldTime p)
     (scalar.Subtract (readyResources p) delta)
     (scalar.Add (placingResources p) delta)).
Proof.
  unfold ClaimForPlace.
  destruct (claimLoop matchHostFilter now order (NewMatcher f) (hostOfferIndex p))
    as [m index] eqn:Hloop. simpl.
  destruct (bool_decide (0 < size (hostOffers m))%nat) eqn:Hsz; [done|].
  apply bool_decide_eq_false in Hsz.
  assert (hostOffers m = ∅) as Hempty by (apply map_size_empty_iff; lia).
  rewrite Hempty, hostOffersDelta_empty, Subtract_zero_r, Add_zero_r.
  by destruct p.
Qed.

Lemma ClaimForPlace_result now order filter p h l :
  (ClaimForPlace matchHostFilter now order filter p).1.1.1 !! h = Some l ->
  exists s s',
    hostOfferIndex p !! h = Some s /\
    hostOfferIndex (ClaimForPlace matchHostFilter now order filter p).2 !! h = Some s' /\
    status s = ReadyOffer /\ status s' = PlacingOffer /\
    l = (map_to_list (unreservedOffers s)).*2.
Proof.
  destruct filter as [f|]; [|done].
  rewrite ClaimForPlace_unfold. simpl.
  destruct (claimLoop matchHostFilter now order (NewMatcher f) (hostOfferIndex p))
    as [m index] eqn:Hloop. simpl.
  apply claimLoop_spec in Hloop as (_ & _ & Hoff & _).
  intros Hl. destruct (Hoff h l Hl) as [Hold|?]; [done|done].
Qed.

Lemma ClaimForPlace_index now order filter p h :
  match hostOfferIndex p !! h,
        hostOfferIndex (ClaimForPlace matchHostFilter now order filter p).2 !! h with
  | Some s, Some s' => claimedFrom s s'
  | None, None => True
  | _, _ => False
  end.
Proof.
  destruct filter as [f|].
  - rewrite ClaimForPlace_unfold. simpl.
    destruct (claimLoop matchHostFilter now order (NewMatcher f) (hostOfferIndex p))
      as [m index] eqn:Hloop. simpl.
    apply claimLoop_spec in Hloop as (_ & Hidx & _). apply Hidx.
  - simpl. destruct (hostOfferIndex p !! h); [apply claimedFrom_refl|done].
Qed.

Lemma ClaimForPlace_timedOffers now order filter p :
  timedOffers (ClaimForPlace matchHostFilter now order filter p).2 = timedOffers p.
Proof. destruct filter; [by rewrite ClaimForPlace_unfold|done]. Qed.


End PoolProperties.

(** ** What each call does to the host index and to [timedOffers] *)

Lemma bag_lookup p h s :
  hostOfferIndex p !! h = Some s -> bag p h = offers s.
Proof. unfold bag. by intros ->. Qed.

Lemma bag_absent p h : hostOfferIndex p !! h = None -> bag p h = ∅.
Proof. unfold bag. by intros ->. Qed.

Lemma addOne_index e p o :
  hostOfferIndex (addOne e p o) =
  <[mesos.Hostname o :=
      (AddMesosOffer o (default New (hostOfferIndex p !! mesos.Hostname o))).2]>
    (hostOfferIndex p).
Proof.
  unfold addOne, tryAddOffer, addOffer, incAvailable, incByStatus.
  destruct (hostOfferIndex p !! mesos.Hostname o) as [s|]; simpl.
  - destruct (HasAnyOffer s), (status s); done.
  - destruct (HasAnyOffer New); done.
Qed.

Lemma addOne_timedOffers e p o : timedOffers (addOne e p o) = timedOffers p.
Proof.
  unfold addOne, tryAddOffer, addOffer, incAvailable, incByStatus.
  destruct (hostOfferIndex p !! mesos.Hostname o) as [s|]; simpl.
  - destruct (HasAnyOffer s), (status s); done.
  - destruct (HasAnyOffer New); done.
Qed.

Lemma addOne_bag e p o h :
  bag (addOne e p o) h =
  if decide (h = mesos.Hostname o) then <[mesos.Id o := o]> (bag p h) else bag p h.
Proof.
  unfold bag. rewrite addOne_index.
  destruct (decide (h = mesos.Hostname o)) as [->|Hne].
  - rewrite lookup_insert_eq. simpl.
    destruct (hostOfferIndex p !! mesos.Hostname o); done.
  - by rewrite lookup_insert_ne.
Qed.


Lemma timeOne_index e p o : hostOfferIndex (timeOne e p o) = hostOfferIndex p.
Proof. done. Qed.

Lemma foldl_timeOne_index e offers : forall p,
  hostOfferIndex (foldl (timeOne e) p offers) = hostOfferIndex p.
Proof. induction offers as [|o l IH]; intros p; simpl; [done|by rewrite IH]. Qed.

Lemma foldl_addOne_timedOffers e offers : forall p,
  timedOffers (foldl (addOne e) p offers) = timedOffers p.
Proof.
  induction offers as [|o l IH]; intros p; simpl; [done|].
  by rewrite IH, addOne_timedOffers.
Qed.



(** The bags after the first loop of [AddOffers]. *)
Lemma foldl_addOne_bag e offers h id : forall p,
  is_Some (bag (foldl (addOne e) p offers) h !! id) <->
  is_Some (bag p h !! id) \/
  exists o, o ∈ offers /\ mesos.Hostname o = h /\ mesos.Id o = id.
Proof.
  induction offers as [|o l IH]; intros p; simpl.
  { split; [by left|]. intros [?|(o & Ho & _)]; [done|]. by apply elem_of_nil in Ho. }
  rewrite IH, addOne_bag. split.
  - intros [Hb|(o' & Ho' & Hh & Hi)].
    + destruct (decide (h = mesos.Hostname o)) as [->|Hne]; [|by left].
      destruct (decide (id = mesos.Id o)) as [->|Hni].
      * right. exists o. split; [apply elem_of_cons; by left|done].
      * rewrite lookup_insert_ne in Hb by done. by left.
    + right. exists o'. split; [apply elem_of_cons; by right|done].
  - intros [Hb|(o' & Ho' & Hh & Hi)].
    + left. destruct (decide (h = mesos.Hostname o)) as [->|Hne]; [|done].
      destruct (decide (mesos.Id o = id)) as [->|Hni].
      * rewrite lookup_insert_eq. eauto.
      * by rewrite lookup_insert_ne.
    + apply elem_of_cons in Ho' as [->|Ho'].
      * left. subst. rewrite decide_True by done. rewrite lookup_insert_eq. eauto.
      * right. eauto.
Qed.

(** The entries after the second loop of [AddOffers]. *)
Lemma foldl_timeOne_timedOffers e offers id t : forall p,
  timedOffers (foldl (timeOne e) p offers) !! id = Some t ->
  (timedOffers p !! id = Some t /\ forall o, o ∈ offers -> mesos.Id o <> id) \/
  exists o, o ∈ offers /\ mesos.Id o = id /\ t = mkTimedOffer (mesos.Hostname o) e.
Proof.
  induction offers as [|o l IH]; intros p; simpl.
  { intros H. left. split; [done|]. intros o Ho. by apply elem_of_nil in Ho. }
  intros H. apply IH in H as [[Ht Hl]|(o' & Ho' & Hi & Heq)].
  - simpl in Ht. destruct (decide (mesos.Id o = id)) as [Hi|Hni].
    + rewrite Hi, lookup_insert_eq in Ht. inversion Ht; subst.
      right. exists o. split; [apply elem_of_cons; by left|done].
    + rewrite lookup_insert_ne in Ht by done. left. split; [done|].
      intros o' Ho'. apply elem_of_cons in Ho' as [->|Ho']; auto.
  - right. exists o'. split; [apply elem_of_cons; by right|done].
Qed.

Lemma RescindOffer_index offerID p h :
  hostOfferIndex (RescindOffer offerID p).2 !! h =
  match timedOffers p !! offerID with
  | Some t =>
      if decide (h = Hostname t)
      then (fun s => (RemoveMesosOffer offerID s).2) <$> hostOfferIndex p !! h
      else hostOfferIndex p !! h
  | None => hostOfferIndex p !! h
  end.
Proof.
  unfold RescindOffer.
  destruct (timedOffers p !! offerID) as [t|]; [|done]. simpl.
  destruct (hostOfferIndex p !! Hostname t) as [s|] eqn:Hs; simpl.
  - unfold decAvailable, decByStatus.
    destruct (decide (h = Hostname t)) as [->|Hne].
    + rewrite Hs. simpl.
      destruct (HasAnyOffer _), (offers s !! offerID), (status s); simpl;
        by rewrite lookup_insert_eq.
    + destruct (HasAnyOffer _), (offers s !! offerID), (status s); simpl;
        by rewrite lookup_insert_ne.
  - destruct (decide (h = Hostname t)) as [->|Hne]; [by rewrite Hs|done].
Qed.

Lemma RescindOffer_timedOffers offerID p :
  timedOffers (RescindOffer offerID p).2 = delete offerID (timedOffers p).
Proof.
  unfold RescindOffer.
  destruct (timedOffers p !! offerID) as [t|] eqn:Ht; simpl.
  - destruct (hostOfferIndex p !! Hostname t) as [s|]; simpl; [|done].
    unfold decAvailable, decByStatus.
    destruct (HasAnyOffer _), (offers s !! offerID), (status s); done.
  - by rewrite delete_id.
Qed.

Lemma RescindOffer_bag offerID p h :
  bag (RescindOffer offerID p).2 h =
  match timedOffers p !! offerID with
  | Some t => if decide (h = Hostname t) then delete offerID (bag p h) else bag p h
  | None => bag p h
  end.
Proof.
  unfold bag. rewrite RescindOffer_index.
  destruct (timedOffers p !! offerID) as [t|]; [|done].
  destruct (decide (h = Hostname t)); [|done].
  destruct (hostOfferIndex p !! h); simpl; [done|by rewrite delete_empty].
Qed.


Lemma omap_ext_elem {A B} (f g : A -> option B) (l : list A) :
  (forall x, x ∈ l -> f x = g x) -> omap f l = omap g l.
Proof.
  induction l as [|x l IH]; intros H; [done|].
  assert (omap f l = omap g l) as Hl.
  { apply IH. intros y Hy. apply H, elem_of_cons. by right. }
  assert (f x = g x) as Hx by (apply H, elem_of_cons; by left).
  change (match f x with Some y => y :: omap f l | None => omap f l end =
          match g x with Some y => y :: omap g l | None => omap g l end).
  by rewrite Hx, Hl.
Qed.

Lemma removeOne_spec p e p' :
  removeOne (Some p) e = Some p' ->
  exists s, hostOfferIndex p !! Hostname e.2 = Some s /\
    hostOfferIndex p' =
      <[Hostname e.2 := (RemoveMesosOffer e.1 s).2]> (hostOfferIndex p) /\
    timedOffers p' = timedOffers p /\
    offerHoldTime p' = offerHoldTime p /\
    readyResources p' =
      scalar.Subtract (readyResources p)
        (scalar_offer.FromOffers (removedOffers ReadyOffer p [e])) /\
    placingResources p' =
      scalar.Subtract (placingResources p)
        (scalar_offer.FromOffers (removedOffers PlacingOffer p [e])).
Proof.
  unfold removeOne, removedOffers, removedOffer. simpl.
  destruct (hostOfferIndex p !! Hostname e.2) as [s|] eqn:Hs; simpl; [|done].
  intros H. inversion H; subst; clear H. exists s. split; [done|].
  unfold decAvailable, decByStatus, decQuantity.
  destruct (HasAnyOffer _), (offers s !! e.1) as [o|], (status s); simpl;
    rewrite ?decide_True by done; rewrite ?decide_False by done; simpl;
    rewrite ?FromOffers_cons, ?Add_zero_r; unfold scalar_offer.FromOffers; simpl;
    rewrite ?Subtract_zero_r; done.
Qed.

Lemma removeOne_None e : removeOne None e = None.
Proof. done. Qed.

Lemma foldl_removeOne_None l : foldl removeOne None l = None.
Proof. induction l as [|e l IH]; simpl; [done|exact IH]. Qed.

Lemma removeOne_Some p e :
  is_Some (hostOfferIndex p !! Hostname e.2) -> is_Some (removeOne (Some p) e).
Proof.
  intros [s Hs]. unfold removeOne. simpl. rewrite Hs. simpl. eauto.
Qed.

Lemma removedOffers_cons st p e l :
  scalar_offer.FromOffers (removedOffers st p (e :: l)) =
  scalar.Add (scalar_offer.FromOffers (removedOffers st p [e]))
             (scalar_offer.FromOffers (removedOffers st p l)).
Proof.
  unfold removedOffers. simpl. destruct (removedOffer st p e); simpl.
  - rewrite !FromOffers_cons. unfold scalar_offer.FromOffers at 2. simpl.
    by rewrite Add_zero_r.
  - unfold scalar_offer.FromOffers at 2. simpl. by rewrite Add_zero_l.
Qed.

(** The second loop of [RemoveExpiredOffers], over entries of distinct
    ids whose hosts are all in the index. *)
Lemma foldl_removeOne_spec l : forall p,
  NoDup l.*1 ->
  (forall e, e ∈ l -> is_Some (hostOfferIndex p !! Hostname e.2)) ->
  exists p', foldl removeOne (Some p) l = Some p' /\
    timedOffers p' = timedOffers p /\
    offerHoldTime p' = offerHoldTime p /\
    (forall h, status <$> hostOfferIndex p' !! h = status <$> hostOfferIndex p !! h) /\
    (forall id t, (id, t) ∈ l -> bag p' (Hostname t) !! id = None) /\
    (forall h id, (forall t, (id, t) ∈ l -> Hostname t <> h) ->
       bag p' h !! id = bag p h !! id) /\
    readyResources p' =
      scalar.Subtract (readyResources p)
        (scalar_offer.FromOffers (removedOffers ReadyOffer p l)) /\
    placingResources p' =
      scalar.Subtract (placingResources p)
        (scalar_offer.FromOffers (removedOffers PlacingOffer p l)).
Proof.
  induction l as [|e l IH]; intros p Hnd Hhosts; cbn [foldl].
  { exists p. split; [done|]. split; [done|]. split; [done|]. split; [done|].
    split; [intros id t Hin; by apply elem_of_nil in Hin|]. split; [done|].
    unfold removedOffers, scalar_offer.FromOffers. simpl.
    by rewrite !Subtract_zero_r. }
  destruct (removeOne_Some p e) as [p1 Hp1].
  { apply Hhosts, elem_of_cons. by left. }
  rewrite Hp1. apply removeOne_spec in Hp1 as (s & Hs & Hidx1 & Ht1 & Hh1 & Hr1 & Hpl1).
  simpl in Hnd. apply NoDup_cons in Hnd as [Hnotin Hnd].
  assert (Hst1 : forall h, status <$> hostOfferIndex p1 !! h = status <$> hostOfferIndex p !! h).
  { intros h. rewrite Hidx1. destruct (decide (h = Hostname e.2)) as [->|Hne].
    - by rewrite lookup_insert_eq, Hs.
    - by rewrite lookup_insert_ne. }
  assert (Hbag1 : forall h id,
    bag p1 h !! id = if decide (h = Hostname e.2 /\ id = e.1) then None else bag p h !! id).
  { intros h id. unfold bag. rewrite Hidx1.
    destruct (decide (h = Hostname e.2)) as [->|Hne].
    - rewrite lookup_insert_eq, Hs. simpl.
      destruct (decide (id = e.1)) as [->|Hni].
      + rewrite decide_True by done. apply lookup_delete_eq.
      + rewrite decide_False by tauto. by apply lookup_delete_ne.
    - rewrite lookup_insert_ne by done. rewrite decide_False by tauto. done. }
  assert (Hrem : forall st, removedOffers st p1 l = removedOffers st p l).
  { intros st. unfold removedOffers. apply omap_ext_elem.
    intros e' He'. unfold removedOffer.
    assert (e'.1 <> e.1) as Hne.
    { intros Heq. apply Hnotin. rewrite <- Heq. apply list_elem_of_fmap. eauto. }
    specialize (Hst1 (Hostname e'.2)). specialize (Hbag1 (Hostname e'.2) e'.1).
    rewrite decide_False in Hbag1 by tauto. unfold bag in Hbag1.
    destruct (hostOfferIndex p1 !! Hostname e'.2) as [s1|],
             (hostOfferIndex p !! Hostname e'.2) as [s0|]; simpl in *; try done.
    inversion Hst1 as [Hst]. rewrite Hst. by destruct (decide (status s0 = st)). }
  destruct (IH p1 Hnd) as (p' & Hfold & Ht & Hh & Hst & Hgone & Hkept & Hr & Hpl).
  { intros e' He'. assert (is_Some (hostOfferIndex p !! Hostname e'.2)) as [s' Hs'].
    { apply Hhosts, elem_of_cons. by right. }
    specialize (Hst1 (Hostname e'.2)). rewrite Hs' in Hst1.
    destruct (hostOfferIndex p1 !! Hostname e'.2); [eauto|done]. }
  exists p'. split; [done|]. split; [congruence|]. split; [congruence|].
  split; [intros h; by rewrite Hst|]. split; [|split; [|split]].
  - intros id t Hin. apply elem_of_cons in Hin as [Heq|Hin]; [|by eapply Hgone].
    subst e. simpl in *. destruct (decide (Is_true (bool_decide ((id, t) ∈ l)))) as [Hin|Hnin].
    + apply bool_decide_unpack in Hin. by eapply Hgone.
    + rewrite Hkept.
      * rewrite Hbag1. by rewrite decide_True.
      * intros t' Hin'. exfalso. apply Hnotin.
        apply list_elem_of_fmap. exists (id, t'). done.
  - intros h id Hne. rewrite Hkept.
    + rewrite Hbag1. rewrite decide_False; [done|].
      intros [-> ->]. apply (Hne e.2); [|done].
      apply elem_of_cons. left. by destruct e.
    + intros t Hin. apply Hne, elem_of_cons. by right.
  - rewrite Hr, Hr1, Hrem, Subtract_Subtract, <- removedOffers_cons. done.
  - rewrite Hpl, Hpl1, Hrem, Subtract_Subtract, <- removedOffers_cons. done.
Qed.

Lemma RemoveExpiredOffers_run now p :
  (forall id t, timedOffers p !! id = Some t -> expired now t = true ->
     is_Some (hostOfferIndex p !! Hostname t)) ->
  exists p',
    RemoveExpiredOffers now p =
      Some (filter (fun kv => expired now kv.2 = true) (timedOffers p),
            Z.of_nat (size (timedOffers p')), p') /\
    timedOffers p' = filter (fun kv => expired now kv.2 = false) (timedOffers p) /\
    (forall h, status <$> hostOfferIndex p' !! h = status <$> hostOfferIndex p !! h) /\
    (forall id t, timedOffers p !! id = Some t -> expired now t = true ->
       bag p' (Hostname t) !! id = None) /\
    (forall h id,
       (forall t, timedOffers p !! id = Some t -> expired now t = true ->
          Hostname t <> h) ->
       bag p' h !! id = bag p h !! id) /\
    readyResources p' =
      scalar.Subtract (readyResources p)
        (scalar_offer.FromOffers
           (removedOffers ReadyOffer p
              (map_to_list (filter (fun kv => expired now kv.2 = true) (timedOffers p))))) /\
    placingResources p' =
      scalar.Subtract (placingResources p)
        (scalar_offer.FromOffers
           (removedOffers PlacingOffer p
              (map_to_list (filter (fun kv => expired now kv.2 = true) (timedOffers p))))).
Proof.
  intros Hhosts. unfold RemoveExpiredOffers.
  set (gone := filter (fun kv => expired now kv.2 = true) (timedOffers p)).
  set (p1 := set_timedOffers
               (filter (fun kv => expired now kv.2 = false) (timedOffers p)) p).
  destruct (foldl_removeOne_spec (map_to_list gone) p1)
    as (p' & Hfold & Ht & _ & Hst & Hgone & Hkept & Hr & Hpl).
  { apply NoDup_fst_map_to_list. }
  { intros [id t] He. apply elem_of_map_to_list in He.
    apply map_lookup_filter_Some in He as [He Hexp]. simpl in *. eauto. }
  exists p'. rewrite Hfold. simpl. split; [done|]. split; [done|].
  split; [done|]. split; [|split].
  - intros id t Hid Hexp. apply Hgone, elem_of_map_to_list.
    apply map_lookup_filter_Some. done.
  - intros h id Hne. rewrite Hkept; [done|].
    intros t He. apply elem_of_map_to_list, map_lookup_filter_Some in He as [He Hexp].
    by apply Hne.
  - done.
Qed.

Lemma RemoveExpiredOffers_inv now p gone n p' :
  RemoveExpiredOffers now p = Some (gone, n, p') ->
  forall id t, timedOffers p !! id = Some t -> expired now t = true ->
    is_Some (hostOfferIndex p !! Hostname t).
Proof.
  unfold RemoveExpiredOffers. intros H id t Hid Hexp.
  destruct (hostOfferIndex p !! Hostname t) as [s|] eqn:Hs; [eauto|]. exfalso.
  set (l := map_to_list (filter (fun kv => expired now kv.2 = true) (timedOffers p))) in *.
  assert ((id, t) ∈ l) as Hin.
  { apply elem_of_map_to_list, map_lookup_filter_Some. done. }
  set (p1 := set_timedOffers _ p) in H.
  assert (hostOfferIndex p1 !! Hostname t = None) as Hs1 by done.
  assert (foldl removeOne (Some p1) l = None) as Hnone; [|by rewrite Hnone in H].
  clear H. clearbody p1 l. revert p1 Hs1.
  induction l as [|e l IH]; intros p1 Hs1; [by apply elem_of_nil in Hin|].
  cbn [foldl]. apply elem_of_cons in Hin as [<-|Hin].
  - unfold removeOne at 2. simpl. rewrite Hs1. simpl. apply foldl_removeOne_None.
  - destruct (removeOne (Some p1) e) as [p2|] eqn:Hp2; [|apply foldl_removeOne_None].
    apply IH; [done|]. apply removeOne_spec in Hp2 as (s2 & Hs2 & -> & _).
    rewrite lookup_insert_ne; [done|]. intros Heq. congruence.
Qed.


Lemma ClaimForLaunch_spec h r p res p' :
  ClaimForLaunch h r p = Some (res, p') ->
  (exists err, res = inr err /\ p' = p) \/
  (exists s offerMap,
     res = inl offerMap /\ hostOfferIndex p !! h = Some s /\
     offerMap = filter (fun kv => mesos.Reserved kv.2 = r) (offers s) /\
     (r = false -> status s = PlacingOffer) /\
     (forall h' id, bag p' h' !! id =
        if decide (h' = h /\ is_Some (offerMap !! id)) then None
        else bag p h' !! id) /\
     timedOffers p' = filter (fun kv => offerMap !! kv.1 = None) (timedOffers p)).
Proof.
  unfold ClaimForLaunch.
  destruct (hostOfferIndex p !! h) as [s|] eqn:Hs; simpl; [|done].
  assert (Hbag : forall (s' : hostSummary) (q : offerPool) h' id,
    hostOfferIndex q = <[h := s']> (hostOfferIndex p) ->
    offers s' = filter (fun kv => mesos.Reserved kv.2 = negb r) (offers s) ->
    bag q h' !! id =
      if decide (h' = h /\
                 is_Some (filter (fun kv => mesos.Reserved kv.2 = r) (offers s) !! id))
      then None else bag p h' !! id).
  { intros s' q h' id Hq Hoff. unfold bag. rewrite Hq.
    destruct (decide (h' = h)) as [->|Hne].
    - rewrite lookup_insert_eq, Hs. simpl. rewrite Hoff.
      destruct (offers s !! id) as [o|] eqn:Ho.
      + destruct (decide (mesos.Reserved o = r)) as [Hr|Hr].
        * rewrite decide_True.
          -- apply map_lookup_filter_None. right. intros o' Ho'. simpl.
             rewrite Ho in Ho'. inversion Ho'; subst. by destruct (mesos.Reserved o').
          -- split; [done|]. exists o. by apply map_lookup_filter_Some.
        * rewrite decide_False.
          -- apply map_lookup_filter_Some. split; [done|]. simpl.
             destruct (mesos.Reserved o), r; done.
          -- intros [_ [o' Ho']]. apply map_lookup_filter_Some in Ho' as [Ho' Hr'].
             simpl in Hr'. congruence.
      + rewrite decide_False.
        * apply map_lookup_filter_None. by left.
        * intros [_ [o' Ho']]. apply map_lookup_filter_Some in Ho' as [Ho' _].
          congruence.
    - rewrite lookup_insert_ne by done. rewrite decide_False by tauto. done. }
  destruct r; simpl.
  - intros H. inversion H; subst; clear H. right.
    exists s, (reservedOffers s). split; [done|]. split; [done|]. split; [done|].
    split; [done|]. split.
    + intros h' id. apply (Hbag (mkHostSummary (status s) (statusPlacingOfferExpiration s)
                                   (unreservedOffers s))); [|done].
      unfold decAvailable. by destruct (HasAnyOffer _).
    + unfold decAvailable. by destruct (HasAnyOffer _).
  - unfold summary.ClaimForLaunch. destruct (decide (status s = PlacingOffer)) as [Hp|Hp].
    + intros H. inversion H; subst; clear H. right.
      exists s, (unreservedOffers s). split; [done|]. split; [done|]. split; [done|].
      split; [done|]. split.
      * intros h' id. apply (Hbag (mkHostSummary ReadyOffer (statusPlacingOfferExpiration s)
                                     (reservedOffers s))); [|done].
        unfold decAvailable. by destruct (HasAnyOffer _).
      * unfold decAvailable. by destruct (HasAnyOffer _).
    + intros H. inversion H; subst. left. eauto.
Qed.

Lemma ReturnUnusedOffers_index hostname p h :
  hostOfferIndex (ReturnUnusedOffers hostname p).2 !! h =
  if decide (h = hostname)
  then (fun s => (CasStatus PlacingOffer ReadyOffer s).2) <$> hostOfferIndex p !! h
  else hostOfferIndex p !! h.
Proof.
  unfold ReturnUnusedOffers.
  destruct (hostOfferIndex p !! hostname) as [s|] eqn:Hs.
  - unfold CasStatus.
    destruct (decide (status s = PlacingOffer)) as [Hp|Hp]; simpl.
    + destruct (decide (h = hostname)) as [->|Hne].
      * rewrite lookup_insert_eq, Hs. simpl. by rewrite decide_True.
      * by rewrite lookup_insert_ne.
    + destruct (decide (h = hostname)) as [->|Hne]; [|done].
      rewrite Hs. simpl. by rewrite decide_False.
  - simpl. destruct (decide (h = hostname)) as [->|Hne]; [|done]. by rewrite Hs.
Qed.

Lemma ReturnUnusedOffers_timedOffers hostname p :
  timedOffers (ReturnUnusedOffers hostname p).2 = timedOffers p.
Proof.
  unfold ReturnUnusedOffers.
  destruct (hostOfferIndex p !! hostname) as [s|]; [|done].
  unfold CasStatus. by destruct (decide (status s = PlacingOffer)).
Qed.

Lemma ReturnUnusedOffers_bag hostname p h :
  bag (ReturnUnusedOffers hostname p).2 h = bag p h.
Proof.
  unfold bag. rewrite ReturnUnusedOffers_index.
  destruct (decide (h = hostname)); [|done].
  destruct (hostOfferIndex p !! h) as [s|]; [|done]. simpl.
  unfold CasStatus. by destruct (decide (status s = PlacingOffer)).
Qed.

Lemma foldl_resetOne_inv now l : forall acc,
  NoDup l.*1 ->
  (forall k s, (k, s) ∈ l -> hostOfferIndex acc.2 !! k = Some s) ->
  timedOffers (foldl (resetOne now) acc l).2 = timedOffers acc.2 /\
  forall h, bag (foldl (resetOne now) acc l).2 h = bag acc.2 h.
Proof.
  induction l as [|e l IH]; intros acc Hnd Hcur; cbn [foldl]; [done|].
  simpl in Hnd. apply NoDup_cons in Hnd as [Hnotin Hnd].
  assert (hostOfferIndex acc.2 !! e.1 = Some e.2) as He.
  { apply Hcur, elem_of_cons. left. by destruct e. }
  assert (Hstep : timedOffers (resetOne now acc e).2 = timedOffers acc.2 /\
                  (forall h, bag (resetOne now acc e).2 h = bag acc.2 h) /\
                  forall k, k <> e.1 ->
                    hostOfferIndex (resetOne now acc e).2 !! k = hostOfferIndex acc.2 !! k).
  { unfold resetOne, ResetExpiredPlacingOfferStatus. destruct acc as [names q]. simpl in *.
    destruct (bool_decide (status e.2 = PlacingOffer) &&
              (statusPlacingOfferExpiration e.2 <? now)); simpl; [|done].
    split; [done|]. split.
    - intros h. unfold bag. simpl. destruct (decide (h = e.1)) as [->|Hne].
      + by rewrite lookup_insert_eq, He.
      + by rewrite lookup_insert_ne.
    - intros k Hk. by rewrite lookup_insert_ne. }
  destruct Hstep as (Ht1 & Hb1 & Hi1).
  destruct (IH (resetOne now acc e) Hnd) as [Ht Hb].
  { intros k s Hin. rewrite Hi1.
    - apply Hcur, elem_of_cons. by right.
    - intros ->. apply Hnotin, list_elem_of_fmap. by exists (e.1, s). }
  split; [congruence|]. intros h. by rewrite Hb.
Qed.

Lemma ResetExpiredHostSummaries_inv now p :
  timedOffers (ResetExpiredHostSummaries now p).2 = timedOffers p /\
  forall h, bag (ResetExpiredHostSummaries now p).2 h = bag p h.
Proof.
  unfold ResetExpiredHostSummaries.
  apply (foldl_resetOne_inv now (map_to_list (hostOfferIndex p)) ([], p)).
  - apply NoDup_fst_map_to_list.
  - intros k s Hin. by apply elem_of_map_to_list in Hin.
Qed.

(** ** Placement claims *)

Section Placement.

Variable matchHostFilter :
  gmap string mesos.Offer -> hostsvc.HostFilter -> hostsvc.HostFilterResult.







End Placement.



(** ** Adding, rescinding and expiring offers *)

Lemma AddOffers_single now o p :
  AddOffers now [o] p =
  timeOne (now + offerHoldTime p) (addOne (now + offerHoldTime p) p o) o.
Proof. done. Qed.

Lemma addOne_readyResources e p o :
  readyResources (addOne e p o) =
  match status (default New (hostOfferIndex p !! mesos.Hostname o)) with
  | ReadyOffer => scalar.Add (readyResources p) (scalar_offer.FromOffer o)
  | _ => readyResources p
  end.
Proof.
  unfold addOne, tryAddOffer, addOffer, incAvailable, incByStatus.
  destruct (hostOfferIndex p !! mesos.Hostname o) as [s|]; simpl.
  - destruct (HasAnyOffer s), (status s); done.
  - destruct (HasAnyOffer New); done.
Qed.

Lemma addOne_placingResources e p o :
  placingResources (addOne e p o) =
  match status (default New (hostOfferIndex p !! mesos.Hostname o)) with
  | PlacingOffer => scalar.Add (placingResources p) (scalar_offer.FromOffer o)
  | _ => placingResources p
  end.
Proof.
  unfold addOne, tryAddOffer, addOffer, incAvailable, incByStatus.
  destruct (hostOfferIndex p !! mesos.Hostname o) as [s|]; simpl.
  - destruct (HasAnyOffer s), (status s); done.
  - destruct (HasAnyOffer New); done.
Qed.

Lemma addOne_offerHoldTime e p o : offerHoldTime (addOne e p o) = offerHoldTime p.
Proof.
  unfold addOne, tryAddOffer, addOffer, incAvailable, incByStatus.
  destruct (hostOfferIndex p !! mesos.Hostname o) as [s|]; simpl.
  - destruct (HasAnyOffer s), (status s); done.
  - destruct (HasAnyOffer New); done.
Qed.

(** [RescindOffer] on an entry whose host is in the index. *)
Lemma RescindOffer_known offerID p t s :
  timedOffers p !! offerID = Some t ->
  hostOfferIndex p !! Hostname t = Some s ->
  (RescindOffer offerID p).1 = true /\
  offerHoldTime (RescindOffer offerID p).2 = offerHoldTime p /\
  hostOfferIndex (RescindOffer offerID p).2 =
    <[Hostname t := (RemoveMesosOffer offerID s).2]> (hostOfferIndex p) /\
  readyResources (RescindOffer offerID p).2 =
    match status s, offers s !! offerID with
    | ReadyOffer, Some o => scalar.Subtract (readyResources p) (scalar_offer.FromOffer o)
    | _, _ => readyResources p
    end /\
  placingResources (RescindOffer offerID p).2 =
    match status s, offers s !! offerID with
    | PlacingOffer, Some o =>
        scalar.Subtract (placingResources p) (scalar_offer.FromOffer o)
    | _, _ => placingResources p
    end.
Proof.
  intros Ht Hs. unfold RescindOffer. rewrite Ht. simpl. rewrite Hs. simpl.
  unfold decAvailable, decByStatus, decQuantity.
  destruct (HasAnyOffer _), (offers s !! offerID), (status s); done.
Qed.

(** C4, as amended: for an offer [o] whose id is in neither index of the
    pool (no entry in [timedOffers], not in the bag of its host),
    [AddOffers([o])] followed by [RescindOffer(o.id)] returns true and
    leaves [timedOffers], [readyResources] and [placingResources] as they
    were; the host index is as it was when the host of [o] already had a
    summary, and otherwise differs by exactly one entry: an empty READY
    summary for that host, which the rescind does not remove. *)
Theorem AddOffers_RescindOffer_roundtrip now o p :
  timedOffers p !! mesos.Id o = None ->
  bag p (mesos.Hostname o) !! mesos.Id o = None ->
  let r := RescindOffer (mesos.Id o) (AddOffers now [o] p) in
  r.1 = true /\
  timedOffers r.2 = timedOffers p /\
  readyResources r.2 = readyResources p /\
  placingResources r.2 = placingResources p /\
  hostOfferIndex r.2 =
    <[mesos.Hostname o := default New (hostOfferIndex p !! mesos.Hostname o)]>
      (hostOfferIndex p) /\
  (is_Some (hostOfferIndex p !! mesos.Hostname o) ->
     hostOfferIndex r.2 = hostOfferIndex p).
Proof.
  intros Htimed Hbag. cbv zeta. rewrite AddOffers_single.
  set (e := now + offerHoldTime p). set (p1 := addOne e p o).
  set (s0 := default New (hostOfferIndex p !! mesos.Hostname o)).
  assert (offers s0 !! mesos.Id o = None) as Hfresh.
  { unfold bag in Hbag. unfold s0.
    destruct (hostOfferIndex p !! mesos.Hostname o); simpl in *; done. }
  assert (timedOffers (timeOne e p1 o) !! mesos.Id o =
          Some (mkTimedOffer (mesos.Hostname o) e)) as Ht.
  { simpl. apply lookup_insert_eq. }
  assert (hostOfferIndex (timeOne e p1 o) !! mesos.Hostname o =
          Some (AddMesosOffer o s0).2) as Hs.
  { rewrite timeOne_index. unfold p1. rewrite addOne_index. apply lookup_insert_eq. }
  destruct (RescindOffer_known _ _ _ _ Ht Hs) as (Hres & _ & Hidx & Hr & Hpl).
  simpl in Hidx, Hr, Hpl. rewrite lookup_insert_eq in Hr, Hpl.
  assert (hostOfferIndex (RescindOffer (mesos.Id o) (timeOne e p1 o)).2 =
          <[mesos.Hostname o := s0]> (hostOfferIndex p)) as Hindex.
  { rewrite Hidx. unfold p1. rewrite addOne_index. fold s0.
    rewrite insert_insert_eq. f_equal.
    rewrite delete_insert_id by done. by destruct s0. }
  split; [done|]. split; [|split; [|split; [|split]]].
  - rewrite RescindOffer_timedOffers. simpl. unfold p1.
    rewrite addOne_timedOffers. by apply delete_insert_id.
  - rewrite Hr. unfold p1. rewrite addOne_readyResources. fold s0.
    destruct (status s0); [apply Subtract_Add_cancel|done|done].
  - rewrite Hpl. unfold p1. rewrite addOne_placingResources. fold s0.
    destruct (status s0); [done|apply Subtract_Add_cancel|done].
  - exact Hindex.
  - intros [s Hsome]. rewrite Hindex. unfold s0. rewrite Hsome. simpl.
    by apply insert_id.
Qed.

(** C4 on the fixture: agent2 has a summary in [pool4], so adding and
    rescinding a further offer on agent2 leaves the four components as they
    were. *)
Lemma AddOffers_RescindOffer_roundtrip_witness :
  timedOffers fixtures.pool4 !! "offer5" = None /\
  bag fixtures.pool4 "agent2" !! "offer5" = None /\
  let r := RescindOffer "offer5"
             (AddOffers 7 [fixtures.getMesosOffer "agent2" "offer5" 3 5] fixtures.pool4) in
  r.1 = true /\
  timedOffers r.2 = timedOffers fixtures.pool4 /\
  readyResources r.2 = readyResources fixtures.pool4 /\
  placingResources r.2 = placingResources fixtures.pool4 /\
  hostOfferIndex r.2 =
    <["agent2" := default New (hostOfferIndex fixtures.pool4 !! "agent2")]>
      (hostOfferIndex fixtures.pool4) /\
  (is_Some (hostOfferIndex fixtures.pool4 !! "agent2") ->
     hostOfferIndex r.2 = hostOfferIndex fixtures.pool4).
Proof.
  assert (timedOffers fixtures.pool4 !! "offer5" = None) as H1
    by (vm_compute; reflexivity).
  assert (bag fixtures.pool4 "agent2" !! "offer5" = None) as H2
    by (vm_compute; reflexivity).
  split; [exact H1|]. split; [exact H2|].
  exact (AddOffers_RescindOffer_roundtrip 7
           (fixtures.getMesosOffer "agent2" "offer5" 3 5) fixtures.pool4 H1 H2).
Defined.

(** C4 as stated fails: on the empty pool, adding an offer of a new host and
    rescinding it returns true but leaves a summary for that host in the
    index, which was empty. *)
Lemma AddOffers_RescindOffer_counterexample :
  let P := NewOfferPool 60 in
  let o := fixtures.offer1 in
  let r := RescindOffer (mesos.Id o) (AddOffers 0 [o] P) in
  timedOffers P !! mesos.Id o = None /\
  bag P (mesos.Hostname o) !! mesos.Id o = None /\
  r.1 = true /\
  hostOfferIndex P !! "agent1" = None /\
  hostOfferIndex r.2 !! "agent1" = Some New /\
  hostOfferIndex r.2 <> hostOfferIndex P.
Proof.
  cbv zeta. split; [done|]. split; [done|]. split; [vm_compute; reflexivity|].
  split; [done|].
  assert (hostOfferIndex
            (RescindOffer (mesos.Id fixtures.offer1)
               (AddOffers 0 [fixtures.offer1] (NewOfferPool 60))).2 !! "agent1" =
          Some New) as H by (vm_compute; reflexivity).
  split; [exact H|]. intros Heq. rewrite Heq in H. discriminate H.
Qed.

(** C10: when the offer id has an entry in [timedOffers] whose hostname is
    not in the host index, [RescindOffer] returns false and yet the entry is
    gone: a false return does not mean the pool was left as it was. *)
Theorem RescindOffer_false_after_delete offerID p t :
  timedOffers p !! offerID = Some t ->
  hostOfferIndex p !! Hostname t = None ->
  (RescindOffer offerID p).1 = false /\
  timedOffers (RescindOffer offerID p).2 = delete offerID (timedOffers p) /\
  timedOffers (RescindOffer offerID p).2 !! offerID = None /\
  (RescindOffer offerID p).2 <> p.
Proof.
  intros Ht Hs. unfold RescindOffer. rewrite Ht. simpl. rewrite Hs. simpl.
  split; [done|]. split; [done|]. split; [apply lookup_delete_eq|].
  intros Heq. assert (timedOffers (set_timedOffers (delete offerID (timedOffers p)) p)
                      !! offerID = Some t) as H by (by rewrite Heq).
  simpl in H. by rewrite lookup_delete_eq in H.
Qed.

(** A pool whose only entry names a host that has no summary. *)
Lemma RescindOffer_false_after_delete_witness :
  let p := mkOfferPool ∅ 0 {["offer1" := mkTimedOffer "agent1" 60]} 60
                       scalar.zero scalar.zero in
  timedOffers p !! "offer1" = Some (mkTimedOffer "agent1" 60) /\
  hostOfferIndex p !! "agent1" = None /\
  (RescindOffer "offer1" p).1 = false /\
  timedOffers (RescindOffer "offer1" p).2 = delete "offer1" (timedOffers p) /\
  timedOffers (RescindOffer "offer1" p).2 !! "offer1" = None /\
  (RescindOffer "offer1" p).2 <> p.
Proof.
  cbv zeta.
  assert (timedOffers (mkOfferPool ∅ 0 {["offer1" := mkTimedOffer "agent1" 60]} 60
                         scalar.zero scalar.zero) !! "offer1" =
          Some (mkTimedOffer "agent1" 60)) as H1 by (vm_compute; reflexivity).
  assert (hostOfferIndex (mkOfferPool ∅ 0 {["offer1" := mkTimedOffer "agent1" 60]} 60
                            scalar.zero scalar.zero) !! Hostname (mkTimedOffer "agent1" 60) =
          None) as H2 by (vm_compute; reflexivity).
  split; [exact H1|]. split; [exact H2|].
  exact (RescindOffer_false_after_delete "offer1" _ _ H1 H2).
Defined.

(** C5: in a pool where the host of every expired entry has a summary (as in
    every pool built through the pool's calls; a missing summary makes the
    loop call through a nil interface), [RemoveExpiredOffers] returns the
    entries of [timedOffers] whose expiration precedes [now] together with
    the number of entries left; exactly those entries leave [timedOffers];
    each leaves the bag of the host it names, every other bag entry and
    every host status stay; and the ready and the placing bucket are each
    decreased by the total of the removed offers that were held by a host
    of that status. *)
Theorem RemoveExpiredOffers_removes_expired now p :
  map_Forall (fun _ t => expired now t = true ->
                is_Some (hostOfferIndex p !! Hostname t)) (timedOffers p) ->
  exists p',
    let gone := filter (fun kv => expired now kv.2 = true) (timedOffers p) in
    RemoveExpiredOffers now p = Some (gone, Z.of_nat (size (timedOffers p')), p') /\
    timedOffers p' = filter (fun kv => expired now kv.2 = false) (timedOffers p) /\
    (forall id t, timedOffers p !! id = Some t ->
       if expired now t
       then gone !! id = Some t /\ timedOffers p' !! id = None /\
            bag p' (Hostname t) !! id = None
       else gone !! id = None /\ timedOffers p' !! id = Some t) /\
    (forall h id,
       (forall t, timedOffers p !! id = Some t -> expired now t = true ->
          Hostname t <> h) ->
       bag p' h !! id = bag p h !! id) /\
    (forall h, status <$> hostOfferIndex p' !! h = status <$> hostOfferIndex p !! h) /\
    readyResources p' =
      scalar.Subtract (readyResources p)
        (scalar_offer.FromOffers (removedOffers ReadyOffer p (map_to_list gone))) /\
    placingResources p' =
      scalar.Subtract (placingResources p)
        (scalar_offer.FromOffers (removedOffers PlacingOffer p (map_to_list gone))).
Proof.
  intros Hhosts.
  destruct (RemoveExpiredOffers_run now p)
    as (p' & Heq & Ht & Hst & Hgone & Hkept & Hr & Hpl).
  { intros id t Hid Hexp. by apply (Hhosts id t Hid). }
  exists p'. cbv zeta. split; [done|]. split; [done|].
  split; [|split; [done|split; [done|split; done]]].
  intros id t Hid. destruct (expired now t) eqn:Hexp.
  - split; [by apply map_lookup_filter_Some|]. split; [|by eapply Hgone].
    rewrite Ht. apply map_lookup_filter_None. right. intros t' Ht'. simpl.
    rewrite Hid in Ht'. inversion Ht'; subst. by rewrite Hexp.
  - split.
    + apply map_lookup_filter_None. right. intros t' Ht'. simpl.
      rewrite Hid in Ht'. inversion Ht'; subst. by rewrite Hexp.
    + rewrite Ht. by apply map_lookup_filter_Some.
Qed.

(** C5 on the pool of [TestRemoveExpiredOffers]: offer1 and offer4 have
    expired, two offers remain. *)
Lemma RemoveExpiredOffers_removes_expired_witness :
  map_Forall (fun _ t => expired 0 t = true ->
                is_Some (hostOfferIndex fixtures.pool4aged !! Hostname t))
             (timedOffers fixtures.pool4aged) /\
  (fst <$> RemoveExpiredOffers 0 fixtures.pool4aged) =
    Some ({["offer1" := mkTimedOffer "agent1" (-120);
            "offer4" := mkTimedOffer "agent4" (-120)]}, 2) /\
  exists p',
    let gone := filter (fun kv => expired 0 kv.2 = true)
                       (timedOffers fixtures.pool4aged) in
    RemoveExpiredOffers 0 fixtures.pool4aged =
      Some (gone, Z.of_nat (size (timedOffers p')), p') /\
    timedOffers p' =
      filter (fun kv => expired 0 kv.2 = false) (timedOffers fixtures.pool4aged) /\
    (forall id t, timedOffers fixtures.pool4aged !! id = Some t ->
       if expired 0 t
       then gone !! id = Some t /\ timedOffers p' !! id = None /\
            bag p' (Hostname t) !! id = None
       else gone !! id = None /\ timedOffers p' !! id = Some t) /\
    (forall h id,
       (forall t, timedOffers fixtures.pool4aged !! id = Some t ->
          expired 0 t = true -> Hostname t <> h) ->
       bag p' h !! id = bag fixtures.pool4aged h !! id) /\
    (forall h, status <$> hostOfferIndex p' !! h =
               status <$> hostOfferIndex fixtures.pool4aged !! h) /\
    readyResources p' =
      scalar.Subtract (readyResources fixtures.pool4aged)
        (scalar_offer.FromOffers
           (removedOffers ReadyOffer fixtures.pool4aged (map_to_list gone))) /\
    placingResources p' =
      scalar.Subtract (placingResources fixtures.pool4aged)
        (scalar_offer.FromOffers
           (removedOffers PlacingOffer fixtures.pool4aged (map_to_list gone))).
Proof.
  assert (map_Forall (fun _ t => expired 0 t = true ->
                        is_Some (hostOfferIndex fixtures.pool4aged !! Hostname t))
                     (timedOffers fixtures.pool4aged)) as H.
  { apply (bool_decide_unpack _). vm_compute. exact I. }
  split; [exact H|]. split; [vm_compute; reflexivity|].
  exact (RemoveExpiredOffers_removes_expired 0 fixtures.pool4aged H).
Defined.

(** ** Releasing claimed hosts *)

Lemma UnreservedAmount_offers s s' :
  offers s' = offers s -> UnreservedAmount s' = UnreservedAmount s.
Proof. unfold UnreservedAmount, unreservedOffers. by intros ->. Qed.

Lemma ReturnUnusedOffers_placing hostname p s :
  hostOfferIndex p !! hostname = Some s -> status s = PlacingOffer ->
  ReturnUnusedOffers hostname p =
  (None,
   mkOfferPool
     (<[hostname := mkHostSummary ReadyOffer (statusPlacingOfferExpiration s) (offers s)]>
        (hostOfferIndex p))
     (availableHosts p) (timedOffers p) (offerHoldTime p)
     (scalar.Add (readyResources p) (UnreservedAmount s))
     (scalar.Subtract (placingResources p) (UnreservedAmount s))).
Proof.
  intros Hs Hp. unfold ReturnUnusedOffers, CasStatus. rewrite Hs.
  rewrite decide_True by done. done.
Qed.

Lemma ReturnUnusedOffers_not_placing hostname p s :
  hostOfferIndex p !! hostname = Some s -> status s <> PlacingOffer ->
  ReturnUnusedOffers hostname p = (Some "Invalid old status", p).
Proof.
  intros Hs Hp. unfold ReturnUnusedOffers, CasStatus. rewrite Hs.
  rewrite decide_False by done. done.
Qed.

Lemma ReturnUnusedOffers_absent hostname p :
  hostOfferIndex p !! hostname = None -> ReturnUnusedOffers hostname p = (None, p).
Proof. intros Hs. unfold ReturnUnusedOffers. by rewrite Hs. Qed.

(** Releasing, one after the other, hosts that are PLACING. *)
Lemma releaseAll_placing l : forall q,
  NoDup l.*1 ->
  (forall h os, (h, os) ∈ l ->
     exists s, hostOfferIndex q !! h = Some s /\ status s = PlacingOffer /\
               os = (map_to_list (unreservedOffers s)).*2) ->
  placingResources (releaseAll l.*1 q) =
    scalar.Subtract (placingResources q) (scalar_offer.FromOffers (concat l.*2)) /\
  readyResources (releaseAll l.*1 q) =
    scalar.Add (readyResources q) (scalar_offer.FromOffers (concat l.*2)) /\
  timedOffers (releaseAll l.*1 q) = timedOffers q /\
  (forall h, h ∉ l.*1 ->
     hostOfferIndex (releaseAll l.*1 q) !! h = hostOfferIndex q !! h) /\
  (forall h os, (h, os) ∈ l ->
     exists s s', hostOfferIndex q !! h = Some s /\
       hostOfferIndex (releaseAll l.*1 q) !! h = Some s' /\
       status s' = ReadyOffer /\ offers s' = offers s).
Proof.
  induction l as [|[h0 os0] l IH]; intros q Hnd Hpl.
  { simpl. unfold scalar_offer.FromOffers. simpl.
    rewrite Subtract_zero_r, Add_zero_r. split; [done|]. split; [done|].
    split; [done|]. split; [done|]. intros h os Hin. by apply elem_of_nil in Hin. }
  simpl in Hnd. apply NoDup_cons in Hnd as [Hnotin Hnd].
  destruct (Hpl h0 os0) as (s0 & Hs0 & Hp0 & Hos0); [apply elem_of_cons; by left|].
  pose proof (ReturnUnusedOffers_placing h0 q s0 Hs0 Hp0) as Hret.
  set (q1 := (ReturnUnusedOffers h0 q).2).
  assert (Hq1 : forall h, h <> h0 -> hostOfferIndex q1 !! h = hostOfferIndex q !! h).
  { intros h Hne. unfold q1. rewrite Hret. simpl. by rewrite lookup_insert_ne. }
  destruct (IH q1 Hnd) as (Hplacing & Hready & Ht & Hother & Hdone).
  { intros h os Hin. rewrite Hq1.
    - apply Hpl, elem_of_cons. by right.
    - intros ->. apply Hnotin, list_elem_of_fmap. by exists (h0, os). }
  change (releaseAll ((h0, os0) :: l).*1 q) with (releaseAll l.*1 q1).
  change (concat ((h0, os0) :: l).*2) with (os0 ++ concat l.*2).
  rewrite FromOffers_app.
  assert (UnreservedAmount s0 = scalar_offer.FromOffers os0) as HU by (by rewrite Hos0).
  split; [|split; [|split; [|split]]].
  - rewrite Hplacing. unfold q1. rewrite Hret. simpl.
    by rewrite Subtract_Subtract, HU.
  - rewrite Hready. unfold q1. rewrite Hret. simpl. by rewrite <- Add_assoc, HU.
  - rewrite Ht. unfold q1. by rewrite Hret.
  - intros h Hh. rewrite Hother.
    + apply Hq1. intros ->. apply Hh. simpl. apply elem_of_cons. by left.
    + intros Hin. apply Hh. simpl. apply elem_of_cons. by right.
  - intros h os Hin. apply elem_of_cons in Hin as [Heq|Hin].
    + inversion Heq; subst. exists s0. eexists. split; [done|].
      rewrite Hother by done. unfold q1. rewrite Hret. simpl.
      rewrite lookup_insert_eq. done.
    + destruct (Hdone h os Hin) as (s & s' & Hs & Hs' & Hr & Ho).
      exists s, s'. split; [|done]. rewrite <- Hq1; [done|].
      intros ->. apply Hnotin, list_elem_of_fmap. by exists (h0, os).
Qed.

Section Release.

Variable matchHostFilter :
  gmap string mesos.Offer -> hostsvc.HostFilter -> hostsvc.HostFilterResult.

(** Claiming hosts for placement and releasing all of them. *)
Lemma ClaimForPlace_releaseAll now order filter p :
  let c := ClaimForPlace matchHostFilter now order filter p in
  let delta := hostOffersDelta c.1.1.1 in
  let q := releaseAll (map_to_list c.1.1.1).*1 c.2 in
  placingResources q = placingResources p /\
  readyResources q = scalar.Add (scalar.Subtract (readyResources p) delta) delta /\
  (scalar.Contains (readyResources p) delta = true ->
     readyResources q = readyResources p) /\
  timedOffers q = timedOffers p /\
  (forall h, is_Some (c.1.1.1 !! h) ->
     exists s s', hostOfferIndex p !! h = Some s /\ hostOfferIndex q !! h = Some s' /\
       status s = ReadyOffer /\ status s' = ReadyOffer /\ offers s' = offers s).
Proof.
  cbv zeta.
  set (c := ClaimForPlace matchHostFilter now order filter p).
  assert (Hres : forall h os, (h, os) ∈ map_to_list c.1.1.1 ->
    exists s s', hostOfferIndex p !! h = Some s /\ hostOfferIndex c.2 !! h = Some s' /\
      status s = ReadyOffer /\ status s' = PlacingOffer /\ offers s' = offers s /\
      os = (map_to_list (unreservedOffers s')).*2).
  { intros h os Hin. apply elem_of_map_to_list in Hin.
    apply ClaimForPlace_result in Hin as (s & s' & Hs & Hs' & Hr & Hp & Hos).
    pose proof (ClaimForPlace_index matchHostFilter now order filter p h) as Hi.
    fold c in Hs', Hi. rewrite Hs, Hs' in Hi. destruct Hi as [Ho _].
    exists s, s'. unfold unreservedOffers. rewrite Ho. done. }
  destruct (releaseAll_placing (map_to_list c.1.1.1) c.2)
    as (Hplacing & Hready & Ht & _ & Hdone).
  { apply NoDup_fst_map_to_list. }
  { intros h os Hin. destruct (Hres h os Hin) as (s & s' & _ & Hs' & _ & Hp & _ & Hos).
    exists s'. done. }
  assert (placingResources c.2 =
            scalar.Add (placingResources p) (hostOffersDelta c.1.1.1) /\
          readyResources c.2 =
            scalar.Subtract (readyResources p) (hostOffersDelta c.1.1.1)) as [Hcp Hcr].
  { unfold c. destruct filter as [f|].
    - by rewrite ClaimForPlace_unfold.
    - simpl. by rewrite hostOffersDelta_empty, Add_zero_r, Subtract_zero_r. }
  fold (hostOffersDelta c.1.1.1) in Hplacing, Hready.
  split; [by rewrite Hplacing, Hcp, Subtract_Add_cancel|].
  split; [by rewrite Hready, Hcr|].
  split; [intros Hc; by rewrite Hready, Hcr, Add_Subtract_cancel|].
  split; [rewrite Ht; apply ClaimForPlace_timedOffers|].
  intros h [os Hh]. apply elem_of_map_to_list in Hh.
  destruct (Hres h os Hh) as (s & s' & Hs & Hs' & Hr & _ & Ho & _).
  destruct (Hdone h os Hh) as (s1 & s2 & Hs1 & Hs2 & Hr2 & Ho2).
  exists s, s2. rewrite Hs' in Hs1. inversion Hs1; subst.
  split; [done|]. split; [done|]. split; [done|]. split; [done|]. congruence.
Qed.

(** C6, as amended: for a host in PLACING, [ReturnUnusedOffers] reports no
    error, moves the host back to READY and moves its unreserved scalar from
    [placingResources] to [readyResources]; releasing every host that a
    [ClaimForPlace] returned brings [placingResources] back to its value
    before the claim, and [readyResources] too when it contained the claimed
    total, with every claimed host READY with its offers.  A repeated
    release of the same host, now READY, leaves the pool state unchanged
    but reports the error of the failed status change; a release of a host
    that is not in the pool leaves the state unchanged and reports no
    error. *)
Theorem ReturnUnusedOffers_release hostname p s :
  hostOfferIndex p !! hostname = Some s -> status s = PlacingOffer ->
  let r := ReturnUnusedOffers hostname p in
  (r.1 = None /\
   hostOfferIndex r.2 =
     <[hostname := mkHostSummary ReadyOffer (statusPlacingOfferExpiration s) (offers s)]>
       (hostOfferIndex p) /\
   placingResources r.2 = scalar.Subtract (placingResources p) (UnreservedAmount s) /\
   readyResources r.2 = scalar.Add (readyResources p) (UnreservedAmount s) /\
   timedOffers r.2 = timedOffers p) /\
  ReturnUnusedOffers hostname r.2 = (Some "Invalid old status", r.2) /\
  (forall q, hostOfferIndex q !! hostname = None ->
     ReturnUnusedOffers hostname q = (None, q)) /\
  (forall now order filter p0,
     let c := ClaimForPlace matchHostFilter now order filter p0 in
     let delta := hostOffersDelta c.1.1.1 in
     let q := releaseAll (map_to_list c.1.1.1).*1 c.2 in
     placingResources q = placingResources p0 /\
     (scalar.Contains (readyResources p0) delta = true ->
        readyResources q = readyResources p0) /\
     (forall h, is_Some (c.1.1.1 !! h) ->
        exists s0 s', hostOfferIndex p0 !! h = Some s0 /\
          hostOfferIndex q !! h = Some s' /\
          status s' = ReadyOffer /\ offers s' = offers s0)).
Proof.
  intros Hs Hp. cbv zeta. rewrite (ReturnUnusedOffers_placing hostname p s Hs Hp).
  simpl. split; [done|]. split; [|split].
  - apply (ReturnUnusedOffers_not_placing _ _
             (mkHostSummary ReadyOffer (statusPlacingOfferExpiration s) (offers s))).
    + simpl. apply lookup_insert_eq.
    + done.
  - apply ReturnUnusedOffers_absent.
  - intros now order filter p0.
    destruct (ClaimForPlace_releaseAll now order filter p0)
      as (H1 & _ & H3 & _ & H5).
    split; [done|]. split; [done|]. intros h Hh.
    destruct (H5 h Hh) as (s0 & s' & ? & ? & ? & ? & ?). exists s0, s'. done.
Qed.

End Release.

(** C6 on the fixture: agent1 is PLACING in [pool4claimed]. *)
Lemma ReturnUnusedOffers_release_witness :
  hostOfferIndex fixtures.pool4claimed !! "agent1" =
    Some (mkHostSummary PlacingOffer 1
            {["offer1" := fixtures.offer1; "offer3" := fixtures.offer3]}) /\
  readyResources (ReturnUnusedOffers "agent1" fixtures.pool4claimed).2 =
    readyResources fixtures.pool4 /\
  placingResources (ReturnUnusedOffers "agent1" fixtures.pool4claimed).2 =
    placingResources fixtures.pool4 /\
  ReturnUnusedOffers "agent1" (ReturnUnusedOffers "agent1" fixtures.pool4claimed).2 =
    (Some "Invalid old status", (ReturnUnusedOffers "agent1" fixtures.pool4claimed).2).
Proof.
  assert (hostOfferIndex fixtures.pool4claimed !! "agent1" =
          Some (mkHostSummary PlacingOffer 1
                  {["offer1" := fixtures.offer1; "offer3" := fixtures.offer3]})) as Hs
    by (vm_compute; reflexivity).
  split; [exact Hs|]. split; [vm_compute; reflexivity|].
  split; [vm_compute; reflexivity|].
  exact (proj1 (proj2 (ReturnUnusedOffers_release fixtures.matchResources "agent1"
                         fixtures.pool4claimed _ Hs eq_refl))).
Defined.

(** C6 as stated fails: releasing agent1 a second time, when it is READY
    again, leaves the pool as it is but reports an error. *)
Lemma ReturnUnusedOffers_release_counterexample :
  let p1 := (ReturnUnusedOffers "agent1" fixtures.pool4claimed).2 in
  placingAt fixtures.pool4claimed "agent1" /\
  (ReturnUnusedOffers "agent1" fixtures.pool4claimed).1 = None /\
  status <$> hostOfferIndex p1 !! "agent1" = Some ReadyOffer /\
  (ReturnUnusedOffers "agent1" p1).2 = p1 /\
  (ReturnUnusedOffers "agent1" p1).1 = Some "Invalid old status" /\
  (ReturnUnusedOffers "agent1" p1).1 <> None.
Proof.
  cbv zeta. split; [eexists; split; [vm_compute; reflexivity|reflexivity]|].
  split; [vm_compute; reflexivity|]. split; [vm_compute; reflexivity|].
  assert ((ReturnUnusedOffers "agent1"
             (ReturnUnusedOffers "agent1" fixtures.pool4claimed).2).1 =
          Some "Invalid old status") as H by (vm_compute; reflexivity).
  split; [vm_compute; reflexivity|]. split; [exact H|]. rewrite H. discriminate.
Qed.

(** ** The two indices of the pool agree *)

Lemma bag_same_index p p' h :
  hostOfferIndex p' !! h = hostOfferIndex p !! h -> bag p' h = bag p h.
Proof. unfold bag. by intros ->. Qed.

(** A call that adds no entry and changes no bag at the ids that keep an
    entry preserves the agreement of the indices. *)
Lemma indexed_transfer p p' :
  (forall id t, timedOffers p' !! id = Some t ->
     timedOffers p !! id = Some t /\ forall h, bag p' h !! id = bag p h !! id) ->
  indexed p -> indexed p'.
Proof.
  intros Hsame Hidx id t Ht. destruct (Hsame id t Ht) as [Ht0 Hbag].
  destruct (Hidx id t Ht0) as [Hin Huniq]. split.
  - by rewrite Hbag.
  - intros h Hh. apply Huniq. by rewrite <- Hbag.
Qed.

Lemma AddOffers_indexed now offers p :
  freshOffers p offers -> indexed p -> indexed (AddOffers now offers p).
Proof.
  intros [Hfresh Hagree] Hidx id t Ht. unfold AddOffers in *.
  set (e := now + offerHoldTime p) in *.
  set (p1 := foldl (addOne e) p offers) in *.
  assert (Hbag2 : forall h, bag (foldl (timeOne e) p1 offers) h = bag p1 h).
  { intros h. apply bag_same_index. by rewrite foldl_timeOne_index. }
  apply foldl_timeOne_timedOffers in Ht as [[Ht Hnone]|(o & Ho & Hid & ->)].
  - unfold p1 in Ht. rewrite foldl_addOne_timedOffers in Ht.
    destruct (Hidx id t Ht) as [Hin Huniq]. split.
    + rewrite Hbag2. apply foldl_addOne_bag. by left.
    + intros h Hh. rewrite Hbag2 in Hh.
      apply foldl_addOne_bag in Hh as [Hh|(o & Ho & _ & Hid)]; [by apply Huniq|].
      by destruct (Hnone o Ho).
  - simpl. split.
    + rewrite Hbag2. apply foldl_addOne_bag. right. by exists o.
    + intros h Hh. rewrite Hbag2 in Hh.
      apply foldl_addOne_bag in Hh as [Hh|(o' & Ho' & Hh' & Hid')].
      * apply (Hfresh o h Ho). by rewrite Hid.
      * rewrite <- Hh'. apply Hagree; [done|done|congruence].
Qed.

Lemma RescindOffer_indexed offerID p :
  indexed p -> indexed (RescindOffer offerID p).2.
Proof.
  apply indexed_transfer. intros id t Ht.
  rewrite RescindOffer_timedOffers in Ht.
  apply lookup_delete_Some in Ht as [Hne Ht]. split; [done|].
  intros h. rewrite RescindOffer_bag.
  destruct (timedOffers p !! offerID) as [tx|]; [|done].
  destruct (decide (h = Hostname tx)); [|done]. by apply lookup_delete_ne.
Qed.

Lemma RemoveExpiredOffers_indexed now p gone n p' :
  RemoveExpiredOffers now p = Some (gone, n, p') -> indexed p -> indexed p'.
Proof.
  intros Hrun. destruct (RemoveExpiredOffers_run now p)
    as (q & Heq & Ht & _ & _ & Hkept & _).
  { eapply RemoveExpiredOffers_inv; eauto. }
  rewrite Hrun in Heq. inversion Heq; subst q. clear Heq.
  apply indexed_transfer. intros id t Hid. rewrite Ht in Hid.
  apply map_lookup_filter_Some in Hid as [Hid Hexp]. simpl in Hexp.
  split; [done|]. intros h. apply Hkept. intros t' Hid' Hexp'. congruence.
Qed.

Lemma ClaimForLaunch_indexed hostname useReserved p res p' :
  ClaimForLaunch hostname useReserved p = Some (res, p') -> indexed p -> indexed p'.
Proof.
  intros Hrun. apply ClaimForLaunch_spec in Hrun.
  destruct Hrun as [(err & _ & Heq)|(s & offerMap & _ & _ & _ & _ & Hbag & Ht)].
  { by subst. }
  apply indexed_transfer. intros id t Hid. rewrite Ht in Hid.
  apply map_lookup_filter_Some in Hid as [Hid Hnone]. simpl in Hnone.
  split; [done|]. intros h. rewrite Hbag. rewrite decide_False; [done|].
  intros [_ [o Ho]]. congruence.
Qed.

Lemma ReturnUnusedOffers_indexed hostname p :
  indexed p -> indexed (ReturnUnusedOffers hostname p).2.
Proof.
  apply indexed_transfer. intros id t Hid.
  rewrite ReturnUnusedOffers_timedOffers in Hid. split; [done|].
  intros h. by rewrite ReturnUnusedOffers_bag.
Qed.

Lemma ResetExpiredHostSummaries_indexed now p :
  indexed p -> indexed (ResetExpiredHostSummaries now p).2.
Proof.
  destruct (ResetExpiredHostSummaries_inv now p) as [Ht Hbag].
  apply indexed_transfer. intros id t Hid. rewrite Ht in Hid.
  split; [done|]. intros h. by rewrite Hbag.
Qed.

Lemma NewOfferPool_indexed hold : indexed (NewOfferPool hold).
Proof. intros id t Ht. simpl in Ht. by rewrite lookup_empty in Ht. Qed.

Section Invariant.

Variable matchHostFilter :
  gmap string mesos.Offer -> hostsvc.HostFilter -> hostsvc.HostFilterResult.

Lemma ClaimForPlace_indexed now order filter p :
  indexed p -> indexed (ClaimForPlace matchHostFilter now order filter p).2.
Proof.
  apply indexed_transfer. intros id t Hid.
  rewrite ClaimForPlace_timedOffers in Hid. split; [done|].
  intros h. f_equal. unfold bag.
  pose proof (ClaimForPlace_index matchHostFilter now order filter p h) as Hi.
  destruct (hostOfferIndex p !! h) as [s|],
    (hostOfferIndex (ClaimForPlace matchHostFilter now order filter p).2 !! h)
      as [s'|]; simpl; try done.
  by destruct Hi as [-> _].
Qed.

Lemma step_indexed o p p' :
  match o with
  | OpAddOffers _ offers => freshOffers p offers
  | _ => True
  end ->
  step matchHostFilter o p = Some p' -> indexed p -> indexed p'.
Proof.
  destruct o; simpl; intros Hfresh Hstep.
  - inversion Hstep; subst. by apply AddOffers_indexed.
  - inversion Hstep; subst. apply RescindOffer_indexed.
  - destruct (RemoveExpiredOffers now p) as [[[gone n] q]|] eqn:Hr; [|done].
    simpl in Hstep. inversion Hstep; subst. eapply RemoveExpiredOffers_indexed; eauto.
  - inversion Hstep; subst. apply ClaimForPlace_indexed.
  - destruct (ClaimForLaunch hostname useReservedOffers p) as [[res q]|] eqn:Hr; [|done].
    simpl in Hstep. inversion Hstep; subst. eapply ClaimForLaunch_indexed; eauto.
  - inversion Hstep; subst. apply ReturnUnusedOffers_indexed.
  - inversion Hstep; subst. apply ResetExpiredHostSummaries_indexed.
Qed.

Lemma run_indexed ops : forall p p',
  freshRun matchHostFilter ops p ->
  run matchHostFilter ops p = Some p' -> indexed p -> indexed p'.
Proof.
  induction ops as [|o ops IH]; intros p p' Hfresh Hrun Hidx; simpl in *.
  { by inversion Hrun; subst. }
  destruct Hfresh as [Ho Hrest].
  destruct (step matchHostFilter o p) as [p1|] eqn:Hstep; [|done]. simpl in Hrun.
  eapply IH; [done|done|]. eapply step_indexed; eauto.
Qed.

(** C8, as amended: in every pool state reached from the empty pool by a
    sequence of [AddOffers], [RescindOffer], [RemoveExpiredOffers],
    [ClaimForPlace], [ClaimForLaunch], [ReturnUnusedOffers] (and
    [ResetExpiredHostSummaries]) in which offer ids are unique, that is in
    which no [AddOffers] delivers an id held in the bag of another host or
    twice with different hostnames, every offer id of [timedOffers] is in
    the bag of exactly one host summary, that of the hostname its entry
    records. *)
Theorem reachable_indexed hold ops p :
  freshRun matchHostFilter ops (NewOfferPool hold) ->
  run matchHostFilter ops (NewOfferPool hold) = Some p ->
  indexed p.
Proof.
  intros Hfresh Hrun. eapply run_indexed; [done|done|]. apply NewOfferPool_indexed.
Qed.

End Invariant.

(** C8 on the fixture [day]. *)
Lemma reachable_indexed_witness :
  freshRun fixtures.matchResources fixtures.day (NewOfferPool 60) /\
  exists p, run fixtures.matchResources fixtures.day (NewOfferPool 60) = Some p /\
            indexed p.
Proof.
  assert (freshRun fixtures.matchResources fixtures.day (NewOfferPool 60)) as Hfresh.
  { split.
    - split.
      + intros o h _ [x Hx]. unfold bag in Hx. simpl in Hx.
        rewrite lookup_empty in Hx. simpl in Hx. by rewrite lookup_empty in Hx.
      + intros o o' Ho Ho' Hid.
        repeat (apply elem_of_cons in Ho as [->|Ho]);
          try (by apply elem_of_nil in Ho);
          repeat (apply elem_of_cons in Ho' as [->|Ho']);
          try (by apply elem_of_nil in Ho');
          first [reflexivity | discriminate Hid].
    - vm_compute. tauto. }
  split; [exact Hfresh|].
  eexists. split; [vm_compute; reflexivity|].
  eapply (reachable_indexed fixtures.matchResources 60 fixtures.day).
  - exact Hfresh.
  - vm_compute. reflexivity.
Defined.

(** C8 as stated fails: when the same offer id is added for two hosts, the
    id is in the bag of both, and only one of them is the host that
    [timedOffers] records. *)
Lemma reachable_indexed_counterexample :
  exists p, run fixtures.matchResources fixtures.twice (NewOfferPool 60) = Some p /\
    timedOffers p !! "offer1" = Some (mkTimedOffer "agent2" 60) /\
    is_Some (bag p "agent1" !! "offer1") /\
    is_Some (bag p "agent2" !! "offer1") /\
    ~ indexed p.
Proof.
  eexists. split; [vm_compute; reflexivity|].
  split; [vm_compute; reflexivity|].
  assert (is_Some (bag (AddOffers 0 [fixtures.getMesosOffer "agent2" "offer1" 10 20]
                          (AddOffers 0 [fixtures.getMesosOffer "agent1" "offer1" 10 20]
                             (NewOfferPool 60))) "agent1" !! "offer1")) as H1.
  { vm_compute. eexists. reflexivity. }
  split; [exact H1|]. split; [vm_compute; eexists; reflexivity|].
  intros Hidx.
  destruct (Hidx "offer1" (mkTimedOffer "agent2" 60)) as [_ Huniq];
    [vm_compute; reflexivity|].
  specialize (Huniq "agent1" H1). discriminate Huniq.
Qed.

(** ** Task tracker *)

(** C3: for a tracked task, [MarkItDone] subtracts the task's resource from
    the allocation of its pool exactly when the state of the task is one of
    READY, PLACING, PLACED, LAUNCHING, LAUNCHED, RUNNING, RESERVED, and
    leaves every allocation as it is otherwise, in particular from
    INITIALIZED and PENDING; the task then is gone from the tracker, so a
    second [MarkItDone] of it subtracts nothing. *)
Theorem MarkItDone_allocation id tr t :
  tracker.tasks tr !! id = Some t ->
  let r := tracker.MarkItDone id tr in
  r.1 = None /\
  tracker.allocation r.2 =
    (if decide (tracker.state t ∈
                  [tracker.READY; tracker.PLACING; tracker.PLACED; tracker.LAUNCHING;
                   tracker.LAUNCHED; tracker.RUNNING; tracker.RESERVED])
     then <[tracker.respool t :=
              scalar.Subtract (tracker.GetAllocation (tracker.respool t) tr)
                              (tracker.resource t)]> (tracker.allocation tr)
     else tracker.allocation tr) /\
  (tracker.state t = tracker.INITIALIZED \/ tracker.state t = tracker.PENDING ->
     tracker.allocation r.2 = tracker.allocation tr) /\
  tracker.tasks r.2 !! id = None /\
  tracker.allocation (tracker.MarkItDone id r.2).2 = tracker.allocation r.2.
Proof.
  intros Ht. cbv zeta.
  assert (tracker.MarkItDone id tr =
          (None, tracker.mkTracker (delete id (tracker.tasks tr))
                   (if tracker.holdsAllocation (tracker.state t)
                    then tracker.SubtractFromAllocation (tracker.respool t)
                           (tracker.resource t) (tracker.allocation tr)
                    else tracker.allocation tr))) as Hr.
  { unfold tracker.MarkItDone. by rewrite Ht. }
  rewrite Hr. simpl.
  split; [done|]. split; [|split; [|split]].
  - unfold tracker.SubtractFromAllocation, tracker.GetAllocation.
    case_decide as Hin.
    + repeat (apply elem_of_cons in Hin as [Hin|Hin]; [by rewrite Hin|]).
      by apply elem_of_nil in Hin.
    + destruct (tracker.state t); simpl; try done;
        exfalso; apply Hin; repeat first [by left | right].
  - intros [Hs|Hs]; by rewrite Hs.
  - apply lookup_delete_eq.
  - unfold tracker.MarkItDone. simpl. by rewrite lookup_delete_eq.
Qed.

(** C3 on the tracker of [TestMarkItDone]: task 3 is READY, and its pool's
    allocation goes to zero. *)
Lemma MarkItDone_allocation_witness :
  tracker.tasks fixtures.trackerOfTest !! "job1-3" =
    Some (tracker.mkRMTask tracker.READY fixtures.taskResources "respool-3") /\
  tracker.GetAllocation "respool-3"
    (tracker.MarkItDone "job1-3" fixtures.trackerOfTest).2 = scalar.zero /\
  tracker.allocation
    (tracker.MarkItDone "job1-3"
       (tracker.MarkItDone "job1-3" fixtures.trackerOfTest).2).2 =
  tracker.allocation (tracker.MarkItDone "job1-3" fixtures.trackerOfTest).2.
Proof.
  assert (tracker.tasks fixtures.trackerOfTest !! "job1-3" =
          Some (tracker.mkRMTask tracker.READY fixtures.taskResources "respool-3")) as H
    by (vm_compute; reflexivity).
  split; [exact H|]. split; [vm_compute; reflexivity|].
  exact (proj2 (proj2 (proj2 (proj2
           (MarkItDone_allocation "job1-3" fixtures.trackerOfTest _ H))))).
Defined.

(** [TestMarkItDone], on the model: the allocation of the pools of the
    INITIALIZED and the PENDING task stays, that of the READY task is given
    back. *)
Example TestMarkItDone :
  let tr1 := (tracker.MarkItDone "job1-1" fixtures.trackerOfTest).2 in
  let tr2 := (tracker.MarkItDone "job1-2" tr1).2 in
  let tr3 := (tracker.MarkItDone "job1-3" tr2).2 in
  tracker.GetAllocation "respool-1" tr1 = fixtures.taskResources /\
  tracker.GetAllocation "respool-2" tr2 = fixtures.taskResources /\
  tracker.GetAllocation "respool-3" tr3 = scalar.zero.
Proof. vm_compute. done. Qed.

(** ** Task status updates *)

(** C7, as amended: when a status event reports FAILED for a stored task,
    then, if the reason is retryable and the task's failure count is below
    its maximum, the runtime is rewritten to INITIALIZED with the failure
    count incremented and a mesos task id made from the newly drawn run id
    (another id than before whenever that run id is another), and the task
    is handed to [EnqueueGangs] for the pool of its job when the config of
    the job can be read from the job store, while nothing is enqueued when
    that read fails; if no retry applies, the runtime is written as FAILED
    with the reason of the event, the mesos task id and the failure count
    stay, and nothing is enqueued. *)
Theorem ProcessStatusUpdate_failed retryable GetJobConfig newRunID ev w info :
  event.taskStore w !!
    (event.mesosJobID (event.statusTaskId ev),
     event.mesosInstanceID (event.statusTaskId ev)) = Some info ->
  event.statusState ev = event.TaskState_FAILED ->
  0 <= event.FailuresCount (event.Runtime info) ->
  event.MaxFailures info < 2 ^ 32 ->
  let r := event.ProcessStatusUpdate retryable GetJobConfig newRunID ev w in
  r.1 = None /\
  exists info',
    event.taskStore r.2 !!
      (event.mesosJobID (event.statusTaskId ev),
       event.mesosInstanceID (event.statusTaskId ev)) = Some info' /\
    event.JobId info' = event.JobId info /\
    event.InstanceId info' = event.InstanceId info /\
    if retryable (event.statusReason ev) &&
       (event.FailuresCount (event.Runtime info) <? event.MaxFailures info)
    then
      event.State (event.Runtime info') = event.TaskState_INITIALIZED /\
      event.FailuresCount (event.Runtime info') =
        event.FailuresCount (event.Runtime info) + 1 /\
      event.TaskId (event.Runtime info') =
        event.mkMesosTaskID (event.JobId info) (event.InstanceId info) newRunID /\
      (newRunID <> event.mesosRunID (event.TaskId (event.Runtime info)) ->
         event.TaskId (event.Runtime info') <> event.TaskId (event.Runtime info)) /\
      match GetJobConfig (event.JobId info) with
      | inl jobConfig =>
          event.enqueued r.2 =
            event.enqueued w ++
              [event.mkEnqueueGangsRequest (event.RespoolID jobConfig)
                 [event.mkGang [(event.JobId info, event.InstanceId info)] jobConfig]]
      | inr _ => event.enqueued r.2 = event.enqueued w
      end
    else
      event.State (event.Runtime info') = event.TaskState_FAILED /\
      event.Reason (event.Runtime info') = event.statusReason ev /\
      event.FailuresCount (event.Runtime info') =
        event.FailuresCount (event.Runtime info) /\
      event.TaskId (event.Runtime info') = event.TaskId (event.Runtime info) /\
      event.enqueued r.2 = event.enqueued w.
Proof.
  intros Hinfo Hfailed Hcount Hmax. cbv zeta. unfold event.ProcessStatusUpdate.
  rewrite Hinfo, Hfailed. simpl.
  destruct (retryable (event.statusReason ev) &&
            (event.FailuresCount (event.Runtime info) <? event.MaxFailures info))
    eqn:Hretry; simpl.
  - split; [done|]. eexists. split; [apply lookup_insert_eq|]. simpl.
    apply andb_true_iff in Hretry as [_ Hlt]. apply Z.ltb_lt in Hlt.
    split; [done|]. split; [done|]. split; [done|]. split.
    { unfold uint32. apply Z.mod_small. lia. }
    split; [done|]. split.
    + intros Hnew Heq. apply Hnew. by rewrite <- Heq.
    + by destruct (GetJobConfig (event.JobId info)).
  - split; [done|]. eexists. split; [apply lookup_insert_eq|]. done.
Qed.

(** C7 on [TestProcessTaskFailedStatusUpdateWithRetry]. *)
Lemma ProcessStatusUpdate_failed_witness :
  let r := event.ProcessStatusUpdate fixtures.retryLaunchFailed fixtures.jobStoreOfTest
             "run-2" fixtures.failedEvent fixtures.worldOfTest in
  r.1 = None /\
  exists info',
    event.taskStore r.2 !! ("job", 0) = Some info' /\
    event.State (event.Runtime info') = event.TaskState_INITIALIZED /\
    event.FailuresCount (event.Runtime info') = 1 /\
    event.TaskId (event.Runtime info') = event.mkMesosTaskID "job" 0 "run-2" /\
    event.Message (event.Runtime info') =
      "Rescheduled due to task failure status: testFailure" /\
    event.enqueued r.2 =
      [event.mkEnqueueGangsRequest (Some "respool-1")
         [event.mkGang [("job", 0)] fixtures.jobConfigOfTest]].
Proof.
  cbv zeta.
  destruct (ProcessStatusUpdate_failed fixtures.retryLaunchFailed
              fixtures.jobStoreOfTest "run-2"
              fixtures.failedEvent fixtures.worldOfTest fixtures.runningTask)
    as (Herr & info' & Hstore & _ & _ & Hst & Hcount & Hid & _ & Henq);
    [vm_compute; reflexivity|reflexivity|vm_compute; discriminate|reflexivity|].
  split; [exact Herr|]. exists info'.
  split; [exact Hstore|]. split; [exact Hst|].
  split; [exact Hcount|]. split; [exact Hid|]. split; [|exact Henq].
  assert (event.taskStore
            (event.ProcessStatusUpdate fixtures.retryLaunchFailed
               fixtures.jobStoreOfTest "run-2"
               fixtures.failedEvent fixtures.worldOfTest).2 !! ("job", 0) =
          Some (event.mkTaskInfo "job" 0
                  (event.mkRuntimeInfo (event.mkMesosTaskID "job" 0 "run-2")
                     event.TaskState_INITIALIZED event.TaskState_SUCCEEDED
                     "REASON_CONTAINER_LAUNCH_FAILED"
                     "Rescheduled due to task failure status: testFailure" 1)
                  3)) as Hwhole by (vm_compute; reflexivity).
  change (event.mesosJobID (event.statusTaskId fixtures.failedEvent),
          event.mesosInstanceID (event.statusTaskId fixtures.failedEvent))
    with ("job", 0) in Hstore.
  rewrite Hwhole in Hstore. by inversion Hstore.
Defined.

(** C7 as stated fails on [TestProcessTaskFailedRetryDBFailure]: the event
    reports FAILED with the retried reason, the task has failed less often
    than it may, and the job store fails to give the config of the job;
    the runtime is rewritten to INITIALIZED with one failure counted, and
    the task is not handed to [EnqueueGangs]. *)
Lemma ProcessStatusUpdate_failed_counterexample :
  let r := event.ProcessStatusUpdate fixtures.retryLaunchFailed fixtures.jobStoreDown
             "run-2" fixtures.failedEvent fixtures.worldOfTest in
  event.statusState fixtures.failedEvent = event.TaskState_FAILED /\
  fixtures.retryLaunchFailed (event.statusReason fixtures.failedEvent) = true /\
  event.FailuresCount (event.Runtime fixtures.runningTask) <
    event.MaxFailures fixtures.runningTask /\
  r.1 = None /\
  event.taskStore r.2 !! ("job", 0) =
    Some (event.mkTaskInfo "job" 0
            (event.mkRuntimeInfo (event.mkMesosTaskID "job" 0 "run-2")
               event.TaskState_INITIALIZED event.TaskState_SUCCEEDED
               "REASON_CONTAINER_LAUNCH_FAILED"
               "Rescheduled due to task failure status: testFailure" 1)
            3) /\
  event.enqueued r.2 = [] /\
  ~ (exists request, request ∈ event.enqueued r.2).
Proof.
  cbv zeta. split; [reflexivity|]. split; [reflexivity|]. split; [reflexivity|].
  split; [reflexivity|]. split; [vm_compute; reflexivity|].
  split; [reflexivity|]. intros [request Hin]. by apply elem_of_nil in Hin.
Qed.

(** [TestProcessStatusUpdate], on the model: a RUNNING event writes the
    state and nothing else. *)
Example TestProcessStatusUpdate :
  let info := event.mkTaskInfo "job" 0
                (event.mkRuntimeInfo (event.mkMesosTaskID "job" 0 "run-1")
                   event.TaskState_INITIALIZED event.TaskState_SUCCEEDED "" "" 0)
                0 in
  let ev := event.mkTaskStatus (event.mkMesosTaskID "job" 0 "run-1")
              event.TaskState_RUNNING "" "" in
  event.ProcessStatusUpdate fixtures.retryLaunchFailed fixtures.jobStoreOfTest
    "run-2" ev (event.mkWorld {[("job", 0) := info]} []) =
  (None,
   event.mkWorld
     {[("job", 0) :=
         event.mkTaskInfo "job" 0
           (event.mkRuntimeInfo (event.mkMesosTaskID "job" 0 "run-1")
              event.TaskState_RUNNING event.TaskState_SUCCEEDED "" "" 0)
           0]} []).
Proof. vm_compute. reflexivity. Qed.

(** [TestProcessTaskFailedStatusUpdateNoRetry], on the model: with no
    restart policy the runtime is written as FAILED and nothing is
    enqueued. *)
Example TestProcessTaskFailedStatusUpdateNoRetry :
  let info := event.mkTaskInfo "job" 0
                (event.mkRuntimeInfo (event.mkMesosTaskID "job" 0 "run-1")
                   event.TaskState_INITIALIZED event.TaskState_SUCCEEDED "" "" 0)
                0 in
  let ev := event.mkTaskStatus (event.mkMesosTaskID "job" 0 "run-1")
              event.TaskState_FAILED "REASON_CONTAINER_LAUNCH_FAILED" "" in
  event.ProcessStatusUpdate fixtures.retryLaunchFailed fixtures.jobStoreOfTest
    "run-2" ev (event.mkWorld {[("job", 0) := info]} []) =
  (None,
   event.mkWorld
     {[("job", 0) :=
         event.mkTaskInfo "job" 0
           (event.mkRuntimeInfo (event.mkMesosTaskID "job" 0 "run-1")
              event.TaskState_FAILED event.TaskState_SUCCEEDED
              "REASON_CONTAINER_LAUNCH_FAILED" "" 0)
           0]} []).
Proof. vm_compute. reflexivity. Qed.

(** ** Job service *)

(** C9, as amended: [CreateJob] and [RefreshJob], the calls of the job
    service that check leadership, fail on an instance that is not the
    leader without touching the state behind the handler, and the error
    they surface is of kind UNAVAILABLE. *)
Theorem non_leader_is_unavailable (State Request Response : Type)
    (createJobAsLeader refreshJobAsLeader :
       Request -> State -> (Response + stateless.error) * State)
    (req : Request) (h : stateless.serviceHandler State) :
  stateless.isLeader State h = false ->
  stateless.surfaced
    (stateless.CreateJob State Request Response createJobAsLeader req h).1 =
    Some stateless.CodeUnavailable /\
  (stateless.CreateJob State Request Response createJobAsLeader req h).2 =
    stateless.world State h /\
  stateless.surfaced
    (stateless.RefreshJob State Request Response refreshJobAsLeader req h).1 =
    Some stateless.CodeUnavailable /\
  (stateless.RefreshJob State Request Response refreshJobAsLeader req h).2 =
    stateless.world State h.
Proof.
  intros Hl. unfold stateless.CreateJob, stateless.RefreshJob. rewrite Hl. done.
Qed.

(** C9 on a handler over a one-point state. *)
Lemma non_leader_is_unavailable_witness :
  let h := stateless.mkServiceHandler unit false tt in
  let ok := fun (_ : unit) (s : unit) => (@inl unit stateless.error tt, s) in
  stateless.isLeader unit h = false /\
  stateless.surfaced (stateless.CreateJob unit unit unit ok tt h).1 =
    Some stateless.CodeUnavailable /\
  (stateless.CreateJob unit unit unit ok tt h).2 = stateless.world unit h /\
  stateless.surfaced (stateless.RefreshJob unit unit unit ok tt h).1 =
    Some stateless.CodeUnavailable /\
  (stateless.RefreshJob unit unit unit ok tt h).2 = stateless.world unit h.
Proof.
  cbv zeta. split; [reflexivity|].
  exact (non_leader_is_unavailable unit unit unit
           (fun _ s => (inl tt, s)) (fun _ s => (inl tt, s)) tt
           (stateless.mkServiceHandler unit false tt) eq_refl).
Defined.

(** C9 as stated fails: on a non-leader [CreateJob] surfaces UNAVAILABLE,
    which is not FAILED_PRECONDITION, and [PauseJobWorkflow], which changes
    the workflow of a job, does not fail at all when the job cache
    accepts the call. *)
Lemma non_leader_counterexample :
  let h := stateless.mkServiceHandler unit false tt in
  let ok := fun (_ : unit) (s : unit) => (@inl unit stateless.error tt, s) in
  stateless.isLeader unit h = false /\
  stateless.surfaced (stateless.CreateJob unit unit unit ok tt h).1 =
    Some stateless.CodeUnavailable /\
  stateless.surfaced (stateless.CreateJob unit unit unit ok tt h).1 <>
    Some stateless.CodeFailedPrecondition /\
  (stateless.PauseJobWorkflow unit unit unit ok tt h).1 = inl tt.
Proof. cbv zeta. split; [done|]. split; [done|]. split; [discriminate|done]. Qed.

(** * Further properties of the code *)

(** ** Instance ranges *)

Lemma foldl_rangeStep_runsOf l : forall ranges r prev,
  (let '(done, cur, last) := foldl jobdiff.rangeStep (ranges, Some r, prev) l in
   match cur with
   | Some c => done ++ [jobdiff.mkInstanceIDRange (jobdiff.From c) last]
   | None => done
   end) = ranges ++ jobdiff.runsOf (jobdiff.From r) prev l.
Proof.
  induction l as [|a l IH]; intros ranges r prev; [done|].
  cbn [foldl jobdiff.runsOf]. unfold jobdiff.rangeStep at 2.
  destruct (bool_decide (a <> uint32 (prev + 1))).
  - rewrite IH. simpl. by rewrite <- app_assoc.
  - by rewrite IH.
Qed.

Lemma convert_runsOf instIDs :
  jobdiff.convertInstanceIDListToInstanceRange instIDs =
  match merge_sort Z.le instIDs with
  | [] => []
  | a :: l => jobdiff.runsOf a a l
  end.
Proof.
  unfold jobdiff.convertInstanceIDListToInstanceRange.
  destruct (merge_sort Z.le instIDs) as [|a l]; [done|].
  cbn [foldl]. unfold jobdiff.rangeStep at 2.
  exact (foldl_rangeStep_runsOf l [] (jobdiff.mkInstanceIDRange a 0) a).
Qed.

(** In an ascending list of [uint32] values, the id after [prev] that is
    [prev + 1] modulo 2^32 is [prev + 1]. *)
Lemma next_id prev a :
  0 <= prev < 2 ^ 32 -> prev <= a < 2 ^ 32 ->
  a = uint32 (prev + 1) <-> a = prev + 1.
Proof.
  intros Hp Ha. unfold uint32.
  destruct (decide (prev + 1 < 2 ^ 32)) as [Hlt|Hge].
  - by rewrite Z.mod_small by lia.
  - assert (prev + 1 = 2 ^ 32) as -> by lia. rewrite Z.mod_same by lia. lia.
Qed.

Lemma runsOf_inRanges l : forall from prev x,
  from <= prev -> 0 <= prev < 2 ^ 32 ->
  StronglySorted Z.le (prev :: l) -> Forall (fun i => 0 <= i < 2 ^ 32) l ->
  jobdiff.inRanges x (jobdiff.runsOf from prev l) <-> from <= x <= prev \/ x ∈ l.
Proof.
  induction l as [|a l IH]; intros from prev x Hfrom Hprev Hsorted Hrange.
  { simpl. split.
    - intros (r & Hr & Hx). apply list_elem_of_singleton in Hr. subst r. by left.
    - intros [Hx|Hx]; [|by apply elem_of_nil in Hx].
      eexists. split; [apply list_elem_of_singleton; reflexivity|done]. }
  apply StronglySorted_inv in Hsorted as [Hsorted Hle].
  apply Forall_cons in Hle as [Hle _]. apply Forall_cons in Hrange as [Ha Hrange].
  cbn [jobdiff.runsOf]. case_bool_decide as Hnext.
  - split.
    + intros (r & Hr & Hx). apply elem_of_cons in Hr as [->|Hr]; [by left|].
      assert (jobdiff.inRanges x (jobdiff.runsOf a a l)) as Hin by (by exists r).
      apply IH in Hin; [|lia|done|done|done].
      right. destruct Hin as [Hin|Hin]; [|by apply elem_of_cons; right].
      apply elem_of_cons. left. lia.
    + intros [Hx|Hx].
      * eexists. split; [apply elem_of_cons; left; reflexivity|done].
      * assert (jobdiff.inRanges x (jobdiff.runsOf a a l)) as (r & Hr & Hxr).
        { apply IH; [lia|done|done|done|].
          apply elem_of_cons in Hx as [->|Hx]; [left; lia|by right]. }
        exists r. split; [by apply elem_of_cons; right|done].
  - assert (a = prev + 1) as Heq.
    { apply next_id; [done|lia|]. destruct (decide (a = uint32 (prev + 1))); tauto. }
    rewrite IH by (done || lia). rewrite elem_of_cons. subst a.
    split; intros [Hx|Hx]; try (left; lia); try (right; by right).
    + destruct (decide (x = prev + 1)) as [->|Hne]; [right; by left|left; lia].
    + destruct Hx as [->|Hx]; [left; lia|by right].
Qed.

(** X1: an instance id is in one of the ranges that
    [convertInstanceIDListToInstanceRange] returns exactly when it is one of
    the ids passed in; in particular no id is lost and none is invented,
    and an empty list gives no range. *)
Theorem convertInstanceIDListToInstanceRange_covers instIDs x :
  Forall (fun i => 0 <= i < 2 ^ 32) instIDs ->
  jobdiff.inRanges x (jobdiff.convertInstanceIDListToInstanceRange instIDs) <->
  x ∈ instIDs.
Proof.
  intros Hrange. rewrite convert_runsOf.
  pose proof (merge_sort_Permutation Z.le instIDs) as Hperm.
  pose proof (StronglySorted_merge_sort Z.le instIDs) as Hsorted.
  revert Hperm Hsorted. generalize (merge_sort Z.le instIDs). intros sorted Hperm Hsorted.
  rewrite <- Hperm in Hrange. rewrite <- Hperm. clear Hperm.
  destruct sorted as [|a l].
  { split; [intros (r & Hr & _); by apply elem_of_nil in Hr|].
    intros Hx. by apply elem_of_nil in Hx. }
  apply Forall_cons in Hrange as [Ha Hrange].
  rewrite runsOf_inRanges by (done || lia). rewrite elem_of_cons.
  split; [intros [Hx|Hx]; [left; lia|by right]|intros [->|Hx]; [left; lia|by right]].
Qed.

Lemma runsOf_apart l : forall lo from prev,
  lo < from -> from <= prev -> 0 <= prev < 2 ^ 32 ->
  StronglySorted Z.lt (prev :: l) -> Forall (fun i => 0 <= i < 2 ^ 32) l ->
  jobdiff.apart lo (jobdiff.runsOf from prev l) /\
  jobdiff.rangesSize (jobdiff.runsOf from prev l) = prev - from + 1 + Z.of_nat (length l).
Proof.
  induction l as [|a l IH]; intros lo from prev Hlo Hfrom Hprev Hsorted Hrange.
  { simpl. unfold jobdiff.rangesSize. simpl. split; [done|lia]. }
  apply StronglySorted_inv in Hsorted as [Hsorted Hlt].
  apply Forall_cons in Hlt as [Hlt _]. apply Forall_cons in Hrange as [Ha Hrange].
  cbn [jobdiff.runsOf]. case_bool_decide as Hnext.
  - assert (a <> prev + 1) as Hgap.
    { intros Heq. apply Hnext. apply next_id; [done|lia|done]. }
    destruct (IH (prev + 1) a a) as [Hapart Hsize]; [lia|lia|done|done|done|].
    split; [simpl; done|].
    unfold jobdiff.rangesSize in *. cbn [foldr]. rewrite Hsize. simpl. lia.
  - assert (a = prev + 1) as Heq.
    { apply next_id; [done|lia|]. destruct (decide (a = uint32 (prev + 1))); tauto. }
    destruct (IH lo from a) as [Hapart Hsize]; [done|lia|done|done|done|].
    split; [done|]. rewrite Hsize. simpl. lia.
Qed.

Lemma StronglySorted_le_lt l :
  NoDup l -> StronglySorted Z.le l -> StronglySorted Z.lt l.
Proof.
  induction l as [|a l IH]; intros Hnd Hs; [constructor|].
  apply NoDup_cons in Hnd as [Hnotin Hnd].
  apply StronglySorted_inv in Hs as [Hs Hle]. constructor; [by apply IH|].
  apply Forall_forall. intros b Hb. rewrite Forall_forall in Hle.
  specialize (Hle b Hb). assert (a <> b) by (intros ->; done). lia.
Qed.

(** X2: for ids without repetition, [convertInstanceIDListToInstanceRange]
    returns ranges in ascending order, each with [From <= To], any two
    successive ranges separated by at least one missing id (so the ranges
    are disjoint and as long as possible), and together they hold exactly
    as many ids as were passed in. *)
Theorem convertInstanceIDListToInstanceRange_canonical instIDs :
  Forall (fun i => 0 <= i < 2 ^ 32) instIDs -> NoDup instIDs ->
  jobdiff.apart (-1) (jobdiff.convertInstanceIDListToInstanceRange instIDs) /\
  jobdiff.rangesSize (jobdiff.convertInstanceIDListToInstanceRange instIDs) =
    Z.of_nat (length instIDs).
Proof.
  intros Hrange Hnd. rewrite convert_runsOf.
  pose proof (merge_sort_Permutation Z.le instIDs) as Hperm.
  pose proof (StronglySorted_merge_sort Z.le instIDs) as Hsorted.
  revert Hperm Hsorted. generalize (merge_sort Z.le instIDs). intros sorted Hperm Hsorted.
  rewrite <- Hperm in Hrange, Hnd. rewrite <- (Permutation_length Hperm). clear Hperm.
  destruct sorted as [|a l]; [done|].
  apply Forall_cons in Hrange as [Ha Hrange].
  destruct (runsOf_apart l (-1) a a) as [Hapart Hsize];
    [lia|lia|done|by apply StronglySorted_le_lt|done|].
  split; [done|]. rewrite Hsize. simpl. lia.
Qed.

(** The instances 7, 1, 3, 2 and 8 make the ranges 1-3 and 7-8. *)
Lemma convertInstanceIDListToInstanceRange_covers_witness :
  Forall (fun i => 0 <= i < 2 ^ 32) [7; 1; 3; 2; 8] /\
  jobdiff.convertInstanceIDListToInstanceRange [7; 1; 3; 2; 8] =
    [jobdiff.mkInstanceIDRange 1 3; jobdiff.mkInstanceIDRange 7 8] /\
  (jobdiff.inRanges 2 (jobdiff.convertInstanceIDListToInstanceRange [7; 1; 3; 2; 8]) <->
   2 ∈ [7; 1; 3; 2; 8]).
Proof.
  assert (Forall (fun i => 0 <= i < 2 ^ 32) [7; 1; 3; 2; 8]) as H
    by (repeat constructor; lia).
  split; [exact H|]. split; [vm_compute; reflexivity|].
  exact (convertInstanceIDListToInstanceRange_covers [7; 1; 3; 2; 8] 2 H).
Defined.

Lemma convertInstanceIDListToInstanceRange_canonical_witness :
  Forall (fun i => 0 <= i < 2 ^ 32) [7; 1; 3; 2; 8] /\ NoDup [7; 1; 3; 2; 8] /\
  jobdiff.apart (-1) (jobdiff.convertInstanceIDListToInstanceRange [7; 1; 3; 2; 8]) /\
  jobdiff.rangesSize (jobdiff.convertInstanceIDListToInstanceRange [7; 1; 3; 2; 8]) =
    Z.of_nat (length [7; 1; 3; 2; 8]).
Proof.
  assert (Forall (fun i => 0 <= i < 2 ^ 32) [7; 1; 3; 2; 8]) as H
    by (repeat constructor; lia).
  assert (NoDup [7; 1; 3; 2; 8]) as Hnd by (apply (bool_decide_unpack _); vm_compute; exact I).
  split; [exact H|]. split; [exact Hnd|].
  exact (convertInstanceIDListToInstanceRange_canonical [7; 1; 3; 2; 8] H Hnd).
Defined.

(** ** Hosts of the pool *)

Import poolsafety.

Lemma AddOffers_index_known now offers p h :
  is_Some (hostOfferIndex p !! h) ->
  is_Some (hostOfferIndex (AddOffers now offers p) !! h).
Proof.
  unfold AddOffers. rewrite foldl_timeOne_index.
  generalize (now + offerHoldTime p). intros e. revert p.
  induction offers as [|o l IH]; intros p Hh; [done|].
  cbn [foldl]. apply IH. rewrite addOne_index.
  destruct (decide (h = mesos.Hostname o)) as [->|Hne].
  - rewrite lookup_insert_eq. eauto.
  - by rewrite lookup_insert_ne.
Qed.

Lemma AddOffers_index_added now offers p o :
  o ∈ offers -> is_Some (hostOfferIndex (AddOffers now offers p) !! mesos.Hostname o).
Proof.
  unfold AddOffers. rewrite foldl_timeOne_index.
  generalize (now + offerHoldTime p). intros e. revert p.
  induction offers as [|o' l IH]; intros p Hin; [by apply elem_of_nil in Hin|].
  cbn [foldl]. apply elem_of_cons in Hin as [->|Hin]; [|by apply IH].
  assert (is_Some (hostOfferIndex (addOne e p o') !! mesos.Hostname o')) as Hk.
  { rewrite addOne_index, lookup_insert_eq. eauto. }
  revert Hk. generalize (addOne e p o'). clear. intros q.
  revert q. induction l as [|o l IH]; intros q Hk; [done|].
  cbn [foldl]. apply IH. rewrite addOne_index.
  destruct (decide (mesos.Hostname o' = mesos.Hostname o)) as [->|Hne].
  - rewrite lookup_insert_eq. eauto.
  - by rewrite lookup_insert_ne.
Qed.

Lemma ResetExpiredPlacingOfferStatus_spec now s :
  ResetExpiredPlacingOfferStatus now s =
  if decide (expiredPlacing now s)
  then (true, UnreservedAmount s,
        mkHostSummary ReadyOffer (statusPlacingOfferExpiration s) (offers s))
  else (false, scalar.zero, s).
Proof.
  unfold ResetExpiredPlacingOfferStatus, expiredPlacing.
  destruct (decide (status s = PlacingOffer /\ statusPlacingOfferExpiration s < now))
    as [[Hp Hlt]|Hno].
  - rewrite bool_decide_eq_true_2 by done.
    apply Z.ltb_lt in Hlt. by rewrite Hlt.
  - case_bool_decide as Hp; [|done]. simpl.
    destruct (statusPlacingOfferExpiration s <? now) eqn:Hlt; [|done].
    apply Z.ltb_lt in Hlt. tauto.
Qed.

Lemma foldl_resetOne_full now l : forall acc,
  NoDup l.*1 ->
  (forall k s, (k, s) ∈ l -> hostOfferIndex acc.2 !! k = Some s) ->
  (foldl (resetOne now) acc l).1 =
    acc.1 ++ (filter (fun e => expiredPlacing now e.2) l).*1 /\
  (forall h, hostOfferIndex (foldl (resetOne now) acc l).2 !! h =
     if decide (h ∈ l.*1)
     then (fun s => (ResetExpiredPlacingOfferStatus now s).2) <$>
            hostOfferIndex acc.2 !! h
     else hostOfferIndex acc.2 !! h) /\
  readyResources (foldl (resetOne now) acc l).2 =
    scalar.Add (readyResources acc.2) (resetAmount now l) /\
  placingResources (foldl (resetOne now) acc l).2 =
    scalar.Subtract (placingResources acc.2) (resetAmount now l) /\
  availableHosts (foldl (resetOne now) acc l).2 = availableHosts acc.2.
Proof.
  induction l as [|e l IH]; intros acc Hnd Hcur; cbn [foldl].
  { simpl. rewrite app_nil_r, Add_zero_r, Subtract_zero_r.
    split; [done|]. split; [|done]. done. }
  simpl in Hnd. apply NoDup_cons in Hnd as [Hnotin Hnd].
  assert (hostOfferIndex acc.2 !! e.1 = Some e.2) as He.
  { apply Hcur, elem_of_cons. left. by destruct e. }
  assert (Hstep :
    (resetOne now acc e).1 =
      acc.1 ++ (if decide (expiredPlacing now e.2) then [e.1] else []) /\
    (forall k, hostOfferIndex (resetOne now acc e).2 !! k =
       if decide (k = e.1)
       then Some (ResetExpiredPlacingOfferStatus now e.2).2
       else hostOfferIndex acc.2 !! k) /\
    readyResources (resetOne now acc e).2 =
      (if decide (expiredPlacing now e.2)
       then scalar.Add (readyResources acc.2) (UnreservedAmount e.2)
       else readyResources acc.2) /\
    placingResources (resetOne now acc e).2 =
      (if decide (expiredPlacing now e.2)
       then scalar.Subtract (placingResources acc.2) (UnreservedAmount e.2)
       else placingResources acc.2) /\
    availableHosts (resetOne now acc e).2 = availableHosts acc.2).
  { unfold resetOne. rewrite ResetExpiredPlacingOfferStatus_spec.
    destruct acc as [names q]. simpl in *.
    destruct (decide (expiredPlacing now e.2)); simpl.
    - split; [done|]. split; [|done]. intros k.
      destruct (decide (k = e.1)) as [->|Hne];
        [by rewrite lookup_insert_eq|by rewrite lookup_insert_ne].
    - rewrite app_nil_r. split; [done|]. split; [|done]. intros k.
      destruct (decide (k = e.1)) as [->|Hne]; done. }
  destruct Hstep as (Hn1 & Hi1 & Hr1 & Hp1 & Ha1).
  destruct (IH (resetOne now acc e) Hnd) as (Hn & Hi & Hr & Hp & Ha).
  { intros k s Hin. rewrite Hi1. rewrite decide_False.
    - apply Hcur, elem_of_cons. by right.
    - intros ->. apply Hnotin, list_elem_of_fmap. by exists (e.1, s). }
  split; [|split; [|split; [|split]]].
  - rewrite Hn, Hn1, filter_cons.
    destruct (decide (expiredPlacing now e.2)); simpl.
    + by rewrite <- app_assoc.
    + by rewrite app_nil_r.
  - intros h. rewrite Hi, (Hi1 h). simpl.
    destruct (decide (h = e.1)) as [->|Hne].
    + rewrite decide_False by done.
      rewrite decide_True by (apply elem_of_cons; by left). by rewrite He.
    + destruct (decide (h ∈ l.*1)) as [Hin|Hin].
      * rewrite decide_True by (apply elem_of_cons; by right). done.
      * rewrite decide_False; [done|]. intros Hc.
        apply elem_of_cons in Hc as [?|?]; done.
  - rewrite Hr, Hr1. simpl.
    destruct (decide (expiredPlacing now e.2)); [|done]. by rewrite Add_assoc.
  - rewrite Hp, Hp1. simpl.
    destruct (decide (expiredPlacing now e.2)); [|done]. by rewrite Subtract_Subtract.
  - by rewrite Ha, Ha1.
Qed.

Lemma ResetExpiredHostSummaries_index now p h :
  hostOfferIndex (ResetExpiredHostSummaries now p).2 !! h =
  (fun s => if decide (expiredPlacing now s)
            then mkHostSummary ReadyOffer (statusPlacingOfferExpiration s) (offers s)
            else s) <$> hostOfferIndex p !! h.
Proof.
  pose proof (NoDup_fst_map_to_list (hostOfferIndex p)) as Hnd.
  assert (Hl : forall k s, (k, s) ∈ map_to_list (hostOfferIndex p) <->
                           hostOfferIndex p !! k = Some s).
  { intros k s. apply elem_of_map_to_list. }
  destruct (foldl_resetOne_full now (map_to_list (hostOfferIndex p)) ([], p) Hnd)
    as (_ & Hi & _).
  { intros k s Hin. by apply Hl. }
  fold (ResetExpiredHostSummaries now p) in Hi. simpl in Hi. rewrite Hi.
  destruct (hostOfferIndex p !! h) as [s|] eqn:Hs.
  - rewrite decide_True.
    + simpl. rewrite ResetExpiredPlacingOfferStatus_spec.
      by destruct (decide (expiredPlacing now s)).
    + apply list_elem_of_fmap. exists (h, s). split; [done|]. by apply Hl.
  - by destruct (decide (h ∈ (map_to_list (hostOfferIndex p)).*1)).
Qed.

(** No call of the pool takes a host summary away. *)
Lemma step_keeps_host matchHostFilter o p p' h :
  step matchHostFilter o p = Some p' ->
  is_Some (hostOfferIndex p !! h) -> is_Some (hostOfferIndex p' !! h).
Proof.
  intros Hstep Hh. destruct o; simpl in Hstep.
  - inversion Hstep; subst. by apply AddOffers_index_known.
  - inversion Hstep; subst. rewrite RescindOffer_index.
    destruct (timedOffers p !! offerID) as [t|]; [|done].
    destruct (decide (h = Hostname t)); [|done].
    destruct Hh as [s Hs]. rewrite Hs. simpl. eauto.
  - destruct (RemoveExpiredOffers now p) as [[[gone n] q]|] eqn:Hq; [|done].
    simpl in Hstep. inversion Hstep; subst.
    destruct (RemoveExpiredOffers_run now p) as (p'' & Heq & _ & Hst & _).
    { eapply RemoveExpiredOffers_inv; eauto. }
    rewrite Hq in Heq. inversion Heq; subst p''. specialize (Hst h).
    destruct Hh as [s Hs]. rewrite Hs in Hst.
    destruct (hostOfferIndex p' !! h); [eauto|done].
  - inversion Hstep; subst.
    pose proof (ClaimForPlace_index matchHostFilter placingUntil order filter p h) as Hi.
    destruct Hh as [s Hs]. rewrite Hs in Hi. clear Hs.
    destruct (hostOfferIndex _ !! h); [eauto|done].
  - unfold ClaimForLaunch in Hstep.
    destruct (hostOfferIndex p !! hostname) as [s0|] eqn:Hs0; [|done]. simpl in Hstep.
    destruct (if useReservedOffers then _ else _) as [[offerMap s']|err];
      simpl in Hstep; inversion Hstep; subst; [|done].
    unfold decAvailable.
    destruct (HasAnyOffer s'), useReservedOffers; simpl;
      (destruct (decide (h = hostname)) as [->|Hne];
         [rewrite lookup_insert_eq; eauto|by rewrite lookup_insert_ne]).
  - inversion Hstep; subst. rewrite ReturnUnusedOffers_index.
    destruct (decide (h = hostname)); [|done].
    destruct Hh as [s Hs]. rewrite Hs. simpl. eauto.
  - inversion Hstep; subst.
    pose proof (ResetExpiredHostSummaries_index now p h) as Hi.
    destruct Hh as [s Hs]. rewrite Hs in Hi. clear Hs.
    destruct (hostOfferIndex _ !! h); [eauto|done].
Qed.

Lemma step_hostsKnown matchHostFilter o p p' :
  step matchHostFilter o p = Some p' -> hostsKnown p -> hostsKnown p'.
Proof.
  intros Hstep Hk id t Ht.
  assert (Hold : timedOffers p !! id = Some t ->
                 is_Some (hostOfferIndex p' !! Hostname t)).
  { intros Hid. eapply step_keeps_host; [done|]. by eapply Hk. }
  destruct o; simpl in Hstep.
  - inversion Hstep; subst. unfold AddOffers in Ht.
    apply foldl_timeOne_timedOffers in Ht as [[Ht _]|(o & Ho & _ & ->)].
    + rewrite foldl_addOne_timedOffers in Ht. by apply Hold.
    + simpl. by apply AddOffers_index_added.
  - inversion Hstep; subst. rewrite RescindOffer_timedOffers in Ht.
    apply lookup_delete_Some in Ht as [_ Ht]. by apply Hold.
  - destruct (RemoveExpiredOffers now p) as [[[gone n] q]|] eqn:Hq; [|done].
    simpl in Hstep. inversion Hstep; subst.
    destruct (RemoveExpiredOffers_run now p) as (p'' & Heq & Hto & _).
    { eapply RemoveExpiredOffers_inv; eauto. }
    rewrite Hq in Heq. inversion Heq; subst p''. rewrite Hto in Ht.
    apply map_lookup_filter_Some in Ht as [Ht _]. by apply Hold.
  - inversion Hstep; subst. rewrite ClaimForPlace_timedOffers in Ht. by apply Hold.
  - destruct (ClaimForLaunch hostname useReservedOffers p) as [[res q]|] eqn:Hq; [|done].
    simpl in Hstep. inversion Hstep; subst.
    apply ClaimForLaunch_spec in Hq as [(err & _ & ->)|(s & om & _ & _ & _ & _ & _ & Hto)].
    + by apply Hold.
    + rewrite Hto in Ht. apply map_lookup_filter_Some in Ht as [Ht _]. by apply Hold.
  - inversion Hstep; subst. rewrite ReturnUnusedOffers_timedOffers in Ht. by apply Hold.
  - inversion Hstep; subst.
    destruct (ResetExpiredHostSummaries_inv now p) as [Hto _].
    rewrite Hto in Ht. by apply Hold.
Qed.

Lemma run_hostsKnown matchHostFilter ops : forall p p',
  run matchHostFilter ops p = Some p' -> hostsKnown p -> hostsKnown p'.
Proof.
  induction ops as [|o ops IH]; intros p p' Hrun Hk; simpl in Hrun.
  { by inversion Hrun; subst. }
  destruct (step matchHostFilter o p) as [p1|] eqn:Hstep; [|done]. simpl in Hrun.
  eapply IH; [done|]. by eapply step_hostsKnown.
Qed.

Lemma NewOfferPool_hostsKnown hold : hostsKnown (NewOfferPool hold).
Proof. intros id t Ht. simpl in Ht. by rewrite lookup_empty in Ht. Qed.

Lemma hostsKnown_RemoveExpiredOffers now p :
  hostsKnown p -> is_Some (RemoveExpiredOffers now p).
Proof.
  intros Hk. destruct (RemoveExpiredOffers_run now p) as (p' & -> & _); [|eauto].
  intros id t Ht _. by eapply Hk.
Qed.

(** X3: a host summary, once the pool has it, stays through every sequence
    of [AddOffers], [RescindOffer], [RemoveExpiredOffers], [ClaimForPlace],
    [ClaimForLaunch], [ReturnUnusedOffers] and [ResetExpiredHostSummaries]:
    no call but [Clear] removes a host from [hostOfferIndex], whether or
    not it has an offer left. *)
Theorem run_keeps_hosts matchHostFilter ops : forall p p' h,
  run matchHostFilter ops p = Some p' ->
  is_Some (hostOfferIndex p !! h) -> is_Some (hostOfferIndex p' !! h).
Proof.
  induction ops as [|o ops IH]; intros p p' h Hrun Hh; simpl in Hrun.
  { by inversion Hrun; subst. }
  destruct (step matchHostFilter o p) as [p1|] eqn:Hstep; [|done]. simpl in Hrun.
  eapply IH; [done|]. by eapply step_keeps_host.
Qed.

(** X4: in every pool reached from the empty pool, each entry of
    [timedOffers] names a host that has a summary, so [RemoveExpiredOffers],
    which reaches the summary without a presence check, returns at any
    time. *)
Theorem reachable_RemoveExpiredOffers_returns matchHostFilter hold ops p now :
  run matchHostFilter ops (NewOfferPool hold) = Some p ->
  hostsKnown p /\ is_Some (RemoveExpiredOffers now p).
Proof.
  intros Hrun.
  assert (hostsKnown p) as Hk.
  { eapply run_hostsKnown; [done|]. apply NewOfferPool_hostsKnown. }
  split; [done|]. by apply hostsKnown_RemoveExpiredOffers.
Qed.


(** ** Edge cases of the pool calls *)

(** X6: an offer is rescinded once.  Whatever the first [RescindOffer] of
    an id returned, a second one for the same id finds no entry, returns
    false and leaves the pool as it is; so does a rescind of an id the
    pool never had. *)
Theorem RescindOffer_twice offerID p :
  RescindOffer offerID (RescindOffer offerID p).2 =
    (false, (RescindOffer offerID p).2) /\
  (timedOffers p !! offerID = None -> RescindOffer offerID p = (false, p)).
Proof.
  split.
  - pose proof (RescindOffer_timedOffers offerID p) as Ht.
    unfold RescindOffer at 1. rewrite Ht, lookup_delete_eq. done.
  - intros Hnone. unfold RescindOffer. by rewrite Hnone.
Qed.

Lemma foldl_timeOne_lookup e offers id : forall p,
  timedOffers (foldl (timeOne e) p offers) !! id =
  match last (filter (fun o => mesos.Id o = id) offers) with
  | Some o => Some (mkTimedOffer (mesos.Hostname o) e)
  | None => timedOffers p !! id
  end.
Proof.
  induction offers as [|o l IH]; intros p; [done|].
  cbn [foldl]. rewrite IH. rewrite filter_cons.
  destruct (decide (mesos.Id o = id)) as [Hid|Hid].
  - rewrite last_cons.
    destruct (last (filter (fun o0 => mesos.Id o0 = id) l)); [done|].
    simpl. by rewrite Hid, lookup_insert_eq.
  - destruct (last (filter (fun o0 => mesos.Id o0 = id) l)); [done|].
    simpl. by rewrite lookup_insert_ne.
Qed.

(** X7: after [AddOffers] every offer of the call can be looked up both
    ways: [timedOffers] has an entry for its id that expires one hold time
    after the call and names the host of an offer of the call with that id
    (the last one, should the id come twice), and the bag of the offer's
    host holds the id.  Entries of other ids stay as they were. *)
Theorem AddOffers_lookup now offers p id :
  match last (filter (fun o => mesos.Id o = id) offers) with
  | Some o =>
      o ∈ offers /\ mesos.Id o = id /\
      timedOffers (AddOffers now offers p) !! id =
        Some (mkTimedOffer (mesos.Hostname o) (now + offerHoldTime p)) /\
      forall o', o' ∈ offers -> mesos.Id o' = id ->
        is_Some (bag (AddOffers now offers p) (mesos.Hostname o') !! id)
  | None =>
      (forall o, o ∈ offers -> mesos.Id o <> id) /\
      timedOffers (AddOffers now offers p) !! id = timedOffers p !! id /\
      forall h, is_Some (bag (AddOffers now offers p) h !! id) <->
                is_Some (bag p h !! id)
  end.
Proof.
  assert (Hbag : forall h, is_Some (bag (AddOffers now offers p) h !! id) <->
            is_Some (bag p h !! id) \/
            exists o, o ∈ offers /\ mesos.Hostname o = h /\ mesos.Id o = id).
  { intros h. unfold AddOffers, bag. rewrite foldl_timeOne_index.
    apply foldl_addOne_bag. }
  assert (Ht : timedOffers (AddOffers now offers p) !! id =
            match last (filter (fun o => mesos.Id o = id) offers) with
            | Some o => Some (mkTimedOffer (mesos.Hostname o) (now + offerHoldTime p))
            | None => timedOffers p !! id
            end).
  { unfold AddOffers. rewrite foldl_timeOne_lookup. by rewrite foldl_addOne_timedOffers. }
  destruct (last (filter (fun o => mesos.Id o = id) offers)) as [o|] eqn:Hlast.
  - apply last_Some_elem_of in Hlast. apply list_elem_of_filter in Hlast as [Hid Hin].
    split; [done|]. split; [done|]. split; [done|].
    intros o' Hin' Hid'. apply Hbag. right. by exists o'.
  - apply last_None in Hlast.
    assert (forall o, o ∈ offers -> mesos.Id o <> id) as Hno.
    { intros o Hin Hid.
      assert (o ∈ filter (fun o => mesos.Id o = id) offers) as Hc
        by (by apply list_elem_of_filter).
      rewrite Hlast in Hc. by apply elem_of_nil in Hc. }
    split; [done|]. split; [done|]. intros h. rewrite Hbag. split; [|by left].
    intros [?|(o & Hin & _ & Hid)]; [done|]. by destruct (Hno o Hin).
Qed.

Lemma offerPool_eta p :
  mkOfferPool (hostOfferIndex p) (availableHosts p) (timedOffers p)
              (offerHoldTime p) (readyResources p) (placingResources p) = p.
Proof. by destruct p. Qed.

(** X8: [RemoveExpiredOffers] does nothing before the hold time is over.
    When no entry of [timedOffers] has an expiration before [now] (an
    entry that expires exactly at [now] is not expired), it returns no
    removed offer and the number of entries, and the pool is unchanged; in
    particular the offers of an [AddOffers] at time [t] are all kept up to
    and including time [t] plus the hold time. *)
Theorem RemoveExpiredOffers_before_expiration now p :
  (forall id t, timedOffers p !! id = Some t -> now <= Expiration t) ->
  RemoveExpiredOffers now p = Some (∅, Z.of_nat (size (timedOffers p)), p).
Proof.
  intros Hfresh. unfold RemoveExpiredOffers.
  assert (forall id t, timedOffers p !! id = Some t -> expired now t = false) as Hne.
  { intros id t Ht. unfold expired. apply Z.ltb_ge. by eapply Hfresh. }
  assert (filter (fun kv => expired now kv.2 = true) (timedOffers p) = ∅) as ->.
  { apply map_empty_filter. intros id t Ht. simpl. rewrite (Hne id t Ht). done. }
  assert (filter (fun kv => expired now kv.2 = false) (timedOffers p) = timedOffers p)
    as ->.
  { apply map_filter_id. intros id t Ht. simpl. by eapply Hne. }
  rewrite map_to_list_empty. simpl.
  unfold set_timedOffers. by rewrite offerPool_eta.
Qed.

(** X9: what a placement claimed is what a launch gets.  When
    [ClaimForPlace] returned the host [h] with the offers [l], a
    [ClaimForLaunch] of [h] that follows it returns exactly these offers,
    keyed by their ids; the host is READY again, its returned offers are
    gone from its bag and from [timedOffers], and [placingResources] is
    decreased by their total. *)
Theorem ClaimForPlace_ClaimForLaunch matchHostFilter placingUntil order f p h l :
  let p1 := (ClaimForPlace matchHostFilter placingUntil order f p).2 in
  (ClaimForPlace matchHostFilter placingUntil order f p).1.1.1 !! h = Some l ->
  exists offerMap p2,
    ClaimForLaunch h false p1 = Some (inl offerMap, p2) /\
    (map_to_list offerMap).*2 = l /\
    (forall id, is_Some (offerMap !! id) ->
       bag p2 h !! id = None /\ timedOffers p2 !! id = None) /\
    (forall id, offerMap !! id = None ->
       bag p2 h !! id = bag p h !! id /\ timedOffers p2 !! id = timedOffers p !! id) /\
    status <$> hostOfferIndex p2 !! h = Some ReadyOffer /\
    placingResources p2 =
      scalar.Subtract (placingResources p1) (scalar_offer.FromOffers l).
Proof.
  intros p1 Hl.
  destruct (ClaimForPlace_result matchHostFilter placingUntil order f p h l Hl)
    as (s & s' & Hs & Hs' & Hready & Hplacing & ->).
  pose proof (ClaimForPlace_index matchHostFilter placingUntil order f p h) as Hi.
  rewrite Hs, Hs' in Hi. destruct Hi as [Hoff _].
  assert (unreservedOffers s' = unreservedOffers s) as Hun
    by (unfold unreservedOffers; by rewrite Hoff).
  assert (reservedOffers s' = reservedOffers s) as Hre
    by (unfold reservedOffers; by rewrite Hoff).
  fold p1 in Hs'.
  set (p2 :=
    (decAvailable (mkHostSummary ReadyOffer (statusPlacingOfferExpiration s')
                                 (reservedOffers s))
       (set_placingResources
          (decQuantity (placingResources p1)
             (scalar_offer.FromOfferMap (unreservedOffers s)))
          (set_timedOffers
             (filter (fun kv => unreservedOffers s !! kv.1 = None) (timedOffers p1))
             (set_hostOfferIndex
                (<[h := mkHostSummary ReadyOffer (statusPlacingOfferExpiration s')
                          (reservedOffers s)]> (hostOfferIndex p1)) p1))))).
  exists (unreservedOffers s), p2.
  assert (Hcall : ClaimForLaunch h false p1 = Some (inl (unreservedOffers s), p2)).
  { unfold ClaimForLaunch. rewrite Hs'. simpl. unfold summary.ClaimForLaunch.
    rewrite decide_True by done. rewrite Hun, Hre. simpl. reflexivity. }
  split; [exact Hcall|]. split; [done|].
  pose proof Hcall as Hspec.
  apply ClaimForLaunch_spec in Hspec
    as [(err & Herr & _)|(s0 & om & Hom & Hs0 & Hom' & _ & Hbag & Hto)]; [done|].
  assert (om = unreservedOffers s) as -> by congruence. clear Hom Hom'.
  assert (forall h0, bag p1 h0 = bag p h0) as Hbag1.
  { intros h0. unfold bag.
    pose proof (ClaimForPlace_index matchHostFilter placingUntil order f p h0) as Hi0.
    fold p1 in Hi0.
    destruct (hostOfferIndex p !! h0), (hostOfferIndex p1 !! h0); simpl; try done.
    by destruct Hi0 as [-> _]. }
  assert (timedOffers p1 = timedOffers p) as Hto1
    by apply ClaimForPlace_timedOffers.
  split; [|split; [|split]].
  - intros id Hid. rewrite Hbag, Hto. rewrite decide_True by done. split; [done|].
    apply map_lookup_filter_None. right. intros t _. simpl.
    intros Hnone. rewrite Hnone in Hid. by destruct Hid.
  - intros id Hid. rewrite Hbag, Hto, Hbag1, Hto1. split.
    + rewrite decide_False; [done|]. intros [_ [x Hx]]. congruence.
    + destruct (timedOffers p !! id) as [t|] eqn:Ht.
      * by apply map_lookup_filter_Some.
      * apply map_lookup_filter_None. by left.
  - unfold p2, decAvailable. destruct (HasAnyOffer _); simpl; by rewrite lookup_insert_eq.
  - unfold p2, decAvailable. by destruct (HasAnyOffer _).
Qed.

(** ** Resetting, clearing and counting *)

(** X10: [ResetExpiredHostSummaries] returns each host that was PLACING
    beyond its status expiration, once, and no other host; those hosts
    are READY afterwards with their offers kept, every other summary is
    untouched, so no host stays PLACING beyond its expiration;
    [timedOffers] is unchanged, and the unreserved amount of the reset
    hosts moves from [placingResources] to [readyResources]. *)
Theorem ResetExpiredHostSummaries_resets now p :
  NoDup (ResetExpiredHostSummaries now p).1 /\
  (forall h, h ∈ (ResetExpiredHostSummaries now p).1 <->
     exists s, hostOfferIndex p !! h = Some s /\ expiredPlacing now s) /\
  (forall h, hostOfferIndex (ResetExpiredHostSummaries now p).2 !! h =
     (fun s => if decide (expiredPlacing now s)
               then mkHostSummary ReadyOffer (statusPlacingOfferExpiration s) (offers s)
               else s) <$> hostOfferIndex p !! h) /\
  (forall h s', hostOfferIndex (ResetExpiredHostSummaries now p).2 !! h = Some s' ->
     ~ expiredPlacing now s') /\
  timedOffers (ResetExpiredHostSummaries now p).2 = timedOffers p /\
  readyResources (ResetExpiredHostSummaries now p).2 =
    scalar.Add (readyResources p) (resetAmount now (map_to_list (hostOfferIndex p))) /\
  placingResources (ResetExpiredHostSummaries now p).2 =
    scalar.Subtract (placingResources p)
      (resetAmount now (map_to_list (hostOfferIndex p))).
Proof.
  pose proof (NoDup_fst_map_to_list (hostOfferIndex p)) as Hnd.
  assert (Hl : forall k s, (k, s) ∈ map_to_list (hostOfferIndex p) <->
                           hostOfferIndex p !! k = Some s).
  { intros k s. apply elem_of_map_to_list. }
  destruct (foldl_resetOne_full now (map_to_list (hostOfferIndex p)) ([], p) Hnd)
    as (Hn & _ & Hr & Hp & _).
  { intros k s Hin. by apply Hl. }
  fold (ResetExpiredHostSummaries now p) in Hn, Hr, Hp. simpl in Hn, Hr, Hp.
  pose proof (ResetExpiredHostSummaries_index now p) as Hidx.
  split; [|split; [|split; [done|split; [|split; [|done]]]]].
  - rewrite Hn. revert Hnd. generalize (map_to_list (hostOfferIndex p)). clear.
    intros l. induction l as [|e l IH]; intros Hnd; [constructor|].
    simpl in Hnd. apply NoDup_cons in Hnd as [Hnotin Hnd]. rewrite filter_cons.
    destruct (decide (expiredPlacing now e.2)); [|by apply IH].
    simpl. apply NoDup_cons. split; [|by apply IH].
    intros Hin. apply Hnotin. apply list_elem_of_fmap in Hin as (e' & -> & Hin).
    apply list_elem_of_filter in Hin as [_ Hin].
    apply list_elem_of_fmap. by exists e'.
  - intros h. rewrite Hn. split.
    + intros Hin. apply list_elem_of_fmap in Hin as ([k s] & -> & Hin).
      apply list_elem_of_filter in Hin as [Hexp Hin]. exists s. split; [|done].
      by apply Hl.
    + intros (s & Hs & Hexp). apply list_elem_of_fmap. exists (h, s).
      split; [done|]. apply list_elem_of_filter. split; [done|]. by apply Hl.
  - intros h s' Hs'. rewrite Hidx in Hs'.
    destruct (hostOfferIndex p !! h) as [s|]; [|done]. simpl in Hs'.
    destruct (decide (expiredPlacing now s)) as [Hexp|Hexp].
    + inversion Hs'; subst. unfold expiredPlacing. simpl. intros [? _]. done.
    + by inversion Hs'; subst.
  - apply ResetExpiredHostSummaries_inv.
Qed.

Lemma claimLoop_empty matchHostFilter placingUntil order m :
  claimLoop matchHostFilter placingUntil order m ∅ = (m, ∅).
Proof. induction order as [|h l IH]; [done|]. simpl. by rewrite lookup_empty. Qed.

(** X11: after [Clear] the pool is empty to every call: a rescind finds
    nothing, nothing has expired and no offer is left, and a placement
    gets no host and counts none.  [Clear] does not reset the count of
    available hosts, which the next offer therefore raises to one more
    than the count before the [Clear]. *)
Theorem Clear_forgets matchHostFilter now placingUntil order f offerID o p :
  RescindOffer offerID (Clear p) = (false, Clear p) /\
  RemoveExpiredOffers now (Clear p) = Some (∅, 0, Clear p) /\
  ClaimForPlace matchHostFilter placingUntil order (Some f) (Clear p) =
    ((∅, ∅, None), Clear p) /\
  readyResources (Clear p) = scalar.zero /\
  placingResources (Clear p) = scalar.zero /\
  availableHosts (AddOffers now [o] (Clear p)) = uint32 (availableHosts p + 1).
Proof.
  split; [done|]. split.
  { unfold RemoveExpiredOffers. simpl. rewrite !map_filter_empty, map_to_list_empty.
    done. }
  split.
  { unfold ClaimForPlace. simpl. rewrite claimLoop_empty. done. }
  split; [done|]. split; [done|].
  rewrite AddOffers_single. unfold timeOne, addOne, tryAddOffer, addOffer. simpl.
  rewrite lookup_empty. simpl. unfold incAvailable, incByStatus, HasAnyOffer. simpl.
  rewrite bool_decide_eq_false_2 by (intros H; by apply H). done.
Qed.

Lemma addOne_statusOf e p o h : statusOf (addOne e p o) h = statusOf p h.
Proof.
  unfold statusOf. rewrite addOne_index.
  destruct (decide (h = mesos.Hostname o)) as [->|Hne].
  - rewrite lookup_insert_eq. done.
  - by rewrite lookup_insert_ne.
Qed.

(** X12: [AddOffers] counts every offer of the call once, in the total of
    the status its host had before the call: the offers of READY hosts
    and of hosts without a summary are added to [readyResources], those of
    PLACING hosts to [placingResources], and those of RESERVED hosts to
    neither. *)
Theorem AddOffers_accounting now offers p :
  readyResources (AddOffers now offers p) =
    scalar.Add (readyResources p)
      (scalar_offer.FromOffers
         (filter (fun o => statusOf p (mesos.Hostname o) = ReadyOffer) offers)) /\
  placingResources (AddOffers now offers p) =
    scalar.Add (placingResources p)
      (scalar_offer.FromOffers
         (filter (fun o => statusOf p (mesos.Hostname o) = PlacingOffer) offers)).
Proof.
  unfold AddOffers. generalize (now + offerHoldTime p). intros e.
  assert (Ht : forall l q, readyResources (foldl (timeOne e) q l) = readyResources q /\
                           placingResources (foldl (timeOne e) q l) = placingResources q).
  { induction l as [|o l IH]; intros q; [done|]. cbn [foldl].
    destruct (IH (timeOne e q o)) as [-> ->]. done. }
  destruct (Ht offers (foldl (addOne e) p offers)) as [-> ->]. clear Ht.
  assert (Hgen : forall q,
    (forall h, statusOf q h = statusOf p h) ->
    readyResources (foldl (addOne e) q offers) =
      scalar.Add (readyResources q)
        (scalar_offer.FromOffers
           (filter (fun o => statusOf p (mesos.Hostname o) = ReadyOffer) offers)) /\
    placingResources (foldl (addOne e) q offers) =
      scalar.Add (placingResources q)
        (scalar_offer.FromOffers
           (filter (fun o => statusOf p (mesos.Hostname o) = PlacingOffer) offers))).
  { induction offers as [|o l IH]; intros q Hq; cbn [foldl].
    { unfold scalar_offer.FromOffers. simpl. by rewrite !Add_zero_r. }
    destruct (IH (addOne e q o)) as [Hr Hp].
    { intros h. by rewrite addOne_statusOf. }
    rewrite Hr, Hp, addOne_readyResources, addOne_placingResources, !filter_cons.
    fold (statusOf q (mesos.Hostname o)). rewrite Hq.
    destruct (statusOf p (mesos.Hostname o)) eqn:Hst; simpl;
      rewrite ?decide_True by done; rewrite ?decide_False by done;
      rewrite ?FromOffers_cons, ?Add_assoc; done. }
  by apply Hgen.
Qed.

(** ** The pool theorems on the fixtures *)

(** agent1 loses its last offers by a rescind and an expiry, and keeps its
    summary. *)
Lemma run_keeps_hosts_witness :
  run fixtures.matchResources
      [OpRescindOffer "offer1"; OpRemoveExpiredOffers 100] fixtures.pool4 =
    Some (mkOfferPool
            {["agent1" := summary.New; "agent2" := summary.New;
              "agent4" := summary.New]}
            0 ∅ 60 scalar.zero scalar.zero) /\
  is_Some (hostOfferIndex fixtures.pool4 !! "agent1") /\
  is_Some (hostOfferIndex
             (mkOfferPool
                {["agent1" := summary.New; "agent2" := summary.New;
                  "agent4" := summary.New]}
                0 ∅ 60 scalar.zero scalar.zero) !! "agent1").
Proof.
  assert (run fixtures.matchResources
            [OpRescindOffer "offer1"; OpRemoveExpiredOffers 100] fixtures.pool4 =
          Some (mkOfferPool
                  {["agent1" := summary.New; "agent2" := summary.New;
                    "agent4" := summary.New]}
                  0 ∅ 60 scalar.zero scalar.zero)) as Hrun
    by (vm_compute; reflexivity).
  assert (is_Some (hostOfferIndex fixtures.pool4 !! "agent1")) as Hh
    by (vm_compute; eexists; reflexivity).
  split; [exact Hrun|]. split; [exact Hh|].
  exact (run_keeps_hosts fixtures.matchResources
           [OpRescindOffer "offer1"; OpRemoveExpiredOffers 100]
           fixtures.pool4 _ "agent1" Hrun Hh).
Defined.

(** At the end of the fixture [day] every entry names a known host, and
    the pool can be swept at any later time. *)
Lemma reachable_RemoveExpiredOffers_returns_witness :
  exists p, run fixtures.matchResources fixtures.day (NewOfferPool 60) = Some p /\
    hostsKnown p /\ is_Some (RemoveExpiredOffers 200 p).
Proof.
  eexists. split; [vm_compute; reflexivity|].
  apply (reachable_RemoveExpiredOffers_returns fixtures.matchResources 60 fixtures.day).
  vm_compute. reflexivity.
Defined.


(** The four offers of [pool4], added at time 0 with a hold time of 60,
    are all there at time 60. *)
Lemma RemoveExpiredOffers_before_expiration_witness :
  (forall id t, timedOffers fixtures.pool4 !! id = Some t -> 60 <= Expiration t) /\
  RemoveExpiredOffers 60 fixtures.pool4 =
    Some (∅, Z.of_nat (size (timedOffers fixtures.pool4)), fixtures.pool4).
Proof.
  assert (map_Forall (fun _ t => 60 <= Expiration t) (timedOffers fixtures.pool4)) as H.
  { apply (bool_decide_unpack _). vm_compute. exact I. }
  split; [exact H|].
  exact (RemoveExpiredOffers_before_expiration 60 fixtures.pool4 H).
Defined.

(** The placement of the fixtures claims agent1 with offer3 and offer1,
    and the launch on agent1 gets them. *)
Lemma ClaimForPlace_ClaimForLaunch_witness :
  (ClaimForPlace fixtures.matchResources 1 ["agent1"; "agent2"; "agent4"]
     (Some (fixtures.atMost 1)) fixtures.pool4).1.1.1 !! "agent1" =
    Some [fixtures.offer3; fixtures.offer1] /\
  exists offerMap p2,
    ClaimForLaunch "agent1" false fixtures.pool4claimed = Some (inl offerMap, p2) /\
    (map_to_list offerMap).*2 = [fixtures.offer3; fixtures.offer1] /\
    (forall id, is_Some (offerMap !! id) ->
       bag p2 "agent1" !! id = None /\ timedOffers p2 !! id = None) /\
    (forall id, offerMap !! id = None ->
       bag p2 "agent1" !! id = bag fixtures.pool4 "agent1" !! id /\
       timedOffers p2 !! id = timedOffers fixtures.pool4 !! id) /\
    status <$> hostOfferIndex p2 !! "agent1" = Some ReadyOffer /\
    placingResources p2 =
      scalar.Subtract (placingResources fixtures.pool4claimed)
        (scalar_offer.FromOffers [fixtures.offer3; fixtures.offer1]).
Proof.
  assert ((ClaimForPlace fixtures.matchResources 1 ["agent1"; "agent2"; "agent4"]
             (Some (fixtures.atMost 1)) fixtures.pool4).1.1.1 !! "agent1" =
          Some [fixtures.offer3; fixtures.offer1]) as H by (vm_compute; reflexivity).
  split; [exact H|].
  exact (ClaimForPlace_ClaimForLaunch fixtures.matchResources 1
           ["agent1"; "agent2"; "agent4"] (Some (fixtures.atMost 1)) fixtures.pool4
           "agent1" [fixtures.offer3; fixtures.offer1] H).
Defined.

(** ** Job creation *)

Section JobCreation.

Import stateless jobcreate.

Context `{Library} {S C : Type} `{!SecretStore S} `{!JobFactory C}.

Variable GetResourcePool : string -> GetResponse + error.
Variable ConvertJobSpecToJobConfig : JobSpec -> JobConfig + error.
Variable afterSecrets : JobSpec -> JobConfig -> JobConfig.
Variables (EnableSecrets : bool) (MaxTasksPerJob : Z).

(** X13: [validateResourcePoolForJobCreation] accepts exactly the ids that
    are set, are not the root pool, and for which the resource manager
    answers with a pool of that very id that has no children, and it then
    returns the path of that pool.  A refusal is the error of the resource
    manager passed on, or one of four errors of its own: NOT_FOUND for an
    answer without that id, INVALID_ARGUMENT for the other three. *)
Theorem validateResourcePoolForJobCreation_accepts respoolID :
  (forall path,
     validateResourcePoolForJobCreation GetResourcePool respoolID = inl path <->
     exists value info,
       respoolID = Some value /\ value <> RootResPoolID /\
       GetResourcePool value = inl (mkGetResponse (Some info)) /\
       PoolId info = Some value /\ PoolChildren info = [] /\
       path = PoolPath info) /\
  (forall err,
     validateResourcePoolForJobCreation GetResourcePool respoolID = inr err ->
     (exists value, respoolID = Some value /\ value <> RootResPoolID /\
                    GetResourcePool value = inr err) \/
     (err = errResourcePoolNotFound /\ surfaced (@inr unit _ err) = Some CodeNotFound) \/
     (err ∈ [errNullResourcePoolID; errRootResourcePoolID; errNonLeafResourcePool] /\
      surfaced (@inr unit _ err) = Some CodeInvalidArgument)).
Proof.
  unfold validateResourcePoolForJobCreation. split.
  - intros path. split.
    + destruct respoolID as [value|]; [|done].
      destruct (decide (value = RootResPoolID)) as [|Hroot]; [done|].
      destruct (GetResourcePool value) as [[[info|]]|err] eqn:Hget; simpl; [|done|done].
      destruct (PoolId info) as [id|] eqn:Hid; simpl; [|done].
      case_bool_decide as Hne; simpl; [done|].
      case_bool_decide as Hch; [done|].
      intros Hp. inversion Hp; subst. exists value, info.
      split; [done|]. split; [done|]. split; [done|].
      split; [|split; [|done]].
      * first [done | f_equal; destruct (decide (id = value)); [done|]; by destruct Hne].
      * destruct (PoolChildren info); [done|]. simpl in Hch. exfalso. apply Hch. lia.
    + intros (value & info & -> & Hroot & Hget & Hid & Hch & ->).
      rewrite decide_False by done. rewrite Hget. simpl. rewrite Hid, Hch. simpl.
      by rewrite bool_decide_eq_false_2 by (intros Hc; by apply Hc).
  - intros err. destruct respoolID as [value|].
    + destruct (decide (value = RootResPoolID)) as [|Hroot].
      { intros Herr. inversion Herr; subst err. right. right.
        split; [|done]. apply elem_of_cons. right. apply elem_of_cons. by left. }
      destruct (GetResourcePool value) as [response|err'] eqn:Hget.
      * destruct (bool_decide _ || bool_decide _).
        { intros Herr. inversion Herr; subst err. right. left. done. }
        destruct (bool_decide _); [|done].
        intros Herr. inversion Herr; subst err. right. right.
        split; [|done]. do 2 (apply elem_of_cons; right). apply elem_of_cons. by left.
      * intros Herr. inversion Herr; subst err'. left. by exists value.
    + intros Herr. inversion Herr; subst err. right. right.
      split; [|done]. apply elem_of_cons. by left.
Qed.

(** X14: [validateJobConfigUpdate] lets a config replace another exactly
    when both have the same job type and the same resource pool id, an
    unset id counting as the empty one.  So a config may always replace
    itself, what may replace may be replaced back, and a chain of accepted
    replacements is accepted end to end; every refusal is
    INVALID_ARGUMENT. *)
Theorem validateJobConfigUpdate_equivalence (a b c : JobConfig) :
  (validateJobConfigUpdate a b = None <->
   JobConfig_Type a = JobConfig_Type b /\
   default "" (JobConfig_RespoolID a) = default "" (JobConfig_RespoolID b)) /\
  validateJobConfigUpdate a a = None /\
  (validateJobConfigUpdate a b = None -> validateJobConfigUpdate b a = None) /\
  (validateJobConfigUpdate a b = None -> validateJobConfigUpdate b c = None ->
   validateJobConfigUpdate a c = None) /\
  (forall err, validateJobConfigUpdate a b = Some err ->
     surfaced (@inr unit _ err) = Some CodeInvalidArgument).
Proof.
  assert (Hiff : forall x y, validateJobConfigUpdate x y = None <->
            JobConfig_Type x = JobConfig_Type y /\
            default "" (JobConfig_RespoolID x) = default "" (JobConfig_RespoolID y)).
  { intros x y. unfold validateJobConfigUpdate.
    repeat case_bool_decide; split; try done; intros [? ?]; congruence. }
  split; [apply Hiff|]. split; [by apply Hiff|]. split; [|split].
  - rewrite !Hiff. intros [? ?]. split; congruence.
  - rewrite !Hiff. intros [? ?] [? ?]. split; congruence.
  - intros err. unfold validateJobConfigUpdate.
    repeat case_bool_decide; intros Herr; inversion Herr; subst; done.
Qed.

Lemma checkSecrets_spec secrets :
  (checkSecrets secrets = None <->
   Forall (fun secret => V1Path secret <> "" /\
                         base64_DecodeString (V1Data secret) = None) secrets) /\
  (forall err, checkSecrets secrets = Some err ->
     surfaced (@inr unit _ err) = Some CodeInvalidArgument).
Proof.
  induction secrets as [|secret rest [IH1 IH2]]; simpl.
  { split; [|done]. split; [constructor|done]. }
  destruct (decide (V1Path secret = "")) as [Hp|Hp].
  { split; [|intros err Herr; by inversion Herr].
    split; [done|]. intros Hall. apply Forall_cons in Hall as [[? _] _]. done. }
  destruct (base64_DecodeString (V1Data secret)) as [msg|] eqn:Hd.
  { split; [|intros err Herr; by inversion Herr].
    split; [done|]. intros Hall. apply Forall_cons in Hall as [[_ ?] _]. congruence. }
  split; [|done]. rewrite IH1. split.
  - intros Hall. by constructor.
  - intros Hall. by apply Forall_cons in Hall as [_ ?].
Qed.

(** X15: [validateSecretsAndConfig] accepts a request without secrets
    whatever the spec, and a request with secrets exactly when the spec
    converts to a config without secret volumes, secrets are enabled in
    the cluster, and every secret has a path and data that decode as
    base64.  A refusal is the error of the conversion or
    INVALID_ARGUMENT. *)
Theorem validateSecretsAndConfig_accepts spec secrets :
  (validateSecretsAndConfig ConvertJobSpecToJobConfig EnableSecrets spec secrets = None <->
   secrets = [] \/
   exists config,
     ConvertJobSpecToJobConfig spec = inl config /\
     ConfigHasSecretVolumes config = false /\
     EnableSecrets = true /\
     Forall (fun secret => V1Path secret <> "" /\
                           base64_DecodeString (V1Data secret) = None) secrets) /\
  (forall err,
     validateSecretsAndConfig ConvertJobSpecToJobConfig EnableSecrets spec secrets =
       Some err ->
     ConvertJobSpecToJobConfig spec = inr err \/
     surfaced (@inr unit _ err) = Some CodeInvalidArgument).
Proof.
  unfold validateSecretsAndConfig.
  destruct secrets as [|secret rest].
  { simpl. split; [|done]. split; [by left|done]. }
  rewrite bool_decide_eq_false_2 by done.
  rewrite (bool_decide_eq_true_2 (0 < length (secret :: rest))%nat) by (simpl; lia).
  rewrite andb_true_r.
  destruct (checkSecrets_spec (secret :: rest)) as [Hok Hcode].
  destruct (ConvertJobSpecToJobConfig spec) as [config|err'] eqn:Hconv.
  - destruct (ConfigHasSecretVolumes config) eqn:Hvol.
    { split; [|intros err Herr; inversion Herr; by right].
      split; [done|]. intros [?|(config' & Hc & Hv & _)]; [done|]. congruence. }
    destruct EnableSecrets; simpl.
    + split; [|intros err Herr; right; by apply Hcode].
      rewrite Hok. split.
      * intros Hall. right. by exists config.
      * intros [?|(_ & _ & _ & _ & Hall)]; done.
    + split; [|intros err Herr; inversion Herr; by right].
      split; [done|]. intros [?|(_ & _ & _ & ? & _)]; done.
  - split; [|intros err Herr; inversion Herr; by left].
    split; [done|]. intros [?|(config' & Hc & _)]; done.
Qed.

End JobCreation.

Section Secrets.

Import stateless jobcreate.

Context `{Library} {S C : Type} `{!SecretStore S} `{!JobFactory C}.

Variable GetResourcePool : string -> GetResponse + error.
Variable ConvertJobSpecToJobConfig : JobSpec -> JobConfig + error.
Variable afterSecrets : JobSpec -> JobConfig -> JobConfig.
Variables (EnableSecrets : bool) (MaxTasksPerJob : Z).

Lemma withVolumes_nil container : withVolumes [] container = container.
Proof.
  unfold withVolumes. destruct container as [[[t vs]|] rest]; simpl; [|done].
  by rewrite app_nil_r.
Qed.

Lemma withVolumes_app vs1 vs2 container :
  withVolumes vs2 (withVolumes vs1 container) = withVolumes (vs1 ++ vs2) container.
Proof.
  unfold withVolumes. destruct container as [[[t vs]|] rest]; simpl; [|done].
  by rewrite app_assoc.
Qed.

Lemma withVolumes_Container vs container :
  is_Some (Container container) -> is_Some (Container (withVolumes vs container)).
Proof. unfold withVolumes. intros [info ->]. simpl. eauto. Qed.

Lemma addVolume_spec volume containers :
  Forall (fun container => is_Some (Container container)) containers ->
  addVolume volume containers = Some (withVolumes [volume] <$> containers).
Proof.
  induction containers as [|container rest IH]; intros Hall; [done|].
  apply Forall_cons in Hall as [[info Hinfo] Hall]. simpl.
  rewrite Hinfo, (IH Hall). simpl. unfold withVolumes. by rewrite Hinfo.
Qed.

(** The loop of [addSecretsToDBAndConfig] on containers that all have
    their [ContainerInfo]: it returns, either with every secret stored and
    its volume on every container, or with the error of the store at the
    first secret it did not take, the secrets before it stored and their
    volumes on every container. *)
Lemma addSecrets_spec jobID update secrets : forall jobSpec store n,
  Forall (fun container => is_Some (Container container)) (Containers jobSpec) ->
  exists err jobSpec' store' n',
    addSecrets jobID update secrets jobSpec store n = Some (err, jobSpec', store', n') /\
    RespoolId jobSpec' = RespoolId jobSpec /\
    specRest jobSpec' = specRest jobSpec /\
    match err with
    | None =>
        Containers jobSpec' =
          withVolumes (secretVolumes (assignIds n secrets)) <$> Containers jobSpec /\
        store' = storedAll jobID update store (assignIds n secrets) /\
        n' = (n + length (filter (fun secret => SecretId secret = "") secrets))%nat
    | Some e =>
        exists before secret after,
          assignIds n secrets = before ++ secret :: after /\
          storeSecret jobID update secret (storedAll jobID update store before) =
            (Some e, store') /\
          Containers jobSpec' = withVolumes (secretVolumes before) <$> Containers jobSpec
    end.
Proof.
  induction secrets as [|secret rest IH]; intros jobSpec store n Hall.
  { exists None, jobSpec, store, n. simpl. split; [done|]. split; [done|].
    split; [done|]. split; [|split; [done|lia]].
    rewrite <- (list_fmap_id (Containers jobSpec)) at 1.
    apply list_fmap_ext. intros i c _. simpl. by rewrite withVolumes_nil. }
  cbn [addSecrets assignIds]. rewrite filter_cons.
  set (secret1 := if decide (SecretId secret = "")
                  then mkSecret (uuid_New n) (SecretPath secret) (SecretData secret)
                  else secret).
  set (n1 := if decide (SecretId secret = "") then Datatypes.S n else n).
  assert (Hbranch :
    (if decide (SecretId secret = "")
     then (mkSecret (uuid_New n) (SecretPath secret) (SecretData secret), Datatypes.S n)
     else (secret, n)) = (secret1, n1)).
  { unfold secret1, n1. by destruct (decide (SecretId secret = "")). }
  rewrite Hbranch.
  assert (Hids :
    (if decide (SecretId secret = "")
     then mkSecret (uuid_New n) (SecretPath secret) (SecretData secret)
            :: assignIds (Datatypes.S n) rest
     else secret :: assignIds n rest) = secret1 :: assignIds n1 rest).
  { unfold secret1, n1. by destruct (decide (SecretId secret = "")). }
  rewrite Hids.
  assert (Hlen : forall l : list Secret,
    length (if decide (SecretId secret = "") then secret :: l else l) =
    ((n1 - n) + length l)%nat).
  { intros l. unfold n1. destruct (decide (SecretId secret = "")); simpl; lia. }
  assert (n <= n1)%nat as Hn1.
  { unfold n1. destruct (decide (SecretId secret = "")); lia. }
  fold (storeSecret jobID update secret1 store).
  destruct (storeSecret jobID update secret1 store) as [[e|] store1] eqn:Hstore.
  { exists (Some e), jobSpec, store1, n1. split; [done|]. split; [done|].
    split; [done|]. exists [], secret1, (assignIds n1 rest). split; [done|].
    split; [done|]. simpl.
    rewrite <- (list_fmap_id (Containers jobSpec)) at 1.
    apply list_fmap_ext. intros i c _. simpl. by rewrite withVolumes_nil. }
  rewrite (addVolume_spec _ _ Hall). simpl.
  set (volume := CreateSecretVolume (SecretPath secret1) (SecretId secret1)).
  destruct (IH (mkJobSpec (RespoolId jobSpec)
                  (withVolumes [volume] <$> Containers jobSpec) (specRest jobSpec))
               store1 n1)
    as (err & jobSpec' & store' & n' & Hrun & Hpool & Hrest & Hcase).
  { simpl. apply Forall_fmap. eapply Forall_impl; [exact Hall|].
    intros c Hc. simpl. by apply withVolumes_Container. }
  exists err, jobSpec', store', n'. split; [done|]. split; [done|]. split; [done|].
  simpl in Hcase. destruct err as [e|].
  - destruct Hcase as (before & secret2 & after & Hsplit & Hfail & Hcont).
    exists (secret1 :: before), secret2, after. split; [by rewrite Hsplit|].
    split.
    + unfold storedAll in *. cbn [foldl]. by rewrite Hstore.
    + rewrite Hcont, <- list_fmap_compose. apply list_fmap_ext.
      intros i c _. simpl. by rewrite withVolumes_app.
  - destruct Hcase as (Hcont & Hst & Hn). split; [|split].
    + rewrite Hcont, <- list_fmap_compose. apply list_fmap_ext.
      intros i c _. simpl. by rewrite withVolumes_app.
    + unfold storedAll in *. cbn [foldl]. by rewrite Hstore.
    + rewrite Hlen. lia.
Qed.

Lemma validateMesosContainerizerForSecrets_spec jobSpec :
  (validateMesosContainerizerForSecrets jobSpec = None <->
   Forall (fun container => exists info,
             Container container = Some info /\ Type_ info = ContainerInfo_MESOS)
          (Containers jobSpec)) /\
  (forall err, validateMesosContainerizerForSecrets jobSpec = Some err ->
     surfaced (@inr unit _ err) = Some CodeInvalidArgument).
Proof.
  unfold validateMesosContainerizerForSecrets.
  destruct (forallb _ (Containers jobSpec)) eqn:Hall.
  - split; [|done]. split; [|done]. intros _.
    apply Is_true_true, forallb_True in Hall. eapply Forall_impl; [exact Hall|].
    intros c Hc. simpl in Hc. apply bool_decide_unpack in Hc.
    unfold GetType in Hc. destruct (Container c) as [info|]; [eauto|done].
  - split; [|intros err Herr; by inversion Herr]. split; [done|].
    intros Hmesos. exfalso.
    assert (forallb (fun container => bool_decide (GetType container = ContainerInfo_MESOS))
                    (Containers jobSpec) = true) as Htrue; [|congruence].
    apply Is_true_true, forallb_True. eapply Forall_impl; [exact Hmesos|].
    intros c (info & Hinfo & Ht). simpl. apply bool_decide_pack.
    unfold GetType. by rewrite Hinfo.
Qed.

Lemma handleCreateSecrets_total jobID spec secrets store n :
  is_Some (handleCreateSecrets jobID spec secrets store n).
Proof.
  unfold handleCreateSecrets. case_bool_decide; [eauto|].
  destruct (validateMesosContainerizerForSecrets spec) as [err|] eqn:Hv; [eauto|].
  apply validateMesosContainerizerForSecrets_spec in Hv.
  destruct (addSecrets_spec jobID false (ConvertV1SecretsToV0Secrets secrets) spec store n)
    as (err & spec' & store' & n' & Hrun & _).
  { eapply Forall_impl; [exact Hv|]. intros c (info & -> & _). eauto. }
  unfold addSecretsToDBAndConfig. rewrite Hrun. eauto.
Qed.

(** X16: [handleCreateSecrets] always returns: the nil dereference in the
    loop of [addSecretsToDBAndConfig] is not reached, because the check of
    the containerizer lets no container without a [ContainerInfo] through.
    When a request has secrets and some container of the default spec is
    not a Mesos container, it is refused with INVALID_ARGUMENT before any
    secret is stored or any uuid drawn, and the spec is as it was. *)
Theorem handleCreateSecrets_returns jobID spec secrets store n :
  is_Some (handleCreateSecrets jobID spec secrets store n) /\
  (secrets <> [] ->
   Exists (fun container => GetType container <> ContainerInfo_MESOS) (Containers spec) ->
   exists err,
     handleCreateSecrets jobID spec secrets store n = Some (Some err, spec, store, n) /\
     surfaced (@inr unit _ err) = Some CodeInvalidArgument).
Proof.
  split; [apply handleCreateSecrets_total|].
  intros Hsecrets Hex. unfold handleCreateSecrets.
  rewrite bool_decide_eq_false_2 by (by destruct secrets).
  destruct (validateMesosContainerizerForSecrets_spec spec) as [Hok Hcode].
  destruct (validateMesosContainerizerForSecrets spec) as [err|].
  - exists err. split; [done|]. by apply Hcode.
  - exfalso. assert (Hall := proj1 Hok eq_refl).
    apply Exists_exists in Hex as (c & Hin & Hne). rewrite Forall_forall in Hall.
    destruct (Hall c Hin) as (info & Hinfo & Ht). apply Hne.
    unfold GetType. by rewrite Hinfo.
Qed.

(** X17: when [handleCreateSecrets] succeeds on a request with secrets,
    every container of the default spec has got one secret volume for each
    secret at the end of its volumes, in the order of the request, made of
    the path of the secret and of the id under which the secret was handed
    to the store (its own, or a fresh uuid when it had none); the store
    has taken exactly these secrets in that order.  When the store refuses
    a secret, its error is returned, and the secrets before it stay stored
    with their volumes on the spec: nothing is taken back. *)
Theorem handleCreateSecrets_volumes jobID spec secrets store n err spec' store' n' :
  secrets <> [] ->
  handleCreateSecrets jobID spec secrets store n = Some (err, spec', store', n') ->
  validateMesosContainerizerForSecrets spec = None ->
  let given := assignIds n (ConvertV1SecretsToV0Secrets secrets) in
  RespoolId spec' = RespoolId spec /\
  specRest spec' = specRest spec /\
  match err with
  | None =>
      Containers spec' = withVolumes (secretVolumes given) <$> Containers spec /\
      store' = storedAll jobID false store given
  | Some e =>
      exists before secret after,
        given = before ++ secret :: after /\
        CreateSecret secret jobID (storedAll jobID false store before) = (Some e, store') /\
        Containers spec' = withVolumes (secretVolumes before) <$> Containers spec
  end.
Proof.
  intros Hsecrets Hrun Hv given. unfold handleCreateSecrets in Hrun.
  rewrite bool_decide_eq_false_2 in Hrun by (by destruct secrets).
  rewrite Hv in Hrun. unfold addSecretsToDBAndConfig in Hrun.
  apply validateMesosContainerizerForSecrets_spec in Hv.
  destruct (addSecrets_spec jobID false (ConvertV1SecretsToV0Secrets secrets) spec store n)
    as (err0 & spec0 & store0 & n0 & Hrun0 & Hpool & Hrest & Hcase).
  { eapply Forall_impl; [exact Hv|]. intros c (info & -> & _). eauto. }
  rewrite Hrun0 in Hrun. inversion Hrun; subst. clear Hrun.
  split; [done|]. split; [done|]. destruct err as [e|].
  - exact Hcase.
  - destruct Hcase as (? & ? & _). done.
Qed.

End Secrets.

Section CreateJobBody.

Import stateless jobcreate.

Context `{Library} {S C : Type} `{!SecretStore S} `{!JobFactory C}.

Variable GetResourcePool : string -> GetResponse + error.
Variable ConvertJobSpecToJobConfig : JobSpec -> JobConfig + error.
Variable afterSecrets : JobSpec -> JobConfig -> JobConfig.
Variables (EnableSecrets : bool) (MaxTasksPerJob : Z).

(** A leader's [CreateJob] always returns. *)
Lemma createJobAsLeader_total now req (w : World) :
  is_Some (createJobAsLeader GetResourcePool ConvertJobSpecToJobConfig afterSecrets
             EnableSecrets MaxTasksPerJob now req w).
Proof.
  unfold createJobAsLeader.
  destruct (bool_decide (String.length (JobId req) = 0%nat)); simpl;
    (destruct (negb (uuid_Parse _)); [eauto|];
     destruct (validateResourcePoolForJobCreation _ _) as [path|?]; [|eauto];
     destruct (Spec req) as [jobSpec|]; [|eauto];
     destruct (ConvertJobSpecToJobConfig jobSpec) as [jobConfig|?]; [|eauto];
     destruct (ValidateConfig jobConfig MaxTasksPerJob); [eauto|];
     destruct (validateSecretsAndConfig _ _ jobSpec (Secrets req)); [eauto|];
     match goal with
     | |- context [handleCreateSecrets ?j ?s ?l ?st ?n] =>
         destruct (handleCreateSecrets_total j s l st n) as [[[[err spec'] store'] n'] ->]
     end; simpl;
     destruct err; [eauto|];
     destruct (Create _ _ _ _ _) as [[?|] cache]; [eauto|];
     destruct (GetRuntime _ cache) as [[?|?] ?]; eauto).
Qed.

(** X18: a leader's [CreateJob] either fails with the job cache and the
    goal state queue untouched, or hands the job to the goal state engine
    exactly once, at the end of the queue, under an id that parses as a
    uuid (the id of the request, or a fresh uuid when the request has
    none) and after the resource pool and the secrets of the request were
    accepted; that holds also when the creation in the cache or the read
    of the runtime fails afterwards.  A response carries the id that was
    enqueued, and a request without secrets leaves the secret store
    untouched. *)
Theorem createJobAsLeader_enqueues now req (w : World) r w' :
  createJobAsLeader GetResourcePool ConvertJobSpecToJobConfig afterSecrets
    EnableSecrets MaxTasksPerJob now req w = Some (r, w') ->
  let jobID := if bool_decide (String.length (JobId req) = 0%nat)
               then uuid_New (drawn w) else JobId req in
  (Secrets req = [] -> secretStore w' = secretStore w) /\
  ((exists err, r = inr err) /\
   jobCache w' = jobCache w /\ enqueuedJobs w' = enqueuedJobs w
   \/
   enqueuedJobs w' = enqueuedJobs w ++ [(jobID, now)] /\
   uuid_Parse jobID = true /\
   (forall resp, r = inl resp -> RespJobId resp = jobID) /\
   exists jobSpec path,
     Spec req = Some jobSpec /\
     validateResourcePoolForJobCreation GetResourcePool (RespoolId jobSpec) = inl path /\
     validateSecretsAndConfig ConvertJobSpecToJobConfig EnableSecrets jobSpec
       (Secrets req) = None).
Proof.
  intros Hrun jobID. unfold createJobAsLeader in Hrun.
  set (n := if bool_decide (String.length (JobId req) = 0%nat)
            then Datatypes.S (drawn w) else drawn w).
  assert (Hid : (if bool_decide (String.length (JobId req) = 0%nat)
                 then (uuid_New (drawn w), Datatypes.S (drawn w))
                 else (JobId req, drawn w)) = (jobID, n)).
  { unfold jobID, n. by destruct (bool_decide _). }
  rewrite Hid in Hrun. clearbody jobID n. clear Hid. simpl in Hrun.
  destruct (uuid_Parse jobID) eqn:Hparse; simpl in Hrun;
    [|inversion Hrun; subst; simpl; split; [done|left; eauto]].
  destruct (Spec req) as [jobSpec|] eqn:Hspec; simpl in Hrun;
    [|inversion Hrun; subst; simpl; split; [done|left; eauto]].
  destruct (validateResourcePoolForJobCreation GetResourcePool (RespoolId jobSpec))
    as [path|?] eqn:Hpool;
    [|inversion Hrun; subst; simpl; split; [done|left; eauto]].
  destruct (ConvertJobSpecToJobConfig jobSpec) as [jobConfig|?];
    [|inversion Hrun; subst; simpl; split; [done|left; eauto]].
  destruct (ValidateConfig jobConfig MaxTasksPerJob);
    [inversion Hrun; subst; simpl; split; [done|left; eauto]|].
  destruct (validateSecretsAndConfig ConvertJobSpecToJobConfig EnableSecrets jobSpec
              (Secrets req)) eqn:Hsecrets;
    [inversion Hrun; subst; simpl; split; [done|left; eauto]|].
  destruct (handleCreateSecrets jobID jobSpec (Secrets req) (secretStore w) n)
    as [[[[err spec'] store'] n']|] eqn:Hhandle; [|done]. simpl in Hrun.
  assert (Secrets req = [] -> store' = secretStore w) as Hstore.
  { intros Hnil. unfold handleCreateSecrets in Hhandle. rewrite Hnil in Hhandle.
    simpl in Hhandle. by inversion Hhandle. }
  destruct err; [inversion Hrun; subst; simpl; split; [done|left; eauto]|].
  assert (Hright : exists jobSpec0 path0,
            Some jobSpec = Some jobSpec0 /\
            validateResourcePoolForJobCreation GetResourcePool (RespoolId jobSpec0) =
              inl path0 /\
            validateSecretsAndConfig ConvertJobSpecToJobConfig EnableSecrets jobSpec0
              (Secrets req) = None) by eauto.
  destruct (Create _ _ _ _ _) as [[?|] cache];
    [inversion Hrun; subst; simpl; split; [done|right; done]|].
  destruct (GetRuntime _ cache) as [[runtimeInfo|?] cache'];
    inversion Hrun; subst; simpl; (split; [done|right]);
    (split; [done|split; [done|split; [|done]]]).
  - intros resp Hresp. by inversion Hresp.
  - done.
Qed.

End CreateJobBody.

(** ** The job service theorems on the fixtures *)

(** The two secrets of the fixture, the first without an id, on the spec
    with one Mesos container. *)
Lemma handleCreateSecrets_volumes_witness :
  jobfixtures.testSecrets <> [] /\
  @jobcreate.handleCreateSecrets jobfixtures.testLibrary _ jobfixtures.testSecretStore
    "job" jobfixtures.testSpec jobfixtures.testSecrets [] 0 =
    Some (None, jobfixtures.testSpecWithSecrets, jobfixtures.testStored, 1%nat) /\
  @jobcreate.validateMesosContainerizerForSecrets jobfixtures.testLibrary
    jobfixtures.testSpec = None /\
  let given := @jobcreate.assignIds jobfixtures.testLibrary 0
                 (@jobcreate.ConvertV1SecretsToV0Secrets jobfixtures.testLibrary
                    jobfixtures.testSecrets) in
  @jobcreate.RespoolId jobfixtures.testLibrary jobfixtures.testSpecWithSecrets =
    @jobcreate.RespoolId jobfixtures.testLibrary jobfixtures.testSpec /\
  @jobcreate.specRest jobfixtures.testLibrary jobfixtures.testSpecWithSecrets =
    @jobcreate.specRest jobfixtures.testLibrary jobfixtures.testSpec /\
  @jobcreate.Containers jobfixtures.testLibrary jobfixtures.testSpecWithSecrets =
    @jobcreate.withVolumes jobfixtures.testLibrary
      (@jobcreate.secretVolumes jobfixtures.testLibrary given) <$>
      @jobcreate.Containers jobfixtures.testLibrary jobfixtures.testSpec /\
  jobfixtures.testStored =
    @jobcreate.storedAll _ jobfixtures.testSecretStore "job" false [] given.
Proof.
  assert (jobfixtures.testSecrets <> []) as H1 by discriminate.
  assert (@jobcreate.handleCreateSecrets jobfixtures.testLibrary _
            jobfixtures.testSecretStore "job" jobfixtures.testSpec
            jobfixtures.testSecrets [] 0 =
          Some (None, jobfixtures.testSpecWithSecrets, jobfixtures.testStored, 1%nat))
    as H2 by (vm_compute; reflexivity).
  assert (@jobcreate.validateMesosContainerizerForSecrets jobfixtures.testLibrary
            jobfixtures.testSpec = None) as H3 by (vm_compute; reflexivity).
  split; [exact H1|]. split; [exact H2|]. split; [exact H3|].
  exact (@handleCreateSecrets_volumes jobfixtures.testLibrary _
           jobfixtures.testSecretStore "job" jobfixtures.testSpec
           jobfixtures.testSecrets [] 0%nat None jobfixtures.testSpecWithSecrets
           jobfixtures.testStored 1%nat H1 H2 H3).
Defined.

(** The request of the fixture has no id: the job is created under the
    first uuid, which the cache of the fixture has already, so the
    creation fails, and the job is in the goal state queue all the same. *)
Lemma createJobAsLeader_enqueues_witness :
  exists r w',
    @jobcreate.createJobAsLeader jobfixtures.testLibrary _ _
      jobfixtures.testSecretStore jobfixtures.testJobFactory
      jobfixtures.testGetResourcePool (fun spec => inl (0, None)) (fun _ config => config)
      true 100 7 jobfixtures.testRequest jobfixtures.testWorld = Some (r, w') /\
    r = inr (stateless.Status stateless.CodeAlreadyExists "job already exists") /\
    jobcreate.enqueuedJobs w' = [("uuid-0", 7)] /\
    let jobID :=
      if bool_decide (String.length
                        (@jobcreate.JobId jobfixtures.testLibrary jobfixtures.testRequest) =
                      0%nat)
      then @jobcreate.uuid_New jobfixtures.testLibrary
             (jobcreate.drawn jobfixtures.testWorld)
      else @jobcreate.JobId jobfixtures.testLibrary jobfixtures.testRequest in
    (@jobcreate.Secrets jobfixtures.testLibrary jobfixtures.testRequest = [] ->
     jobcreate.secretStore w' = jobcreate.secretStore jobfixtures.testWorld) /\
    ((exists err, r = inr err) /\
     jobcreate.jobCache w' = jobcreate.jobCache jobfixtures.testWorld /\
     jobcreate.enqueuedJobs w' = jobcreate.enqueuedJobs jobfixtures.testWorld
     \/
     jobcreate.enqueuedJobs w' =
       jobcreate.enqueuedJobs jobfixtures.testWorld ++ [(jobID, 7)] /\
     @jobcreate.uuid_Parse jobfixtures.testLibrary jobID = true /\
     (forall resp, r = inl resp ->
        @jobcreate.RespJobId jobfixtures.testLibrary resp = jobID) /\
     exists jobSpec path,
       @jobcreate.Spec jobfixtures.testLibrary jobfixtures.testRequest = Some jobSpec /\
       @jobcreate.validateResourcePoolForJobCreation jobfixtures.testLibrary
         jobfixtures.testGetResourcePool
         (@jobcreate.RespoolId jobfixtures.testLibrary jobSpec) = inl path /\
       @jobcreate.validateSecretsAndConfig jobfixtures.testLibrary
         (fun spec => inl (0, None)) true jobSpec
         (@jobcreate.Secrets jobfixtures.testLibrary jobfixtures.testRequest) = None).
Proof.
  do 2 eexists.
  split; [vm_compute; reflexivity|]. split; [reflexivity|].
  split; [vm_compute; reflexivity|].
  apply (@createJobAsLeader_enqueues jobfixtures.testLibrary _ _
           jobfixtures.testSecretStore jobfixtures.testJobFactory
           jobfixtures.testGetResourcePool (fun spec => inl (0, None))
           (fun _ config => config) true 100 7
           jobfixtures.testRequest jobfixtures.testWorld).
  vm_compute. reflexivity.
Defined.

(** ** Offers service of the placement engine *)

Section OffersService.

Import offersvc.

Context {HostOffer Task HostFilter TaskType RespError HM RM : Type}.

Variable Hostname : HostOffer -> string.
Variable AcquireHostOffers :
  option HostFilter -> HM ->
  (@AcquireHostOffersResponse HostOffer RespError + string) * HM.
Variable ReleaseHostOffers :
  list HostOffer -> HM -> (@ReleaseHostOffersResponse RespError + string) * HM.
Variable GetTasksByHosts :
  TaskType -> list string -> RM ->
  (option (gmap string (option (@TaskList Task))) + string) * RM.
Variable RespError_String : RespError -> string.
Variable json_Marshal : gmap string Z -> string.

Local Abbreviation Acquire :=
  (Acquire Hostname AcquireHostOffers GetTasksByHosts RespError_String json_Marshal).
Local Abbreviation Release := (Release (Task := Task) (RM := RM) ReleaseHostOffers).

Lemma convertOffers_GetOffer hostOffers tasks now :
  GetOffer <$> convertOffers (Task := Task) Hostname hostOffers tasks now = hostOffers.
Proof.
  unfold convertOffers. rewrite <- list_fmap_compose.
  rewrite <- (list_fmap_id hostOffers) at 2. by apply list_fmap_ext.
Qed.

(** X19: what [Acquire] hands out is what [Release] hands back.  A failed
    [Acquire] returns no host, one of its two reasons, and counts one
    failure, and a [Release] of its result calls nobody.  A successful
    [Acquire] returns one host for each host offer of the response of the
    host manager, in order and claimed at the time of the call, with the
    filter result counts as the reason; a [Release] of these hosts sends
    the host manager exactly the host offers of that response. *)
Theorem Acquire_Release fetchTasks_ taskType filter now s offers reason s1 :
  Acquire fetchTasks_ taskType filter now s = ((offers, reason), s1) ->
  (offers = [] /\
   (reason = _failedToAcquireHostOffers \/ reason = _failedToFetchTasksOnHosts) /\
   OfferGetFail s1 = OfferGetFail s + 1 /\
   Release offers s1 = s1)
  \/
  (exists response,
     (AcquireHostOffers filter (hostManager s)).1 = inl response /\
     AcquireError response = None /\
     GetOffer <$> offers = HostOffers response /\
     Forall (fun host => Claimed host = now) offers /\
     reason = json_Marshal (FilterResultCounts response) /\
     OfferGetFail s1 = OfferGetFail s /\
     hostManager s1 = (AcquireHostOffers filter (hostManager s)).2 /\
     hostManager (Release offers s1) =
       if bool_decide (HostOffers response = [])
       then hostManager s1
       else (ReleaseHostOffers (HostOffers response) (hostManager s1)).2).
Proof.
  unfold offersvc.Acquire, fetchOffers, fetchTasks.
  destruct (AcquireHostOffers filter (hostManager s)) as [[response|err] hm1]; simpl;
    [|intros Hrun; inversion Hrun; subst; left; simpl; split; [done|];
      split; [by left|done]].
  destruct (AcquireError response) as [respErr|] eqn:Herr; simpl;
    [intros Hrun; inversion Hrun; subst; left; simpl; split; [done|];
     split; [by left|done]|].
  assert (Hok : forall tasks s2,
    hostManager s2 = hm1 -> OfferGetFail s2 = OfferGetFail s ->
    ((convertOffers Hostname (HostOffers response) tasks now,
      json_Marshal (FilterResultCounts response)), s2) = ((offers, reason), s1) ->
    exists response0,
      @inl _ string response = inl response0 /\ AcquireError response0 = None /\
      GetOffer <$> offers = HostOffers response0 /\
      Forall (fun host => Claimed host = now) offers /\
      reason = json_Marshal (FilterResultCounts response0) /\
      OfferGetFail s1 = OfferGetFail s /\ hostManager s1 = hm1 /\
      hostManager (Release offers s1) =
        if bool_decide (HostOffers response0 = [])
        then hostManager s1
        else (ReleaseHostOffers (HostOffers response0) (hostManager s1)).2).
  { intros tasks s2 Hhm Hfail Hrun. inversion Hrun; subst. clear Hrun.
    exists response. split; [done|]. split; [done|].
    split; [apply convertOffers_GetOffer|]. split.
    { unfold convertOffers. apply Forall_fmap, Forall_forall. done. }
    split; [done|]. split; [done|]. split; [done|].
    unfold offersvc.Release. rewrite convertOffers_GetOffer.
    unfold convertOffers. rewrite length_fmap.
    destruct (HostOffers response) as [|hostOffer rest]; [done|].
    rewrite bool_decide_eq_false_2 by done. rewrite bool_decide_eq_false_2 by done.
    by destruct (ReleaseHostOffers _ _). }
  destruct (fetchTasks_ && bool_decide (0 < length (HostOffers response))%nat).
  - destruct (GetTasksByHosts taskType _ (resourceManager s)) as [[tasks|err] rm1]; simpl.
    + intros Hrun. right. by eapply Hok; [| |exact Hrun].
    + intros Hrun; inversion Hrun; subst; left; simpl. split; [done|].
      split; [by right|done].
  - simpl. intros Hrun. right. by eapply Hok; [| |exact Hrun].
Qed.

(** X20: when the host manager has handed out host offers and the fetch of
    the tasks on these hosts fails, [Acquire] returns no host and the
    reason of that failure: the host offers are dropped, neither given to
    the caller, who has nothing to release, nor released by the service,
    which has made no call to the host manager after the one that got
    them. *)
Theorem Acquire_fetchTasks_failure taskType filter now s response err :
  (AcquireHostOffers filter (hostManager s)).1 = inl response ->
  AcquireError response = None ->
  HostOffers response <> [] ->
  (GetTasksByHosts taskType (Hostname <$> HostOffers response) (resourceManager s)).1 =
    inr err ->
  let r := Acquire true taskType filter now s in
  r.1 = ([], _failedToFetchTasksOnHosts) /\
  hostManager r.2 = (AcquireHostOffers filter (hostManager s)).2 /\
  OfferGetFail r.2 = OfferGetFail s + 1 /\
  Release r.1.1 r.2 = r.2.
Proof.
  intros Hacq Herr Hne Htasks. unfold offersvc.Acquire, fetchOffers, fetchTasks.
  destruct (AcquireHostOffers filter (hostManager s)) as [resp hm1].
  simpl in Hacq. subst resp. simpl. rewrite Herr. simpl.
  rewrite bool_decide_eq_true_2
    by (destruct (HostOffers response); [done|simpl; lia]).
  simpl in *.
  destruct (GetTasksByHosts taskType _ (resourceManager s)) as [resp rm1].
  simpl in Htasks. subst resp. simpl. done.
Qed.

(** X21: [Acquire] asks the resource manager for tasks only when it is told
    to and the host manager gave at least one host offer, and then once,
    for the hostnames of the host offers in their order; each host it
    returns carries the task list that the answer has under the hostname
    of its offer, and no task when the answer has none or no tasks were
    fetched. *)
Theorem Acquire_tasks fetchTasks_ taskType filter now s response :
  (AcquireHostOffers filter (hostManager s)).1 = inl response ->
  AcquireError response = None ->
  let r := Acquire fetchTasks_ taskType filter now s in
  let asked := fetchTasks_ && bool_decide (HostOffers response <> []) in
  let answer :=
    GetTasksByHosts taskType (Hostname <$> HostOffers response) (resourceManager s) in
  resourceManager r.2 = (if asked then answer.2 else resourceManager s) /\
  forall host, host ∈ r.1.1 ->
    GetTasks host =
      match (if asked then answer.1 else inl None) with
      | inl (Some tasks) =>
          match tasks !! Hostname (GetOffer host) with
          | Some (Some taskList) => Tasks taskList
          | _ => []
          end
      | _ => []
      end.
Proof.
  intros Hacq Herr r asked answer. unfold r, offersvc.Acquire, fetchOffers, fetchTasks.
  unfold asked, answer. clear r asked answer.
  destruct (AcquireHostOffers filter (hostManager s)) as [resp hm1].
  simpl in Hacq. subst resp. simpl. rewrite Herr. simpl.
  assert (bool_decide (0 < length (HostOffers response))%nat =
          bool_decide (HostOffers response <> [])) as ->.
  { apply bool_decide_ext. destruct (HostOffers response); simpl.
    - split; [lia|done].
    - split; [done|lia]. }
  destruct (fetchTasks_ && bool_decide (HostOffers response <> [])); simpl.
  - destruct (GetTasksByHosts taskType _ (resourceManager s)) as [[tasks|err] rm1]; simpl.
    + split; [done|]. intros host Hin. unfold convertOffers in Hin.
      apply list_elem_of_fmap in Hin as (hostOffer & -> & _). done.
    + split; [done|]. intros host Hin. by apply elem_of_nil in Hin.
  - split; [done|]. intros host Hin. unfold convertOffers in Hin.
    apply list_elem_of_fmap in Hin as (hostOffer & -> & _). done.
Qed.

End OffersService.

(** ** The offers service theorems on the fixtures *)

(** Two host offers are acquired with the task of agent1 and released. *)
Lemma Acquire_Release_witness :
  exists offers reason s1,
    offersvc.Acquire (fun hostOffer : string => hostOffer)
      offersfixtures.testAcquireHostOffers offersfixtures.testGetTasksByHosts
      (fun respErr : string => respErr) offersfixtures.testMarshal
      true tt None 5 offersfixtures.testService = ((offers, reason), s1) /\
    offers = [offersvc.NewHost "agent1" ["task-1"] 5; offersvc.NewHost "agent2" [] 5] /\
    offersvc.hostManager
      (offersvc.Release (Task := string) (RM := nat)
         offersfixtures.testReleaseHostOffers offers s1) = [["agent1"; "agent2"]] /\
    ((offers = [] /\
      (reason = offersvc._failedToAcquireHostOffers \/
       reason = offersvc._failedToFetchTasksOnHosts) /\
      offersvc.OfferGetFail s1 = offersvc.OfferGetFail offersfixtures.testService + 1 /\
      offersvc.Release (Task := string) (RM := nat)
        offersfixtures.testReleaseHostOffers offers s1 = s1)
     \/
     (exists response,
        (offersfixtures.testAcquireHostOffers None
           (offersvc.hostManager offersfixtures.testService)).1 = inl response /\
        offersvc.AcquireError response = None /\
        offersvc.GetOffer <$> offers = offersvc.HostOffers response /\
        Forall (fun host => offersvc.Claimed host = 5) offers /\
        reason = offersfixtures.testMarshal (offersvc.FilterResultCounts response) /\
        offersvc.OfferGetFail s1 = offersvc.OfferGetFail offersfixtures.testService /\
        offersvc.hostManager s1 =
          (offersfixtures.testAcquireHostOffers None
             (offersvc.hostManager offersfixtures.testService)).2 /\
        offersvc.hostManager
          (offersvc.Release (Task := string) (RM := nat)
             offersfixtures.testReleaseHostOffers offers s1) =
          if bool_decide (offersvc.HostOffers response = [])
          then offersvc.hostManager s1
          else (offersfixtures.testReleaseHostOffers (offersvc.HostOffers response)
                  (offersvc.hostManager s1)).2)).
Proof.
  do 3 eexists.
  split; [vm_compute; reflexivity|]. split; [reflexivity|].
  split; [vm_compute; reflexivity|].
  apply (Acquire_Release (fun hostOffer : string => hostOffer)
           offersfixtures.testAcquireHostOffers offersfixtures.testReleaseHostOffers
           offersfixtures.testGetTasksByHosts (fun respErr : string => respErr)
           offersfixtures.testMarshal true tt None 5 offersfixtures.testService).
  vm_compute. reflexivity.
Defined.

(** Two host offers are acquired while the resource manager is down. *)
Lemma Acquire_fetchTasks_failure_witness :
  let response :=
    offersvc.mkAcquireHostOffersResponse (RespError := string) None ["agent1"; "agent2"]
      {["MATCH" := 2]} in
  let r :=
    offersvc.Acquire (fun hostOffer : string => hostOffer)
      offersfixtures.testAcquireHostOffers offersfixtures.downGetTasksByHosts
      (fun respErr : string => respErr) offersfixtures.testMarshal
      true tt None 5 offersfixtures.testService in
  (offersfixtures.testAcquireHostOffers None
     (offersvc.hostManager offersfixtures.testService)).1 = inl response /\
  offersvc.AcquireError response = None /\
  offersvc.HostOffers response <> [] /\
  (offersfixtures.downGetTasksByHosts tt
     ((fun hostOffer : string => hostOffer) <$> offersvc.HostOffers response)
     (offersvc.resourceManager offersfixtures.testService)).1 =
    inr "resource manager is down" /\
  r.1 = ([], offersvc._failedToFetchTasksOnHosts) /\
  offersvc.hostManager r.2 =
    (offersfixtures.testAcquireHostOffers None
       (offersvc.hostManager offersfixtures.testService)).2 /\
  offersvc.OfferGetFail r.2 = offersvc.OfferGetFail offersfixtures.testService + 1 /\
  offersvc.Release (Task := string) (RM := nat)
    offersfixtures.testReleaseHostOffers r.1.1 r.2 = r.2.
Proof.
  cbv zeta.
  split; [reflexivity|]. split; [reflexivity|]. split; [discriminate|].
  split; [reflexivity|].
  exact (Acquire_fetchTasks_failure (fun hostOffer : string => hostOffer)
           offersfixtures.testAcquireHostOffers offersfixtures.testReleaseHostOffers
           offersfixtures.downGetTasksByHosts (fun respErr : string => respErr)
           offersfixtures.testMarshal tt None 5 offersfixtures.testService
           (offersvc.mkAcquireHostOffersResponse (RespError := string) None
              ["agent1"; "agent2"] {["MATCH" := 2]})
           "resource manager is down" eq_refl eq_refl
           ltac:(discriminate) eq_refl).
Defined.

(** The resource manager is asked once, and agent1 gets its task. *)
Lemma Acquire_tasks_witness :
  let response :=
    offersvc.mkAcquireHostOffersResponse (RespError := string) None ["agent1"; "agent2"]
      {["MATCH" := 2]} in
  (offersfixtures.testAcquireHostOffers None
     (offersvc.hostManager offersfixtures.testService)).1 = inl response /\
  offersvc.AcquireError response = None /\
  let r :=
    offersvc.Acquire (fun hostOffer : string => hostOffer)
      offersfixtures.testAcquireHostOffers offersfixtures.testGetTasksByHosts
      (fun respErr : string => respErr) offersfixtures.testMarshal
      true tt None 5 offersfixtures.testService in
  let asked := true && bool_decide (offersvc.HostOffers response <> []) in
  let answer :=
    offersfixtures.testGetTasksByHosts tt
      ((fun hostOffer : string => hostOffer) <$> offersvc.HostOffers response)
      (offersvc.resourceManager offersfixtures.testService) in
  offersvc.resourceManager r.2 =
    (if asked then answer.2 else offersvc.resourceManager offersfixtures.testService) /\
  forall host, host ∈ r.1.1 ->
    offersvc.GetTasks host =
      match (if asked then answer.1 else inl None) with
      | inl (Some tasks) =>
          match tasks !! (fun hostOffer : string => hostOffer) (offersvc.GetOffer host) with
          | Some (Some taskList) => offersvc.Tasks taskList
          | _ => []
          end
      | _ => []
      end.
Proof.
  cbv zeta. split; [reflexivity|]. split; [reflexivity|].
  exact (Acquire_tasks (fun hostOffer : string => hostOffer)
           offersfixtures.testAcquireHostOffers
           offersfixtures.testGetTasksByHosts (fun respErr : string => respErr)
           offersfixtures.testMarshal true tt None 5 offersfixtures.testService
           (offersvc.mkAcquireHostOffersResponse (RespError := string) None
              ["agent1"; "agent2"] {["MATCH" := 2]})
           eq_refl eq_refl).
Defined.

(** ** Task manager *)

Section TaskManager.

Import taskmgr.

Context {JobID JobConfig TaskInfo InstanceRange : Type}.

Variable InstanceCount : JobConfig -> Z.
Variable GetJob : JobID -> option JobConfig * option string.
Variable GetTaskForJob : JobID -> Z -> gmap Z TaskInfo * option string.
Variable GetTasksForJob : JobID -> gmap Z TaskInfo * option string.
Variable GetTasksForJobByRange : JobID -> InstanceRange -> gmap Z TaskInfo * option string.
Variable jobNotFound : JobID -> option string -> string.
Variable failedToFindJob : JobID -> option string -> string.
Variable errIs : option string -> string.

Local Abbreviation Get := (Get InstanceCount GetJob GetTaskForJob jobNotFound).
Local Abbreviation List :=
  (List GetJob GetTasksForJob GetTasksForJobByRange failedToFindJob errIs).

(** X22: [TaskManager.Get] never returns an error, and its response has
    exactly one of its three fields set.  It is [NotFound] exactly when the
    job store fails or has no config for the job; otherwise it is a task
    of the answer of the task store when that answer has one, and
    [OutOfRange] with the instance count of the job when it has none,
    also when the task store failed: that error is dropped.  Every call is
    counted; a task found counts as a hit, [OutOfRange] as a failure, and
    [NotFound] as neither. *)
Theorem Get_answers (body : GetRequest (JobID := JobID)) m :
  let job := GetJob (GetJobId body) in
  let tasks := (GetTaskForJob (GetJobId body) (GetInstanceId body)).1 in
  let response := (Get body m).1.1 in
  let m' := (Get body m).2 in
  (Get body m).1.2 = None /\
  (is_Some (GetResult response) /\ GetNotFound response = None /\
     GetOutOfRange response = None \/
   GetResult response = None /\ is_Some (GetNotFound response) /\
     GetOutOfRange response = None \/
   GetResult response = None /\ GetNotFound response = None /\
     is_Some (GetOutOfRange response)) /\
  (is_Some (GetNotFound response) <-> job.2 <> None \/ job.1 = None) /\
  (forall taskInfo, GetResult response = Some taskInfo ->
     exists instance, tasks !! instance = Some taskInfo) /\
  (forall outOfRange, GetOutOfRange response = Some outOfRange ->
     tasks = ∅ /\ exists jobConfig, job.1 = Some jobConfig /\
       outOfRange = mkInstanceIdOutOfRange (GetJobId body) (InstanceCount jobConfig)) /\
  TaskAPIGet m' = TaskAPIGet m + 1 /\
  TaskGet m' = TaskGet m + (match GetResult response with Some _ => 1 | None => 0 end) /\
  TaskGetFail m' = TaskGetFail m + (match GetOutOfRange response with Some _ => 1 | None => 0 end).
Proof.
  cbv zeta. unfold taskmgr.Get.
  destruct (GetJob (GetJobId body)) as [[jobConfig|] [err|]]; simpl;
    try (split; [done|]; split; [right; left; eauto|]; split; [split; eauto|];
         split; [done|]; split; [done|]; split; [done|]; split; lia).
  destruct (GetTaskForJob (GetJobId body) (GetInstanceId body)) as [result err]. simpl.
  destruct (map_to_list result) as [|[instance taskInfo] rest] eqn:Hlist; simpl.
  - apply map_to_list_empty_iff in Hlist. subst result.
    split; [done|]. split; [right; right; eauto|]. split.
    { split; [by intros [? ?]|]. intros [?|?]; done. }
    split; [done|]. split; [|split; [done|split; lia]].
    intros outOfRange Hout. inversion Hout; subst. eauto.
  - split; [done|]. split; [left; eauto|]. split.
    { split; [by intros [? ?]|]. intros [?|?]; done. }
    split; [|split; [done|split; [done|split; lia]]].
    intros taskInfo' Hres. inversion Hres; subst. exists instance.
    apply elem_of_map_to_list. rewrite Hlist. apply elem_of_cons. by left.
Qed.

(** X23: [TaskManager.List] never returns an error, and its response has
    exactly one of its two fields set.  It is the tasks of the job, all or
    those of the range of the request, exactly when the job store does not
    fail, the task store does not fail, and there is at least one task;
    in every other case it is [NotFound], so that a job without tasks is
    reported as not found, while a job without config is not, unlike in
    [Get].  Every call is counted, and as a hit or as a failure. *)
Theorem List_answers (body : ListRequest (JobID := JobID) (InstanceRange := InstanceRange)) m :
  let job := GetJob (ListJobId body) in
  let answer :=
    match ListRange body with
    | None => GetTasksForJob (ListJobId body)
    | Some range => GetTasksForJobByRange (ListJobId body) range
    end in
  let response := (List body m).1.1 in
  let m' := (List body m).2 in
  (List body m).1.2 = None /\
  (is_Some (ListResult response) /\ ListNotFound response = None \/
   ListResult response = None /\ is_Some (ListNotFound response)) /\
  (forall result, ListResult response = Some result <->
     job.2 = None /\ answer.2 = None /\ answer.1 <> ∅ /\ result = answer.1) /\
  TaskAPIList m' = TaskAPIList m + 1 /\
  TaskList m' = TaskList m + (match ListResult response with Some _ => 1 | None => 0 end) /\
  TaskListFail m' = TaskListFail m + (match ListNotFound response with Some _ => 1 | None => 0 end).
Proof.
  cbv zeta. unfold taskmgr.List.
  destruct (GetJob (ListJobId body)) as [jobConfig [err|]]; simpl.
  { split; [done|]. split; [right; eauto|]. split; [|split; [done|split; lia]].
    intros result. split; [done|]. by intros [? _]. }
  destruct (match ListRange body with
            | Some range => GetTasksForJobByRange (ListJobId body) range
            | None => GetTasksForJob (ListJobId body)
            end) as [result err]. simpl.
  destruct err as [err|]; simpl.
  { rewrite ?bool_decide_eq_true_2 by done. simpl.
    split; [done|]. split; [right; eauto|]. split; [|split; [done|split; lia]].
    intros result'. split; [done|]. by intros (_ & ? & _). }
  rewrite ?bool_decide_eq_false_2 by (intros Hc; by apply Hc). simpl.
  case_bool_decide as Hsize; simpl.
  - apply map_size_empty_iff in Hsize. subst result.
    split; [done|]. split; [right; eauto|]. split; [|split; [done|split; lia]].
    intros result'. split; [done|]. by intros (_ & _ & ? & _).
  - split; [done|]. split; [left; eauto|]. split; [|split; [done|split; lia]].
    intros result'. split.
    + intros Hres. inversion Hres; subst. split; [done|]. split; [done|].
      split; [|done]. intros ->. apply Hsize. apply map_size_empty.
    + intros (_ & _ & _ & ->). done.
Qed.

End TaskManager.
